(** * SVCheck: the REST client of [classes/SV_utils.py]

    A shallow embedding of the class [SV_system]: the session set-up of
    [__init__], the role check of [__check_user_rights], [run_command], the
    [lssystem] transform, and the workbook pipeline of
    [generate_excel_report].

    The methods talk to the outside world through four libraries: [socket],
    [requests], [pandas] and [openpyxl].  What the array, the network and the
    file system answer is not decided by the program; it is collected in a
    record [world] of oracles, and every theorem quantifies over it.  What
    the libraries compute on the program's own data (worksheet cells, the
    layout of the data frame of a list of records) is written out as
    functions; what the type inference of [pandas] makes of a column that
    is not one of strings, and what [openpyxl] reads back from a file it
    has written, are left to the world too. *)

From stdpp Require Import gmap strings list fin_maps.
From Stdlib Require Import ZArith Ascii String.

Local Open Scope Z_scope.
#[local] Set Warnings "-register-all".

(** ** Python values *)

(** A decoded JSON document, as [json.loads] returns it.  An object is a
    Python [dict]: its bindings are kept in insertion order.  Numbers are
    integers here; the arrays of the API send strings. *)
Inductive json : Type :=
  | JNull
  | JBool (b : bool)
  | JNum (n : Z)
  | JStr (s : string)
  | JArr (items : list json)
  | JObj (fields : list (string * json)).

Definition pydict : Type := list (string * json).

(** The exceptions that reach the top level.  The payload of a [KeyError]
    is the missing key. *)
Inductive exn : Type :=
  | KeyError (key : string)
  | IndexError
  | TypeError
  | ValueError
  | AttributeError
  | OSError
  | FileNotFoundError
  | RequestException
  | IllegalCharacterError
  | BadZipFile
  | ParseError.

(** A computation that returns or raises an exception. *)
Inductive except (A : Type) : Type :=
  | Ok (a : A)
  | Err (e : exn).
Arguments Ok {A} a.
Arguments Err {A} e.

#[global] Instance except_ret : MRet except := λ A a, Ok a.
#[global] Instance except_bind : MBind except := λ A B f r,
  match r with
  | Ok a => f a
  | Err e => Err e
  end.

(** How a method call ends: it returns, the process leaves through
    [sys.exit], or an exception goes up uncaught. *)
Inductive result (A : Type) : Type :=
  | Ret (a : A)
  | Exit (code : Z)
  | Raise (e : exn).
Arguments Ret {A} a.
Arguments Exit {A} code.
Arguments Raise {A} e.

(** *** Dictionaries *)

(** [d[k]] *)
Fixpoint dict_get (k : string) (d : pydict) : option json :=
  match d with
  | [] => None
  | (k', v) :: d' => if String.eqb k k' then Some v else dict_get k d'
  end.

(** [d.update({k: v})]: an existing key keeps its place and takes the new
    value, a new key goes last. *)
Fixpoint dict_update (k : string) (v : json) (d : pydict) : pydict :=
  match d with
  | [] => [(k, v)]
  | (k', v') :: d' =>
      if String.eqb k k' then (k', v) :: d' else (k', v') :: dict_update k v d'
  end.

Definition dict_keys (d : pydict) : list string := d.*1.

(** [obj[k]] with a string key, on any decoded value: a [KeyError] on a
    dict without the key, a [TypeError] on a list, a string or a scalar. *)
Definition subscript (obj : json) (k : string) : except json :=
  match obj with
  | JObj d =>
      match dict_get k d with
      | Some v => Ok v
      | None => Err (KeyError k)
      end
  | _ => Err TypeError
  end.

(** [obj[i]] with an integer index [i >= 0]: a list is indexed, a dict has
    no integer key (its keys are strings), a string gives a character, a
    scalar is not subscriptable. *)
Definition subscript_int (obj : json) (i : nat) : except json :=
  match obj with
  | JArr l =>
      match l !! i with
      | Some v => Ok v
      | None => Err IndexError
      end
  | JObj _ => Err (KeyError "1")
  | JStr s =>
      match String.get i s with
      | Some c => Ok (JStr (String c EmptyString))
      | None => Err IndexError
      end
  | _ => Err TypeError
  end.

(** [x + "suffix"]: only a string can be concatenated with a string. *)
Definition concat_str (x : json) (suffix : string) : except string :=
  match x with
  | JStr s => Ok (s +:+ suffix)
  | _ => Err TypeError
  end.

(** [for x in obj]: the items of a list, the keys of a dict, the characters
    of a string; a scalar is not iterable. *)
Fixpoint chars (s : string) : list json :=
  match s with
  | EmptyString => []
  | String c s' => JStr (String c EmptyString) :: chars s'
  end.

Definition iterate (obj : json) : except (list json) :=
  match obj with
  | JArr l => Ok l
  | JObj d => Ok (JStr <$> dict_keys d)
  | JStr s => Ok (chars s)
  | _ => Err TypeError
  end.

(** ** The worksheet of [openpyxl] *)

(** Cell styles, with the attributes the program sets. *)
Record font : Type := Font {
  font_name : string;
  font_size : Z;
  font_bold : bool;
  font_italic : bool;
  font_vertAlign : option string;
  font_underline : string;
  font_strike : bool;
  font_color : string
}.

Record pattern_fill : Type := PatternFill {
  start_color : string;
  end_color : string;
  fill_type : option string
}.

Record alignment : Type := Alignment {
  horizontal : option string;
  vertical : option string
}.

(** What a cell holds: a decoded scalar, or the [NaN] that [pandas] puts
    where a record has no value for a column. *)
Inductive cell_value : Type :=
  | Val (j : json)
  | NaN.

Record cell : Type := Cell {
  value : cell_value;
  cell_font : font;
  cell_fill : pattern_fill;
  cell_alignment : alignment
}.

Definition DEFAULT_FONT : font :=
  Font "Calibri" 11 false false None "none" false "theme1".
Definition DEFAULT_FILL : pattern_fill := PatternFill "00000000" "00000000" None.
Definition DEFAULT_ALIGNMENT : alignment := Alignment None None.

(** [Cell(ws, row, column, value)] *)
Definition new_cell (v : cell_value) : cell :=
  Cell v DEFAULT_FONT DEFAULT_FILL DEFAULT_ALIGNMENT.

Definition with_font (f : font) (x : cell) : cell :=
  Cell (value x) f (cell_fill x) (cell_alignment x).
Definition with_fill (p : pattern_fill) (x : cell) : cell :=
  Cell (value x) (cell_font x) p (cell_alignment x).
Definition with_alignment (a : alignment) (x : cell) : cell :=
  Cell (value x) (cell_font x) (cell_fill x) a.

Record column_dimension : Type := ColumnDimension {
  cd_min : positive;
  cd_max : positive;
  cd_width : Z
}.

(** Rows and columns are numbered from 1.  [ws._cells] is a dict keyed by
    (row, column); [column_dimensions] is keyed by the column letter;
    [_current_row] is the last row that was written, 0 on an unused
    sheet. *)
Record worksheet : Type := Worksheet {
  title : string;
  cells : gmap (positive * positive) cell;
  column_dimensions : gmap string column_dimension;
  current_row : N
}.

Definition with_title (t : string) (ws : worksheet) : worksheet :=
  Worksheet t (cells ws) (column_dimensions ws) (current_row ws).
Definition with_column_dimensions (d : gmap string column_dimension)
    (ws : worksheet) : worksheet :=
  Worksheet (title ws) (cells ws) d (current_row ws).

Abbreviation workbook := (list worksheet).

(** *** Ranges *)

Fixpoint range_from (n : nat) (start step : positive) : list positive :=
  match n with
  | O => []
  | S n' => start :: range_from n' (start + step)%positive step
  end.

(** [range(start, stop, step)] on positive numbers *)
Definition range (start stop step : positive) : list positive :=
  range_from
    (Z.to_nat ((Z.pos stop - Z.pos start + Z.pos step - 1) / Z.pos step))
    start step.

(** *** Dimensions of the used area *)

Definition used_rows (ws : worksheet) : list positive :=
  (λ kv, kv.1.1) <$> map_to_list (cells ws).
Definition used_columns (ws : worksheet) : list positive :=
  (λ kv, kv.1.2) <$> map_to_list (cells ws).

(** [min] and [max] of a list, 1 when the sheet has no cell *)
Definition min_or_1 (l : list positive) : positive :=
  match l with
  | [] => 1
  | x :: l' => foldr Pos.min x l'
  end.
Definition max_or_1 (l : list positive) : positive := foldr Pos.max 1%positive l.

Definition min_row (ws : worksheet) : positive := min_or_1 (used_rows ws).
Definition max_row (ws : worksheet) : positive := max_or_1 (used_rows ws).
Definition min_column (ws : worksheet) : positive := min_or_1 (used_columns ws).
Definition max_column (ws : worksheet) : positive := max_or_1 (used_columns ws).

(** *** Cells *)

(** The cell at a place with an attribute assigned, [g]: the cell is
    created empty when the sheet has none there ([_get_cell]), and a
    created cell moves [_current_row] on ([_add_cell]). *)
Definition put_cell (r c : positive) (g : cell → cell) (ws : worksheet)
    : worksheet :=
  match cells ws !! (r, c) with
  | Some x =>
      Worksheet (title ws) (<[(r, c) := g x]> (cells ws))
        (column_dimensions ws) (current_row ws)
  | None =>
      Worksheet (title ws) (<[(r, c) := g (new_cell (Val JNull))]> (cells ws))
        (column_dimensions ws) (N.max (N.pos r) (current_row ws))
  end.

(** The last row of a worksheet. *)
Definition MAX_ROW : positive := 1048576.

(** [ws.cell(row=r, column=c)] followed by an attribute assignment.
    [_get_cell] refuses a row beyond the last with a [ValueError], be
    there a cell or not. *)
Definition on_cell (r c : positive) (g : cell → cell) (ws : worksheet)
    : except worksheet :=
  if (r <=? MAX_ROW)%positive then Ok (put_cell r c g ws) else Err ValueError.

(** The characters [openpyxl] refuses in a cell: the control characters
    other than tab, line feed and carriage return. *)
Definition illegal_character (c : ascii) : bool :=
  let n := nat_of_ascii c in
  ((n <? 32)%nat && negb ((n =? 9)%nat || (n =? 10)%nat || (n =? 13)%nat)).

Definition legal_string (s : string) : bool :=
  forallb (λ c, negb (illegal_character c)) (list_ascii_of_string s).

(** [value[:n]] *)
Fixpoint truncate (n : N) (value : string) : string :=
  match value with
  | EmptyString => EmptyString
  | String c value' =>
      if (n =? 0)%N then EmptyString else String c (truncate (N.pred n) value')
  end.

(** [Cell.check_string]: a string is cut after 32767 characters, and
    what is left is refused when it has an illegal character. *)
Definition check_string (value : string) : except string :=
  let value := truncate 32767 value in
  if legal_string value then Ok value else Err IllegalCharacterError.

(** [Cell._bind_value]: what a cell holds when it is given a value.  A
    scalar is taken, a string as [check_string] leaves it; a list or a
    dict is refused with a [ValueError]. *)
Definition bind_value (v : cell_value) : except cell_value :=
  match v with
  | NaN => Ok NaN
  | Val (JArr _) | Val (JObj _) => Err ValueError
  | Val (JStr s) => value ← check_string s; Ok (Val (JStr value))
  | Val j => Ok (Val j)
  end.

(** The cells of one appended row, written from column [c] on. *)
Fixpoint put_row (r c : positive) (row : list cell_value)
    (m : gmap (positive * positive) cell) : gmap (positive * positive) cell :=
  match row with
  | [] => m
  | v :: row' => put_row r (Pos.succ c) row' (<[(r, c) := new_cell v]> m)
  end.

(** [ws.append(row)]: the cells are made from left to right, and the
    first value that a cell does not take ends the call.  The row is not
    checked against the last row of a worksheet. *)
Definition append (row : list cell_value) (ws : worksheet) : except worksheet :=
  let row_idx := N.succ_pos (current_row ws) in
  values ← mapM bind_value row;
  Ok (Worksheet (title ws) (put_row row_idx 1 values (cells ws))
         (column_dimensions ws) (N.pos row_idx)).

(** [for r in rows: ws.append(r)] *)
Fixpoint append_rows (rows : list (list cell_value)) (ws : worksheet)
    : except worksheet :=
  match rows with
  | [] => Ok ws
  | r :: rows' => ws' ← append r ws; append_rows rows' ws'
  end.

(** *** Column letters *)

Definition letter (n : Z) : ascii := ascii_of_nat (Z.to_nat (n + 64)).

(** The loop of [_get_column_letter]; three rounds cover every index up
    to 18278. *)
Fixpoint column_letters (rounds : nat) (col_idx : Z) (letters : string) : string :=
  match rounds with
  | O => letters
  | S rounds' =>
      if col_idx <=? 0 then letters
      else
        let q := col_idx / 26 in
        let r := col_idx mod 26 in
        if r =? 0 then column_letters rounds' (q - 1) (String (letter 26) letters)
        else column_letters rounds' q (String (letter r) letters)
  end.

(** [get_column_letter(idx)]: a [ValueError] beyond column [ZZZ]. *)
Definition get_column_letter (idx : positive) : except string :=
  if Z.pos idx <=? 18278 then Ok (column_letters 3 (Z.pos idx) "")
  else Err ValueError.

(** *** [__format_sheet] *)

Definition HEADER_FONT : font :=
  Font "Calibri" 12 true false None "none" false "000000".
Definition HEADER_FILL : pattern_fill :=
  PatternFill "0066CC" "0066CC" (Some "darkGrid").
Definition EVEN_FILL : pattern_fill :=
  PatternFill "66cc00" "66cc00" (Some "darkGrid").
Definition ODD_FILL : pattern_fill :=
  PatternFill "b3ff66" "b3ff66" (Some "lightGrid").
Definition CENTER : alignment := Alignment (Some "center") (Some "center").

(** A [for] loop whose body can raise. *)
Fixpoint for_each {A S : Type} (body : S → A → except S) (l : list A) (s : S)
    : except S :=
  match l with
  | [] => Ok s
  | x :: l' => s' ← body s x; for_each body l' s'
  end.

(** "Fix the width": every used column gets a dimension of width 25 in a
    new [DimensionHolder], which becomes the sheet's. *)
Definition fix_width (ws : worksheet) : except worksheet :=
  '(_, ws') ← for_each
    (λ '(dim_holder, w) the_col,
       l ← get_column_letter the_col;
       let dim_holder' :=
         <[l := ColumnDimension the_col the_col 25]> dim_holder in
       Ok (dim_holder', with_column_dimensions dim_holder' w))
    (range (min_column ws) (Pos.succ (max_column ws)) 1)
    (∅, ws);
  Ok ws'.

(** "Set the header": font and fill of the cells of row 1. *)
Definition set_header (ws : worksheet) : except worksheet :=
  for_each
    (λ w the_col,
       w' ← on_cell 1 the_col (with_font HEADER_FONT) w;
       on_cell 1 the_col (with_fill HEADER_FILL) w')
    (range (min_column ws) (Pos.succ (max_column ws)) 1) ws.

(** [ws.iter_rows()]: nothing on an unused sheet, otherwise the cells of
    rows 1 to [max_row] and columns 1 to [max_column], row by row.  Each
    cell is got with [ws.cell], and so made on the way when the sheet
    does not have it, which [on_cell] does for the loop body. *)
Definition iter_rows (ws : worksheet) : list (positive * positive) :=
  if (current_row ws =? 0)%N then []
  else
    r ← range 1 (Pos.succ (max_row ws)) 1;
    c ← range 1 (Pos.succ (max_column ws)) 1;
    [(r, c)].

(** "Center all" *)
Definition center_all (ws : worksheet) : except worksheet :=
  for_each (λ w '(r, c), on_cell r c (with_alignment CENTER) w) (iter_rows ws) ws.

(** One banding loop: the rows from [first] on, every second one; the
    column range is taken anew for each row. *)
Definition color_rows (first : positive) (p : pattern_fill) (ws : worksheet)
    : except worksheet :=
  for_each
    (λ w the_row,
       for_each (λ w' the_col, on_cell the_row the_col (with_fill p) w')
         (range 1 (Pos.succ (max_column w)) 1) w)
    (range first (Pos.succ (max_row ws)) 2) ws.

Definition format_sheet (ws : worksheet) : except worksheet :=
  ws1 ← fix_width ws;
  ws2 ← set_header ws1;
  ws3 ← center_all ws2;
  ws4 ← color_rows 2 EVEN_FILL ws3;
  color_rows 3 ODD_FILL ws4.

(** *** Workbooks *)

(** A workbook is its list of sheets, in order. *)
Definition new_sheet (t : string) : worksheet := Worksheet t ∅ ∅ 0.

Definition sheetnames (wb : workbook) : list string := title <$> wb.

Definition lower_ascii (c : ascii) : ascii :=
  let n := nat_of_ascii c in
  if ((65 <=? n) && (n <=? 90))%nat then ascii_of_nat (n + 32) else c.

Fixpoint lower (s : string) : string :=
  match s with
  | EmptyString => EmptyString
  | String c s' => String (lower_ascii c) (lower s')
  end.

(** The characters of [INVALID_TITLE_REGEX]: backslash, star, question
    mark, colon, slash and the square brackets. *)
Definition invalid_title_character (c : ascii) : bool :=
  let n := nat_of_ascii c in
  ((n =? 92) || (n =? 42) || (n =? 63) || (n =? 58) || (n =? 47)
   || (n =? 91) || (n =? 93))%nat.

Definition valid_title (t : string) : bool :=
  negb (String.eqb t "")
  && forallb (λ c, negb (invalid_title_character c)) (list_ascii_of_string t).

(** [avoid_duplicate_name(names, value)]: a title that is taken, whatever
    the case of its letters, is replaced by a numbered one; [numbered]
    is the numbering. *)
Definition avoid_duplicate_name (numbered : list string → string → string)
    (names : list string) (value : string) : string :=
  if existsb (λ n, String.eqb (lower n) (lower value)) names
  then numbered names value
  else value.

(** The setter of [title], on a sheet of a workbook with sheets [names]. *)
Definition set_title (numbered : list string → string → string)
    (names : list string) (value : string) (ws : worksheet) : except worksheet :=
  if valid_title value then
    Ok (with_title
           (if String.eqb (title ws) value then value
            else avoid_duplicate_name numbered names value) ws)
  else Err ValueError.

(** [Workbook()]: one sheet, titled "Sheet", which is the active one. *)
Definition Workbook : workbook := [new_sheet "Sheet"].

(** [wb.create_sheet(title)]: a new sheet at the end. *)
Definition create_sheet (numbered : list string → string → string)
    (t : string) (wb : workbook) : except workbook :=
  ws ← set_title numbered (sheetnames wb)
         (if String.eqb t "" then "Sheet" else t) (new_sheet "");
  Ok (wb ++ [ws]).

(** The position of [wb[name]]: the first sheet with that title. *)
Fixpoint sheet_index (name : string) (wb : workbook) : option nat :=
  match wb with
  | [] => None
  | ws :: wb' =>
      if String.eqb (title ws) name then Some O
      else S <$> sheet_index name wb'
  end.

(** ** Data frames *)

Record dataframe : Type := DataFrame {
  df_columns : list json;
  df_rows : list (list cell_value)
}.

(** The column labels of a list of records: the keys of all the records,
    each at its first appearance. *)
Definition add_label (labels : list string) (k : string) : list string :=
  if bool_decide (k ∈ labels) then labels else labels ++ [k].

Definition record_columns (records : list pydict) : list string :=
  foldl (λ labels r, foldl add_label labels (dict_keys r)) [] records.

(** The column of a label: for each record its value, if it has one. *)
Definition column (records : list pydict) (k : string) : list (option json) :=
  dict_get k <$> records.

(** A value that is a list or a dict. *)
Definition nested (v : json) : bool :=
  match v with
  | JArr _ | JObj _ => true
  | _ => false
  end.

Definition is_text (o : option json) : bool :=
  match o with
  | None | Some (JStr _) => true
  | _ => false
  end.

Definition is_nested (o : option json) : bool :=
  match o with
  | Some v => nested v
  | None => false
  end.

(** The columns that the type inference of [pandas] leaves as they are:
    those whose values are all strings, and those that have a list or a
    dict among their values, which stay columns of objects. *)
Definition kept_as_objects (col : list (option json)) : bool :=
  forallb is_text col || existsb is_nested col.

(** A value as it is, and [NaN] where there is none. *)
Definition as_is (o : option json) : cell_value :=
  match o with
  | Some v => Val v
  | None => NaN
  end.

(** The value in row [i] of a column.  In a column that is kept it is
    the value of the record, or [NaN] without one; what is in another
    column (numbers, booleans, nulls) is what the inference makes of it,
    [convert]: a null beside numbers becomes [NaN], and the integers
    beside it floats. *)
Definition column_cell (convert : list (option json) → nat → cell_value)
    (col : list (option json)) (i : nat) : cell_value :=
  if kept_as_objects col then
    match col !! i with
    | Some o => as_is o
    | None => NaN
    end
  else convert col i.

(** Row [i] of the frame: under each label the value of its column. *)
Definition record_row (convert : list (option json) → nat → cell_value)
    (records : list pydict) (labels : list string) (i : nat) : list cell_value :=
  (λ k, column_cell convert (column records k) i) <$> labels.

Definition as_record (x : json) : option pydict :=
  match x with JObj d => Some d | _ => None end.

(** A payload that is a list of dicts. *)
Definition as_records (data : json) : option (list pydict) :=
  match data with
  | JArr l => mapM as_record l
  | _ => None
  end.

(** [pd.DataFrame.from_dict(data)].  A list of records is laid out as
    above: a column for each key and a row for each record; what
    [pandas] makes of a payload of another shape is left to
    [other_shape]. *)
Definition DataFrame_from_dict
    (convert : list (option json) → nat → cell_value)
    (other_shape : json → except dataframe)
    (data : json) : except dataframe :=
  match as_records data with
  | Some records =>
      let labels := record_columns records in
      Ok (DataFrame (JStr <$> labels)
            (record_row convert records labels <$> seq 0 (List.length records)))
  | None => other_shape data
  end.

(** [dataframe_to_rows(df, index=False, header=True)]: the labels, then
    the rows. *)
Definition dataframe_to_rows (df : dataframe) : list (list cell_value) :=
  (Val <$> df_columns df) :: df_rows df.

(** ** The world *)

(** What the program does to the outside, in order. *)
Inductive event : Type :=
  | Connect (host port : string)
  | Post (url : string) (headers : pydict)
  | Load (path : string)
  | Save (path : string).

(** An HTTP answer: the status and [json.loads] of the text ([None] when
    the text is no JSON), or an exception of [requests]. *)
Inductive reply : Type :=
  | Response (status_code : Z) (body : option json)
  | NoResponse (e : exn).

(** A save that returns, one that fails before the file is opened for
    writing, and one that fails after. *)
Inductive save_outcome : Type :=
  | Saved
  | Refused
  | Torn.

(** The report file: none, the file that a save which returned has
    written from the workbook [wb], or what a save that failed has left
    of it. *)
Inductive file : Type :=
  | NoFile
  | XLSX (wb : workbook)
  | Damaged.

(** The oracles.  Each one sees the events so far.
    - [connect_ex]: the error indicator of the probe's connection, 0 for
      a connection that is made;
    - [shutdown]: the exception of [shutdown(SHUT_RDWR)] on the probe's
      socket, if it raises one;
    - [post]: the answer to a request;
    - [save]: how [wb.save] goes;
    - [load]: what [load_workbook] makes of the file that was written
      from a workbook: the workbook it returns, which need not be the
      one that was saved (the reader counts the rows anew and has only
      the cells that were written), or the exception it raises on a file
      that it cannot take;
    - [numbered], [convert] and [other_shape]: see
      [avoid_duplicate_name], [column_cell] and [DataFrame_from_dict]. *)
Record world : Type := World {
  connect_ex : list event → Z;
  shutdown : list event → option exn;
  post : list event → string → pydict → reply;
  save : list event → workbook → save_outcome;
  load : list event → workbook → except workbook;
  numbered : list string → string → string;
  convert : list (option json) → nat → cell_value;
  other_shape : json → except dataframe
}.

(** ** The client object *)

(** The attributes of [SV_system] that the methods read, with the events
    and the report file.  An attribute that [__init__] has not yet set is
    [None]. *)
Record state : Type := State {
  IP : string;
  port : string;
  base_url : string;
  username : string;
  password : string;
  master_file : string;
  token_id : option json;
  user_role : option string;
  first_run : option bool;
  trace : list event;
  disk : file
}.

Definition set_token_id (v : json) (st : state) : state :=
  State (IP st) (port st) (base_url st) (username st) (password st)
    (master_file st) (Some v) (user_role st) (first_run st) (trace st) (disk st).
Definition set_user_role (v : string) (st : state) : state :=
  State (IP st) (port st) (base_url st) (username st) (password st)
    (master_file st) (token_id st) (Some v) (first_run st) (trace st) (disk st).
Definition set_first_run (v : bool) (st : state) : state :=
  State (IP st) (port st) (base_url st) (username st) (password st)
    (master_file st) (token_id st) (user_role st) (Some v) (trace st) (disk st).
Definition record_event (e : event) (st : state) : state :=
  State (IP st) (port st) (base_url st) (username st) (password st)
    (master_file st) (token_id st) (user_role st) (first_run st)
    (trace st ++ [e]) (disk st).
Definition set_disk (f : file) (st : state) : state :=
  State (IP st) (port st) (base_url st) (username st) (password st)
    (master_file st) (token_id st) (user_role st) (first_run st) (trace st) f.

(** A method: from the state to how the call ends and the state then. *)
Definition M (A : Type) : Type := state → result A * state.

#[global] Instance M_ret : MRet M := λ A a st, (Ret a, st).
#[global] Instance M_bind : MBind M := λ A B f m st,
  match m st with
  | (Ret a, st') => f a st'
  | (Exit c, st') => (Exit c, st')
  | (Raise e, st') => (Raise e, st')
  end.

Definition sys_exit {A} (code : Z) : M A := λ st, (Exit code, st).
Definition raise {A} (e : exn) : M A := λ st, (Raise e, st).
Definition lift {A} (r : except A) : M A := λ st,
  match r with
  | Ok a => (Ret a, st)
  | Err e => (Raise e, st)
  end.
Definition read {A} (f : state → A) : M A := λ st, (Ret (f st), st).
Definition update (f : state → state) : M unit := λ st, (Ret tt, f st).

(** Reading an attribute; an [AttributeError] when it is not set. *)
Definition attribute {A} (f : state → option A) : M A := λ st,
  match f st with
  | Some a => (Ret a, st)
  | None => (Raise AttributeError, st)
  end.

(** [for x in l: body(x)] *)
Fixpoint for_ {A} (l : list A) (body : A → M unit) : M unit :=
  match l with
  | [] => mret tt
  | x :: l' => body x;; for_ l' body
  end.

(** [s.startswith(p)] *)
Definition startswith (s p : string) : bool := String.prefix p s.

(** [x in l] on strings *)
Definition py_in (x : string) (l : list string) : bool :=
  existsb (String.eqb x) l.

(** [self._report_commands] *)
Definition report_commands : list string :=
  [ "lssystem"; "lsnodecanister"; "lssystemstats"; "lsnodestats"; "lsvdisk";
    "lshost"; "lshostcluster"; "lshostvdiskmap"; "lshostclustervolumemap";
    "lsvdiskaccess"; "lsvdiskcopy"; "lsportfc"; "lsfcconsistgrp"; "lsiogrp";
    "lsmdiskgrp"; "lssystemip"; "lspartnership"; "lseventlog" ].

(** The dict literal of [__format_lssystem_to_excel]: column name and the
    field it is read from, in the order of the source.  The two lines
    that are commented out there are not in it. *)
Definition summary_columns : list (string * string) :=
  [ ("Product name", "product_name");
    ("Product model", "name");
    ("Serial", "id");
    ("Code level", "code_level");
    ("Console IP", "console_IP");
    ("Contact organization", "email_organization");
    ("Contact name", "email_contact");
    ("Contact email", "email_reply");
    ("Contact phone", "email_contact_primary");
    ("Auth service", "auth_service_configured");
    ("Auth service type", "auth_service_type");
    ("Callhome", "enhanced_callhome");
    ("Callhome censor", "censor_callhome");
    ("Copy rate", "relationship_bandwidth_limit");
    ("Local raw capacity", "total_drive_raw_capacity");
    ("Physical total", "physical_capacity");
    ("Physical free", "physical_free_capacity");
    ("Easy tier", "easy_tier_acceleration");
    ("Compression", "compression_active");
    ("Compressed virtual", "compression_virtual_capacity");
    ("Compressed capacity", "compression_compressed_capacity");
    ("Uncompressed capacity", "compression_uncompressed_capacity");
    ("Deduplication savings", "deduplication_capacity_saving");
    ("Cache prefetch", "cache_prefetch") ].

(** The body of the loop over [lssystem['tiers']]. *)
Definition add_tier (row : pydict) (tier : json) : except pydict :=
  name ← subscript tier "tier";
  tier_key_total ← concat_str name "_total";
  name' ← subscript tier "tier";
  tier_key_free ← concat_str name' "_free";
  capacity ← subscript tier "tier_capacity";
  let row' := dict_update tier_key_total capacity row in
  free ← subscript tier "tier_free_capacity";
  Ok (dict_update tier_key_free free row').

(** One entry of the dict literal: the column [cf.1] with the field
    [cf.2] of the answer. *)
Definition add_column (lssystem : json) (d : pydict) (cf : string * string)
    : except pydict :=
  v ← subscript lssystem cf.2;
  Ok (dict_update cf.1 v d).

(** [__format_lssystem_to_excel], from the decoded answer on. *)
Definition lssystem_row (lssystem : json) : except pydict :=
  row ← for_each (add_column lssystem) summary_columns [];
  tiers ← subscript lssystem "tiers";
  items ← iterate tiers;
  for_each add_tier items row.

(** [current_user[1]["role"]] in [__get_user_role], and its use in the log
    message that follows. *)
Definition role_of (current_user : json) : except string :=
  entry ← subscript_int current_user 1;
  current_user_role ← subscript entry "role";
  match current_user_role with
  | JStr role => Ok role
  | _ => Err TypeError
  end.

Section Methods.

Context (w : world).

(** [__check_connection].  The socket is shut down and closed before the
    error indicator is looked at. *)
Definition check_connection : M unit :=
  host ← read IP;
  p ← read port;
  tr ← read trace;
  let open_port := connect_ex w tr in
  update (record_event (Connect host p));;
  tr' ← read trace;
  match shutdown w tr' with
  | Some e => raise e
  | None => if bool_decide (open_port ≠ 0) then sys_exit 6 else mret tt
  end.

(** [requests.post(url, headers=headers, verify=False)] *)
Definition requests_post (url : string) (headers : pydict) : M (Z * option json) :=
  tr ← read trace;
  update (record_event (Post url headers));;
  match post w tr url headers with
  | Response status_code body => mret (status_code, body)
  | NoResponse e => raise e
  end.

(** [json.loads(r.text)] *)
Definition json_loads (body : option json) : M json :=
  match body with
  | Some j => mret j
  | None => raise ValueError
  end.

(** [__get_token] *)
Definition get_token : M json :=
  check_connection;;
  user ← read username;
  pass ← read password;
  base ← read base_url;
  let token_headers :=
    [ ("X-Auth-Username", JStr user); ("X-Auth-Password", JStr pass);
      ("charset", JStr "utf-8") ] in
  let auth_url := base +:+ "auth" in
  '(status_code, body) ← requests_post auth_url token_headers;
  if status_code =? 200 then
    token_d ← json_loads body;
    lift (subscript token_d "token")
  else sys_exit 4.

Definition CopyOperator_roles : list string :=
  ["Administrator"; "SecurityAdmin"; "CopyOperator"; "SecurityAdmin"].
Definition Admin_roles : list string :=
  ["Administrator"; "SecurityAdmin"; "SecurityAdmin"].

(** [__check_user_rights] *)
Definition check_user_rights (command : string) : M bool :=
  if startswith command "ls" then mret true
  else if startswith command "start" || startswith command "stop"
          || startswith command "prestart" || startswith command "prestop"
  then
    role ← attribute user_role;
    if py_in role CopyOperator_roles then mret true else sys_exit 5
  else if startswith command "add" || startswith command "ch"
          || String.eqb command "expandvdisksize" || startswith command "mk"
          || String.eqb command "movevdisk" || startswith command "rm"
  then
    role ← attribute user_role;
    if py_in role Admin_roles then mret true else sys_exit 5
  else mret false.

(** [run_command] *)
Definition run_command (command : string) : M json :=
  check_connection;;
  has_right ← check_user_rights command;
  token ← attribute token_id;
  base ← read base_url;
  let command_headers := [("X-Auth-Token", token)] in
  let command_url := base +:+ command in
  '(status_code, body) ← requests_post command_url command_headers;
  if status_code =? 200 then json_loads body
  else if has_right : bool then sys_exit 3
  else sys_exit 3.

(** [__get_user_role].  The role is concatenated into a log message before
    it is returned, which only a string allows. *)
Definition get_user_role : M string :=
  current_user ← run_command "lscurrentuser";
  lift (role_of current_user).

(** [__init__], from [self.token_id = ...] on.  The attributes before it
    are those of [new_client] below. *)
Definition init : M unit :=
  token ← get_token;
  update (set_token_id token);;
  role ← get_user_role;
  update (set_user_role role);;
  update (set_first_run true).

(** [__format_lssystem_to_excel]: the list with the one row. *)
Definition format_lssystem_to_excel : M json :=
  lssystem ← run_command "lssystem";
  row ← lift (lssystem_row lssystem);
  mret (JArr [JObj row]).

(** [load_workbook(self.master_file)] *)
Definition load_workbook : M workbook :=
  path ← read master_file;
  tr ← read trace;
  update (record_event (Load path));;
  f ← read disk;
  match f with
  | XLSX wb => lift (load w tr wb)
  | NoFile => raise FileNotFoundError
  | Damaged => raise BadZipFile
  end.

(** [__save_excel].  After a save that has returned the file is the one
    written from [wb]. *)
Definition save_excel (wb : workbook) : M unit :=
  path ← read master_file;
  tr ← read trace;
  update (record_event (Save path));;
  match save w tr wb with
  | Saved => update (set_disk (XLSX wb))
  | Refused => sys_exit 2
  | Torn => update (set_disk Damaged);; sys_exit 2
  end.

(** The start of [__parse_command_to_excel]: the workbook, and where in it
    the sheet [ws] of this command is. *)
Definition open_sheet (command : string) : M (workbook * nat) :=
  first ← attribute first_run;
  if first : bool then
    ws ← lift (set_title (numbered w) (sheetnames Workbook) command
                 (new_sheet "Sheet"));
    update (set_first_run false);;
    mret ([ws], O)
  else
    wb ← load_workbook;
    wb' ← lift (create_sheet (numbered w) command wb);
    match sheet_index command wb' with
    | Some i => mret (wb', i)
    | None => raise (KeyError command)
    end.

(** The rows that go into the sheet. *)
Definition gather (command : string) : M (list (list cell_value)) :=
  cmd_list ← (if String.eqb command "lssystem" then format_lssystem_to_excel
              else run_command command);
  df ← lift (DataFrame_from_dict (convert w) (other_shape w) cmd_list);
  mret (dataframe_to_rows df).

(** [__parse_command_to_excel].  [ws] is a sheet of [wb]: what is written
    to it is in the workbook that is saved. *)
Definition parse_command_to_excel (command : string) : M unit :=
  '(wb, i) ← open_sheet command;
  rows ← gather command;
  ws ← lift (match wb !! i with Some ws => Ok ws | None => Err IndexError end);
  ws' ← lift (append_rows rows ws);
  ws'' ← lift (format_sheet ws');
  save_excel (<[i := ws'']> wb).

(** [generate_excel_report] *)
Definition generate_excel_report : M unit :=
  for_ report_commands parse_command_to_excel.

End Methods.

(** The object before [__get_token] is called: port and URL as in
    [__init__], the three later attributes not yet set, nothing sent and
    no report file. *)
Definition new_client (ip user pass output_dir timestamp : string) : state :=
  State ip "7443" ("https://" +:+ ip +:+ ":" +:+ "7443" +:+ "/rest/") user pass
    (output_dir +:+ "SVCheck_" +:+ ip +:+ "_" +:+ timestamp +:+ ".xlsx")
    None None None [] NoFile.

(** ** The host *)

(** Before [__init__] asks for the token it reads the clock, names its two
    files after the array and the time, and has [__set_logger_up] make the
    output directory and set the logging up.  What the clock and the file
    system answer is collected in a record [host], as [world] does for
    the network.  The messages that the logger writes, to the log file
    and to the console, are not modelled. *)

(** A [datetime.datetime], to the second. *)
Record datetime : Type := DateTime {
  year : Z;
  month : Z;
  day : Z;
  hour : Z;
  minute : Z;
  second : Z
}.

(** The fields of a [datetime], with the years that [%Y] writes with four
    digits on every platform. *)
Definition valid_datetime (d : datetime) : Prop :=
  1000 ≤ year d ≤ 9999 ∧ 1 ≤ month d ≤ 12 ∧ 1 ≤ day d ≤ 31 ∧
  0 ≤ hour d ≤ 23 ∧ 0 ≤ minute d ≤ 59 ∧ 0 ≤ second d ≤ 59.

Definition digit (n : Z) : ascii := ascii_of_nat (Z.to_nat (48 + n mod 10)).

(** The last [width] decimal digits of [n], in front of [rest]: a field of
    [strftime], padded with zeros. *)
Fixpoint zero_padded (width : nat) (n : Z) (rest : string) : string :=
  match width with
  | O => rest
  | S width' => zero_padded width' (n / 10) (String (digit n) rest)
  end.

(** [d.strftime('%Y-%m-%d_%H-%M-%S')] *)
Definition strftime (d : datetime) : string :=
  zero_padded 4 (year d) (String "-"
    (zero_padded 2 (month d) (String "-"
      (zero_padded 2 (day d) (String "_"
        (zero_padded 2 (hour d) (String "-"
          (zero_padded 2 (minute d) (String "-"
            (zero_padded 2 (second d) "")))))))))).

(** What the host answers.
    - [now]: the clock, at its first reading (0), its second (1), ...;
    - [isdir]: [os.path.isdir];
    - [makedirs]: the exception of [os.makedirs], if it raises one;
    - [basicConfig]: the exception of [logging.basicConfig], which opens
      the log file unless the logging is set up already, if it raises
      one. *)
Record host : Type := Host {
  now : nat → datetime;
  isdir : string → bool;
  makedirs : string → option exn;
  basicConfig : string → option exn
}.

Inductive level : Type :=
  | DEBUG
  | INFO.

(** The logging that [__set_logger_up] sets up: the name of the client's
    logger and the level of the console handler that it adds. *)
Record logger : Type := Logger {
  logger_name : string;
  console_level : level
}.

(** [self.log_file] *)
Definition log_file (ip output_dir timestamp : string) : string :=
  output_dir +:+ "SVCheck_" +:+ ip +:+ "_" +:+ timestamp +:+ ".log".

(** [__add_timestamp]: the clock is read again. *)
Definition add_timestamp (h : host) (ip : string) : string :=
  let time_now := strftime (now h 1) in
  ip +:+ "_" +:+ time_now.

(** [__create_output_dir], with the message that [sys.exit] is given,
    if it is given one: [sys.exit] with a message prints the message and
    ends the process with status 1.  The method returns [True] when it
    has made the directory and [None] when the directory was there. *)
Definition create_output_dir (h : host) (ip output_dir : string)
    : result (option bool) * option string :=
  if negb (isdir h output_dir) then
    match makedirs h output_dir with
    | None => (Ret (Some true), None)
    | Some _ =>
        (Exit 1, Some (add_timestamp h ip +:+ ": Cannot create " +:+ output_dir))
    end
  else (Ret None, None).

(** [__set_logger_up] *)
Definition set_logger_up (h : host) (ip output_dir : string) (verbose : bool)
    (timestamp : string) : result logger * option string :=
  match create_output_dir h ip output_dir with
  | (Ret _, message) =>
      let file := log_file ip output_dir timestamp in
      match basicConfig h file with
      | None => (Ret (Logger ip (if verbose then DEBUG else INFO)), message)
      | Some e => (Raise e, message)
      end
  | (Exit code, message) => (Exit code, message)
  | (Raise e, message) => (Raise e, message)
  end.

(** [SV_system(IP, username, password, output_dir, verbose)]: the whole of
    [__init__].  It ends with the logger, the client and the message of
    [sys.exit]: the calls of [sys.exit] that come after the logging is set
    up have a code and no message. *)
Definition SV_system (w : world) (h : host) (ip user pass output_dir : string)
    (verbose : bool) : result logger * state * option string :=
  let timestamp := strftime (now h 0) in
  let self := new_client ip user pass output_dir timestamp in
  match set_logger_up h ip output_dir verbose timestamp with
  | (Ret SVC_log, message) =>
      match init w self with
      | (Ret _, self') => (Ret SVC_log, self', message)
      | (Exit code, self') => (Exit code, self', message)
      | (Raise e, self') => (Raise e, self', message)
      end
  | (Exit code, message) => (Exit code, self, message)
  | (Raise e, message) => (Raise e, self, message)
  end.

(** ** The vocabulary of the specification *)

(** The policy table of the authorization gate: the first line that
    matches decides. *)
Inductive category : Type :=
  | Read
  | Lifecycle
  | Mutate
  | Unclassified.

Definition classify (commandName : string) : category :=
  if startswith commandName "ls" then Read
  else if startswith commandName "start" || startswith commandName "stop"
          || startswith commandName "prestart" || startswith commandName "prestop"
  then Lifecycle
  else if startswith commandName "add" || startswith commandName "ch"
          || startswith commandName "mk" || startswith commandName "rm"
          || String.eqb commandName "expandvdisksize"
          || String.eqb commandName "movevdisk"
  then Mutate
  else Unclassified.

(** The requests that were sent to the API: the network calls of the
    executor proper.  The reachability probe is a [Connect]. *)
Definition is_request (e : event) : bool :=
  match e with Post _ _ => true | _ => false end.

Definition requests (tr : list event) : list event := List.filter is_request tr.

(** The keys that the system-summary transform reads: the fields of the
    dict literal and [tiers] in the answer, three keys in each tier
    entry. *)
Definition summary_fields : list string := summary_columns.*2 ++ ["tiers"].

Definition tier_fields : list string :=
  ["tier"; "tier_capacity"; "tier_free_capacity"].

(** The key [k] is in the dict [obj]; a value that is no dict has no
    key. *)
Definition has_key (obj : json) (k : string) : bool :=
  match obj with
  | JObj d => bool_decide (is_Some (dict_get k d))
  | _ => false
  end.

(** The tier entries of an answer: the items of its list [tiers]. *)
Definition tier_entries (lssystem : json) : list json :=
  match lssystem with
  | JObj d =>
      match dict_get "tiers" d with
      | Some (JArr entries) => entries
      | _ => []
      end
  | _ => []
  end.

(** One of the keys that are read is absent: from the answer, or from one
    of its tier entries. *)
Definition key_absent (lssystem : json) : Prop :=
  (∃ k, k ∈ summary_fields ∧ has_key lssystem k = false) ∨
  (∃ tier k, tier ∈ tier_entries lssystem ∧ k ∈ tier_fields ∧
     has_key tier k = false).

(** [dict(bindings)]: the dict that the bindings build, one after the
    other. *)
Definition dict_of (bindings : list (string * json)) : pydict :=
  foldl (λ d kv, dict_update kv.1 kv.2 d) [] bindings.

(** A tier as the claim reads it: its name and its two capacities, and
    the two columns it stands for. *)
Definition tier : Type := string * json * json.

Definition tier_columns (t : tier) : list (string * json) :=
  [(t.1.1 +:+ "_total", t.1.2); (t.1.1 +:+ "_free", t.2)].

(** The entry [entry] of the answer is the tier [t]. *)
Definition is_tier (entry : json) (t : tier) : Prop :=
  subscript entry "tier" = Ok (JStr t.1.1) ∧
  subscript entry "tier_capacity" = Ok t.1.2 ∧
  subscript entry "tier_free_capacity" = Ok t.2.

(** The fixed columns of an answer: each column of the dict literal with
    the value of its field. *)
Definition is_summary (lssystem : json) (fixed : pydict) : Prop :=
  Forall2 (λ (cf : string * string) (kv : string * json),
             kv.1 = cf.1 ∧ subscript lssystem cf.2 = Ok kv.2)
    summary_columns fixed.

(** The sheets of the report file: the names of the sheets that were
    written to it, in their order.  No file is no sheet; a damaged file
    has none that can be told. *)
Definition persisted (f : file) : option (list string) :=
  match f with
  | NoFile => Some []
  | XLSX wb => Some (sheetnames wb)
  | Damaged => None
  end.

(** The loop of [generate_excel_report], over any list of commands. *)
Definition report (w : world) (commands : list string) : M unit :=
  for_ commands (parse_command_to_excel w).

(** The events of one command that is processed: the file is loaded
    unless the command is the first of a run, the array is probed and
    asked, the file is saved. *)
Definition command_events (st : state) (token : json) (first : bool)
    (command : string) : list event :=
  (if first then [] else [Load (master_file st)]) ++
  [ Connect (IP st) (port st);
    Post (base_url st +:+ command) [("X-Auth-Token", token)];
    Save (master_file st) ].

Fixpoint report_events (st : state) (token : json) (first : bool)
    (commands : list string) : list event :=
  match commands with
  | [] => []
  | c :: commands' =>
      command_events st token first c ++ report_events st token false commands'
  end.

(** A reader that returns the sheets of a file under the titles they
    were written with. *)
Definition keeps_titles (w : world) : Prop :=
  ∀ tr wb wb', load w tr wb = Ok wb' → sheetnames wb' = sheetnames wb.

(** ** Predicates on methods and states *)

(** What a method leaves alone, and how it cannot end. *)
Definition preserves {A} (I : state → state → Prop) (m : M A) : Prop :=
  ∀ st r st', m st = (r, st') → I st st'.

Definition never_exits {A} (code : Z) (m : M A) : Prop :=
  ∀ st r st', m st = (r, st') → r ≠ Exit code.

(** The session: the token and the role. *)
Definition same_session (st st' : state) : Prop :=
  token_id st' = token_id st ∧ user_role st' = user_role st.

(** The part of the state that the report is kept in. *)
Definition same_report (st st' : state) : Prop :=
  disk st' = disk st ∧ first_run st' = first_run st.

(** Commands that can be sheet titles as they are: valid, not the title
    of the first sheet of a new workbook, and distinct whatever the case
    of their letters. *)
Definition titles_ok (commands : list string) : Prop :=
  Forall (λ c, valid_title c = true ∧ lower c ≠ "sheet") commands ∧
  NoDup (lower <$> commands).

(** The state after the commands [done] have been processed: the flag is
    down after the first, and the file has their sheets. *)
Definition progress (done : list string) (st : state) : Prop :=
  first_run st = Some (bool_decide (done = [])) ∧
  ((done = [] ∧ disk st = NoFile) ∨
   (done ≠ [] ∧ ∃ wb, disk st = XLSX wb ∧ sheetnames wb = done)).

(** [s] ends with [suffix]. *)
Fixpoint endswith (s suffix : string) : bool :=
  String.eqb s suffix
  || match s with
     | EmptyString => false
     | String _ s' => endswith s' suffix
     end.

(** ** Worksheets in the proofs *)

(** The cell that [ws.cell] makes where there is none. *)
Definition blank : cell := new_cell (Val JNull).

(** Painting: the same change to the cells at a list of places, in the
    order of the list.  The loops of the formatter are paintings, as long
    as no place is beyond the last row. *)
Definition paint (g : cell → cell) (ps : list (positive * positive))
    (ws : worksheet) : worksheet :=
  foldl (λ w '(r, c), put_cell r c g w) ws ps.

(** What the three loops make of a sheet when they come to their end. *)
Definition header_cells (ws : worksheet) : worksheet :=
  foldl
    (λ w the_col,
       put_cell 1 the_col (with_fill HEADER_FILL)
         (put_cell 1 the_col (with_font HEADER_FONT) w))
    ws (range (min_column ws) (Pos.succ (max_column ws)) 1).

Definition centered_cells (ws : worksheet) : worksheet :=
  foldl (λ w '(r, c), put_cell r c (with_alignment CENTER) w) ws (iter_rows ws).

Definition banded_cells (first : positive) (p : pattern_fill) (ws : worksheet)
    : worksheet :=
  foldl
    (λ w the_row,
       foldl (λ w' the_col, put_cell the_row the_col (with_fill p) w')
         w (range 1 (Pos.succ (max_column w)) 1))
    ws (range first (Pos.succ (max_row ws)) 2).

(** The places of some rows and some columns, row by row. *)
Definition grid (rows cols : list positive) : list (positive * positive) :=
  r ← rows; c ← cols; [(r, c)].

(** What the loops take their bounds from, and the places that leave it
    as it is. *)
Definition area (ws : worksheet) : positive * positive * positive :=
  (max_row ws, min_column ws, max_column ws).

Definition inside (a : positive * positive * positive)
    (p : positive * positive) : Prop :=
  (p.1 ≤ a.1.1 ∧ a.1.2 ≤ p.2 ≤ a.2)%positive.

(** [_current_row] is not behind the cells. *)
Definition well_formed (ws : worksheet) : Prop :=
  ∀ r c, is_Some (cells ws !! (r, c)) → (N.pos r ≤ current_row ws)%N.

(** Each used row has a cell in column A, as in the sheets that [append]
    makes. *)
Definition starts_left (ws : worksheet) : Prop :=
  ∀ r c, is_Some (cells ws !! (r, c)) → is_Some (cells ws !! (r, 1%positive)).

Definition header_style (x : cell) : Prop :=
  cell_font x = HEADER_FONT ∧ cell_fill x = HEADER_FILL.

(** [__format_sheet] after the widths: header, centering, banding. *)
Definition styled (ws : worksheet) : worksheet :=
  banded_cells 3 ODD_FILL
    (banded_cells 2 EVEN_FILL (centered_cells (header_cells ws))).

(** The [DimensionHolder] that the width loop fills. *)
Definition dimensions (cols : list positive)
    (dim_holder : gmap string column_dimension)
    : except (gmap string column_dimension) :=
  for_each
    (λ dh the_col, l ← get_column_letter the_col;
                   Ok (<[l := ColumnDimension the_col the_col 25]> dh))
    cols dim_holder.

(** Every cell is as [append] makes it: a value and no style. *)
Definition plain (ws : worksheet) : Prop :=
  ∀ q x, cells ws !! q = Some x → x = new_cell (value x).

(** What is at a place of a sheet: the value of the cell, and [None],
    the value of the cell that [ws.cell] makes, where there is none. *)
Definition value_at (ws : worksheet) (r c : positive) : cell_value :=
  match cells ws !! (r, c) with
  | Some x => value x
  | None => Val JNull
  end.

(** The font and the fill of a row of a formatted sheet: the header in
    row 1, then the two bands in turn. *)
Definition row_font (r : positive) : font :=
  if (r =? 1)%positive then HEADER_FONT else DEFAULT_FONT.

Definition row_fill (r : positive) : pattern_fill :=
  if (r =? 1)%positive then HEADER_FILL
  else if Z.even (Z.pos r) then EVEN_FILL else ODD_FILL.

(** The number that column letters stand for, [A] for 1: it tells the
    letters of different columns apart. *)
Fixpoint column_index_from (acc : Z) (letters : string) : Z :=
  match letters with
  | EmptyString => acc
  | String ch rest =>
      column_index_from (acc * 26 + (Z.of_nat (nat_of_ascii ch) - 64)) rest
  end.

Definition column_index (letters : string) : Z := column_index_from 0 letters.

(** ** Sample worlds *)

(** An array that answers every request: the token, the user with the
    role in the second entry, a system summary with two tiers, and two
    records for any other command. *)
Definition sample_user : json :=
  JArr [JObj [("name", JStr "monitor")]; JObj [("role", JStr "Monitor")]].

Definition sample_tiers : json :=
  JArr [ JObj [("tier", JStr "tier0_flash"); ("tier_capacity", JStr "10.00TB");
               ("tier_free_capacity", JStr "4.00TB")];
         JObj [("tier", JStr "tier1_enterprise"); ("tier_capacity", JStr "50.00TB");
               ("tier_free_capacity", JStr "20.00TB")] ].

Definition sample_lssystem : json :=
  JObj (((λ p : string * string, (p.2, JStr ("value of " +:+ p.2)))
           <$> summary_columns)
        ++ [("quorum_lease", JStr "short"); ("tiers", sample_tiers)]).

Definition sample_records : json :=
  JArr [ JObj [("id", JStr "0"); ("name", JStr "node1")];
         JObj [("id", JStr "1"); ("name", JStr "node2")] ].

Definition sample_answer (url : string) : reply :=
  if String.eqb url "https://array:7443/rest/auth"
  then Response 200 (Some (JObj [("token", JStr "38823f60")]))
  else if String.eqb url "https://array:7443/rest/lscurrentuser"
  then Response 200 (Some sample_user)
  else if String.eqb url "https://array:7443/rest/lssystem"
  then Response 200 (Some sample_lssystem)
  else Response 200 (Some sample_records).

(** The array is reached, every save succeeds, and a file is read as it
    was written. *)
Definition calm : world :=
  World (λ _, 0) (λ _, None) (λ _ url _, sample_answer url) (λ _ _, Saved)
    (λ _ wb, Ok wb) (λ _ value, value +:+ "1") (λ _ _, NaN)
    (λ _, Err ValueError).

Definition sample_client : state :=
  new_client "array" "monitor" "secret" "./output/" "2026-01-01_00-00-00".

(** The client of [calm] after [__init__], and a user that may only
    look. *)
Definition ready : state := (init calm sample_client).2.

Definition monitor : state := set_user_role "Monitor" sample_client.

(** The parts of [sample_lssystem], as the summary theorem names them. *)
Definition sample_fixed : pydict :=
  (λ p : string * string, (p.1, JStr ("value of " +:+ p.2))) <$> summary_columns.

Definition sample_tier_entries : list json :=
  match sample_tiers with JArr entries => entries | _ => [] end.

Definition sample_tier_list : list tier :=
  [ ("tier0_flash", JStr "10.00TB", JStr "4.00TB");
    ("tier1_enterprise", JStr "50.00TB", JStr "20.00TB") ].

(** A small sheet: a header and one row. *)
Definition small_rows : list (list cell_value) :=
  [ [Val (JStr "id"); Val (JStr "name")]; [Val (JStr "0"); Val (JStr "node1")] ].

Definition small_sheet : worksheet :=
  match append_rows small_rows (new_sheet "lsnode") with
  | Ok ws => ws
  | Err _ => new_sheet "lsnode"
  end.


(** A host that refuses the connection: [connect_ex] returns
    [ECONNREFUSED] (111), and [shutdown] on the socket, which is not
    connected, raises [OSError] ([ENOTCONN]). *)
Definition refusing : world :=
  World (λ _, 111) (λ _, Some OSError) (λ _ url _, sample_answer url)
    (λ _ _, Saved) (λ _ wb, Ok wb) (λ _ value, value +:+ "1") (λ _ _, NaN)
    (λ _, Err ValueError).

(** The array of [calm], and a disk on which the first save succeeds and
    the second one fails after the file has been opened for writing. *)
Definition tearing : world :=
  World (λ _, 0) (λ _, None) (λ _ url _, sample_answer url)
    (λ _ wb, if (List.length wb =? 1)%nat then Saved else Torn)
    (λ _ wb, Ok wb) (λ _ value, value +:+ "1") (λ _ _, NaN)
    (λ _, Err ValueError).

(** An answer to [lssystem] with the same tier name in two entries. *)
Definition twin_tiers : json :=
  JArr [ JObj [("tier", JStr "tier0_flash"); ("tier_capacity", JStr "10.00TB");
               ("tier_free_capacity", JStr "4.00TB")];
         JObj [("tier", JStr "tier0_flash"); ("tier_capacity", JStr "20.00TB");
               ("tier_free_capacity", JStr "8.00TB")] ].

Definition twin_lssystem : json :=
  JObj (((λ p : string * string, (p.2, JStr ("value of " +:+ p.2)))
           <$> summary_columns)
        ++ [("tiers", twin_tiers)]).


(** The array of [calm], but every command other than [lscurrentuser] and
    [lssystem] is answered with [body]. *)
Definition answering (body : json) : world :=
  World (λ _, 0) (λ _, None)
    (λ _ url _,
       if String.eqb url "https://array:7443/rest/auth"
          || String.eqb url "https://array:7443/rest/lscurrentuser"
          || String.eqb url "https://array:7443/rest/lssystem"
       then sample_answer url else Response 200 (Some body))
    (λ _ _, Saved) (λ _ wb, Ok wb) (λ _ value, value +:+ "1") (λ _ _, NaN)
    (λ _, Err ValueError).

(** A record with a list among its values. *)
Definition nested_record : pydict :=
  [("id", JStr "0"); ("ports", JArr [JStr "1"; JStr "2"])].

(** A host that does not answer: the connection times out ([connect_ex]
    gives [EAGAIN], 11), and [shutdown] on the socket raises nothing. *)
Definition unreachable : world :=
  World (λ _, 11) (λ _, None) (λ _ url _, sample_answer url)
    (λ _ _, Saved) (λ _ wb, Ok wb) (λ _ value, value +:+ "1") (λ _ _, NaN)
    (λ _, Err ValueError).

(** The client of [calm] after its first command, and the workbook it has
    saved. *)
Definition after_lssystem : state :=
  (parse_command_to_excel calm "lssystem" ready).2.

Definition lssystem_book : workbook :=
  match disk after_lssystem with
  | XLSX wb => wb
  | _ => []
  end.

(** A client whose flag is up where that file is: a second run for the
    same array in the same second. *)
Definition second_run : state := set_first_run true after_lssystem.

(** [small_sheet], formatted. *)
Definition formatted_small : worksheet :=
  match format_sheet small_sheet with
  | Ok ws => ws
  | Err _ => small_sheet
  end.

(** [sample_lssystem] as an array that has no field [quorum_lease] sends
    it. *)
Definition bare_lssystem : json :=
  JObj (((λ p : string * string, (p.2, JStr ("value of " +:+ p.2)))
           <$> summary_columns)
        ++ [("tiers", sample_tiers)]).

(** The time of [sample_client] and the second after it; a host on which
    the output directory is not there and cannot be made. *)
Definition sample_now : datetime := DateTime 2026 1 1 0 0 0.
Definition a_second_later : datetime := DateTime 2026 1 1 0 0 1.


(** A host on which the output directory is there and the log can be
    opened. *)
Definition obliging : host :=
  Host (λ _, sample_now) (λ _, true) (λ _, None) (λ _, None).

(** * Properties *)

(** ** The two monads *)

Ltac unfold_M :=
  unfold mbind, M_bind, mret, M_ret, read, update, attribute, sys_exit,
    raise, lift in *.

Lemma bind_Ok {A B} (a : A) (f : A → except B) : Ok a ≫= f = f a.
Proof. done. Qed.

Lemma bind_Err {A B} e (f : A → except B) : Err e ≫= f = Err e.
Proof. done. Qed.

Lemma M_bind_run {A B} (m : M A) (f : A → M B) st :
  (m ≫= f) st =
  match m st with
  | (Ret a, st') => f a st'
  | (Exit c, st') => (Exit c, st')
  | (Raise e, st') => (Raise e, st')
  end.
Proof. done. Qed.

(** ** Command names *)

Lemma startswith_cons s a p :
  startswith s (String a p) = true →
  ∃ s', s = String a s' ∧ startswith s' p = true.
Proof.
  unfold startswith. destruct s as [|b s]; simpl; [done|].
  destruct (ascii_dec a b) as [->|]; [|done]. eauto.
Qed.

(** Takes a command apart along the prefix that [H] says it has. *)
Ltac peel H :=
  repeat (apply startswith_cons in H as (? & -> & H));
  match type of H with startswith ?x _ = _ => destruct x end.

(** The lines of the table do not overlap: a command with a Mutate
    pattern is not caught by an earlier line. *)
Lemma classify_mutate c :
  classify c = Mutate ↔
  startswith c "add" || startswith c "ch" || startswith c "mk"
  || startswith c "rm" || String.eqb c "expandvdisksize"
  || String.eqb c "movevdisk" = true.
Proof.
  unfold classify. split.
  - repeat case_match; done.
  - intros H. repeat (apply orb_prop in H as [H|H]);
      try (by peel H); by apply String.eqb_eq in H as ->.
Qed.

Lemma requests_app tr tr' : requests (tr ++ tr') = requests tr ++ requests tr'.
Proof. apply List.filter_app. Qed.

Lemma py_in_Admin_roles role :
  py_in role Admin_roles = true ↔ role = "Administrator" ∨ role = "SecurityAdmin".
Proof.
  unfold py_in, Admin_roles. simpl. rewrite !orb_true_iff, !String.eqb_eq.
  intuition congruence.
Qed.

(** ** The probe and the role check *)

Section Authorization.

Context (w : world).

(** The probe records one [Connect], touches nothing else, and ends in
    one of three ways. *)
Lemma check_connection_spec st r st' :
  check_connection w st = (r, st') →
  st' = record_event (Connect (IP st) (port st)) st ∧
  (r = Ret tt ∨ r = Exit 6 ∨ ∃ e, r = Raise e).
Proof.
  unfold check_connection. unfold_M. simpl.
  destruct (shutdown w _); [|case_bool_decide]; intros [= <- <-]; eauto 10.
Qed.

Lemma check_user_rights_ls c st :
  startswith c "ls" = true → check_user_rights c st = (Ret true, st).
Proof. intros H. unfold check_user_rights. by rewrite H. Qed.

Lemma check_user_rights_mutate c st role :
  classify c = Mutate → user_role st = Some role →
  check_user_rights c st =
    (if py_in role Admin_roles then Ret true else Exit 5, st).
Proof.
  intros Hc Hr. unfold classify in Hc. unfold check_user_rights.
  destruct (startswith c "ls"); [done|].
  destruct (_ || _ || _ || startswith c "prestop"); [done|].
  assert (startswith c "add" || startswith c "ch"
          || (c =? "expandvdisksize")%string || startswith c "mk"
          || (c =? "movevdisk")%string || startswith c "rm" = true) as ->.
  { destruct (startswith c "add"), (startswith c "ch"), (startswith c "mk"),
      (startswith c "rm"), (c =? "expandvdisksize")%string,
      (c =? "movevdisk")%string; done. }
  unfold_M. rewrite Hr. by destruct (py_in role Admin_roles).
Qed.

(** C7.  For every command name that begins with [ls] the role check
    returns [True], whatever the role is, set or not, and without touching
    the state; so [run_command] never leaves with code 5 for such a
    command.  In [run_command] the check comes after the probe and before
    the request, for every command: the call is the probe, then the check,
    then what is done with the answer of the check.  When the probe does
    not pass, the call ends there and nothing is sent.  When it passes, the check is made in the state
    [st1] that the probe leaves, in which the requests are those that
    were sent before the call: the probe's [Connect] is the only event
    between the call and the check.  The one request of the command is
    sent after it, from that state on, and the call ends as its answer
    has it. *)
Theorem ls_always_authorized (command : string) (st : state) :
  startswith command "ls" = true →
  check_user_rights command st = (Ret true, st) ∧
  (∀ r st', run_command w command st = (r, st') → r ≠ Exit 5) ∧
  (∃ send : string → bool → M json, ∀ c st0,
     run_command w c st0 =
       (check_connection w;;
        has_right ← check_user_rights c;
        send c has_right) st0) ∧
  (∀ r st1, check_connection w st = (r, st1) → r ≠ Ret tt →
     requests (trace st1) = requests (trace st) ∧
     ∃ r', run_command w command st = (r', st1) ∧ ∀ a, r' ≠ Ret a) ∧
  ∀ st1, check_connection w st = (Ret tt, st1) →
    requests (trace st1) = requests (trace st) ∧
    check_user_rights command st1 = (Ret true, st1) ∧
    (token_id st = None →
       run_command w command st = (Raise AttributeError, st1)) ∧
    ∀ token, token_id st = Some token →
      let url := base_url st +:+ command in
      let headers := [("X-Auth-Token", token)] in
      run_command w command st =
        (match post w (trace st1) url headers with
         | Response status_code body =>
             if status_code =? 200 then
               match body with
               | Some j => Ret j
               | None => Raise ValueError
               end
             else Exit 3
         | NoResponse e => Raise e
         end, record_event (Post url headers) st1).
Proof.
  intros Hls.
  assert (∀ st1, check_connection w st = (Ret tt, st1) →
    (token_id st = None →
       run_command w command st = (Raise AttributeError, st1)) ∧
    ∀ token, token_id st = Some token →
      run_command w command st =
        (match post w (trace st1) (base_url st +:+ command)
                 [("X-Auth-Token", token)] with
         | Response status_code body =>
             if status_code =? 200 then
               match body with
               | Some j => Ret j
               | None => Raise ValueError
               end
             else Exit 3
         | NoResponse e => Raise e
         end,
         record_event (Post (base_url st +:+ command) [("X-Auth-Token", token)])
           st1)) as Hsent.
  { intros st1 Hc. pose proof Hc as [-> _]%check_connection_spec. split.
    - intros Ht. unfold run_command.
      rewrite M_bind_run, Hc, M_bind_run, check_user_rights_ls by done.
      unfold_M. simpl. by rewrite Ht.
    - intros token Ht. unfold run_command.
      rewrite M_bind_run, Hc, M_bind_run, check_user_rights_ls by done.
      unfold requests_post, json_loads. unfold_M. simpl. rewrite Ht.
      unfold record_event. simpl.
      destruct (post w _ _ _) as [s [j|]|e];
        [by destruct (s =? 200)..|done]. }
  assert (∀ st1, requests (trace (record_event (Connect (IP st) (port st)) st1))
                 = requests (trace st1)) as Hreq.
  { intros st1. simpl. rewrite requests_app. simpl. by rewrite app_nil_r. }
  split_and!.
  - by apply check_user_rights_ls.
  - intros r st' Hrun ->.
    destruct (check_connection w st) as [r1 st1] eqn:Hc.
    pose proof Hc as [-> [->|[->|[e ->]]]]%check_connection_spec.
    + destruct (Hsent _ eq_refl) as [Hnone Hsome].
      destruct (token_id st) as [token|] eqn:Ht.
      * rewrite (Hsome token eq_refl) in Hrun.
        destruct (post w _ _ _) as [s [j|]|e];
          [destruct (s =? 200)..|]; done.
      * by rewrite Hnone in Hrun.
    + unfold run_command in Hrun. by rewrite M_bind_run, Hc in Hrun.
    + unfold run_command in Hrun. by rewrite M_bind_run, Hc in Hrun.
  - exists (λ c has_right,
      token ← attribute token_id;
      base ← read base_url;
      '(status_code, body) ← requests_post w (base +:+ c) [("X-Auth-Token", token)];
      if status_code =? 200 then json_loads body
      else if has_right : bool then sys_exit 3
      else sys_exit 3).
    done.
  - intros r st1 Hc Hr.
    pose proof Hc as [-> [->|[->|[e ->]]]]%check_connection_spec; [done|..].
    + split; [apply Hreq|]. exists (Exit 6). split; [|done].
      unfold run_command. by rewrite M_bind_run, Hc.
    + split; [apply Hreq|]. exists (Raise e). split; [|done].
      unfold run_command. by rewrite M_bind_run, Hc.
  - intros st1 Hc. destruct (Hsent _ Hc) as [Hnone Hsome].
    pose proof Hc as [-> _]%check_connection_spec.
    split_and!; [apply Hreq|by apply check_user_rights_ls|done|done].
Qed.

(** C2.  For a command of category Mutate the check returns [True] exactly
    for the roles Administrator and SecurityAdmin.  With any other role it
    leaves with code 5, and [run_command] sends no request for the
    command: it ends without a result, with the requests that were there
    before, and with code 5 once the probe has passed. *)
Theorem mutate_needs_admin (command role : string) (st : state) :
  classify command = Mutate → user_role st = Some role →
  (check_user_rights command st = (Ret true, st) ↔
     role = "Administrator" ∨ role = "SecurityAdmin") ∧
  (role ≠ "Administrator" → role ≠ "SecurityAdmin" →
     check_user_rights command st = (Exit 5, st) ∧
     ∀ r st', run_command w command st = (r, st') →
       requests (trace st') = requests (trace st) ∧
       (∀ st1, check_connection w st = (Ret tt, st1) → r = Exit 5 ∧ st' = st1) ∧
       ∀ a, r ≠ Ret a).
Proof.
  intros Hc Hr.
  pose proof (check_user_rights_mutate _ _ _ Hc Hr) as Hcheck.
  split.
  - rewrite Hcheck, <- py_in_Admin_roles.
    destruct (py_in role Admin_roles); split; (done || congruence).
  - intros H1 H2.
    assert (py_in role Admin_roles = false) as Hno.
    { apply not_true_is_false. rewrite py_in_Admin_roles. tauto. }
    split; [by rewrite Hcheck, Hno|].
    intros r st'. unfold run_command. unfold mbind at 1, M_bind at 1.
    destruct (check_connection w st) as [r1 st1] eqn:E.
    apply check_connection_spec in E as (-> & Hr1).
    assert (requests (trace (record_event (Connect (IP st) (port st)) st))
            = requests (trace st)) as Hreq.
    { simpl. rewrite requests_app. simpl. by rewrite app_nil_r. }
    destruct Hr1 as [->|[->|[e ->]]].
    + unfold mbind at 1, M_bind at 1.
      rewrite (check_user_rights_mutate _ _ role), Hno by done.
      intros [= <- <-]. split_and!; try done. by intros ? [= <-].
    + intros [= <- <-]. split_and!; done.
    + intros [= <- <-]. split_and!; done.
Qed.

End Authorization.

(** ** Rules for the methods *)

Section Rules.

Context (I : state → state → Prop) `{!Reflexive I, !Transitive I}.

Lemma preserves_bind {A B} (m : M A) (f : A → M B) :
  preserves I m → (∀ a, preserves I (f a)) → preserves I (m ≫= f).
Proof.
  intros Hm Hf st r st'. unfold mbind, M_bind.
  destruct (m st) as [[a|c|e] st1] eqn:E; [|intros [= <- <-]; eauto..].
  intros H. transitivity st1; [eauto | by eapply Hf].
Qed.

Lemma preserves_ret {A} (a : A) : preserves I (mret a).
Proof. by intros st r st' [= <- <-]. Qed.

Lemma preserves_read {A} (f : state → A) : preserves I (read f).
Proof. by intros st r st' [= <- <-]. Qed.

Lemma preserves_attribute {A} (f : state → option A) : preserves I (attribute f).
Proof. intros st r st'. unfold attribute. by destruct (f st); intros [= <- <-]. Qed.

Lemma preserves_lift {A} (x : except A) : preserves I (lift x).
Proof. intros st r st'. unfold lift. by destruct x; intros [= <- <-]. Qed.

Lemma preserves_sys_exit {A} c : preserves I (sys_exit (A:=A) c).
Proof. by intros st r st' [= <- <-]. Qed.

Lemma preserves_raise {A} e : preserves I (raise (A:=A) e).
Proof. by intros st r st' [= <- <-]. Qed.

Lemma preserves_update f : (∀ st, I st (f st)) → preserves I (update f).
Proof. intros H st r st' [= <- <-]. apply H. Qed.


End Rules.

Section Exits.

Context (code : Z).

Lemma never_exits_bind {A B} (m : M A) (f : A → M B) :
  never_exits code m → (∀ a, never_exits code (f a)) →
  never_exits code (m ≫= f).
Proof.
  intros Hm Hf st r st'. unfold mbind, M_bind.
  destruct (m st) as [[a|c|e] st1] eqn:E.
  - by apply Hf.
  - intros [= <- <-] [= ->]. by eapply Hm.
  - by intros [= <- <-].
Qed.

Lemma never_exits_ret {A} (a : A) : never_exits code (mret a).
Proof. by intros st r st' [= <- <-]. Qed.

Lemma never_exits_read {A} (f : state → A) : never_exits code (read f).
Proof. by intros st r st' [= <- <-]. Qed.

Lemma never_exits_update f : never_exits code (update f).
Proof. by intros st r st' [= <- <-]. Qed.

Lemma never_exits_attribute {A} (f : state → option A) :
  never_exits code (attribute f).
Proof. intros st r st'. unfold attribute. by destruct (f st); intros [= <- <-]. Qed.

Lemma never_exits_lift {A} (x : except A) : never_exits code (lift x).
Proof. intros st r st'. unfold lift. by destruct x; intros [= <- <-]. Qed.

Lemma never_exits_raise {A} e : never_exits code (raise (A:=A) e).
Proof. by intros st r st' [= <- <-]. Qed.

Lemma never_exits_sys_exit {A} c : c ≠ code → never_exits code (sys_exit (A:=A) c).
Proof. intros H st r st' [= <- <-]. congruence. Qed.

Lemma never_exits_for_ {A} (l : list A) body :
  (∀ x, x ∈ l → never_exits code (body x)) → never_exits code (for_ l body).
Proof.
  induction l as [|x l IH]; simpl; intros H.
  - apply never_exits_ret.
  - apply never_exits_bind; [apply H; left|intros _; apply IH].
    intros y Hy. apply H. by right.
Qed.

End Exits.

(** Walks through a method along its binds. *)
Ltac step_preserves :=
  repeat first
    [ solve [eauto]
    | apply preserves_ret; apply _
    | apply preserves_read; apply _
    | apply preserves_attribute; apply _
    | apply preserves_lift; apply _
    | apply preserves_sys_exit; apply _
    | apply preserves_raise; apply _
    | apply preserves_update; intros ?; hnf; simpl; done
    | apply preserves_bind; [apply _| |intros ?]
    | match goal with
      | |- preserves _ (match ?x with _ => _ end) => destruct x
      | |- preserves _ (if ?x then _ else _) => destruct x
      | |- preserves _ (let '(_, _) := ?x in _) => destruct x
      end
    ].

Ltac step_never_exits :=
  repeat first
    [ solve [eauto]
    | apply never_exits_ret | apply never_exits_read | apply never_exits_attribute
    | apply never_exits_lift | apply never_exits_raise | apply never_exits_update
    | apply never_exits_sys_exit; done
    | apply never_exits_bind; [|intros ?]
    | match goal with
      | |- never_exits _ (match ?x with _ => _ end) => destruct x
      | |- never_exits _ (if ?x then _ else _) => destruct x
      | |- never_exits _ (let '(_, _) := ?x in _) => destruct x
      end
    ].

#[global] Instance same_session_refl : Reflexive same_session.
Proof. by intros st. Qed.
#[global] Instance same_session_trans : Transitive same_session.
Proof. intros a b c [??] [??]. split; congruence. Qed.


Section MethodFacts.
Context (w : world).






End MethodFacts.

(** ** Exit codes *)

Section ExitCodes.

Context (w : world).

Lemma check_connection_exits code :
  code ≠ 6 → never_exits code (check_connection w).
Proof. intros. unfold check_connection. step_never_exits. Qed.

Lemma check_user_rights_exits code c :
  code ≠ 5 → never_exits code (check_user_rights c).
Proof. intros. unfold check_user_rights. step_never_exits. Qed.

Lemma check_user_rights_ls_exits code c :
  startswith c "ls" = true → never_exits code (check_user_rights c).
Proof.
  intros H st r st'. rewrite check_user_rights_ls by done. by intros [= <- <-].
Qed.

(** [run_command] leaves with 6, 5 or 3 only, and never with 5 for a
    command that begins with [ls]. *)
Lemma run_command_exits code c :
  code ≠ 6 → code ≠ 3 → code ≠ 5 ∨ startswith c "ls" = true →
  never_exits code (run_command w c).
Proof.
  intros H6 H3 H5.
  pose proof (check_connection_exits code H6).
  assert (never_exits code (check_user_rights c)).
  { destruct H5; [by apply check_user_rights_exits
                 |by apply check_user_rights_ls_exits]. }
  unfold run_command, requests_post, json_loads. step_never_exits.
Qed.

Lemma parse_command_to_excel_exits code c :
  code ≠ 6 → code ≠ 3 → code ≠ 2 → code ≠ 5 ∨ startswith c "ls" = true →
  never_exits code (parse_command_to_excel w c).
Proof.
  intros H6 H3 H2 H5.
  pose proof (run_command_exits code c H6 H3 H5).
  assert (never_exits code (run_command w "lssystem")).
  { apply run_command_exits; auto. }
  unfold parse_command_to_excel, open_sheet, gather, load_workbook,
    save_excel, format_lssystem_to_excel.
  step_never_exits.
Qed.

Lemma report_commands_ls : Forall (λ c, startswith c "ls" = true) report_commands.
Proof. repeat constructor. Qed.

(** C9.  Every command of the report list begins with [ls]; so the role
    check returns [True] for each of them in every state, whatever the
    role, and [generate_excel_report] never leaves with code 5. *)
Theorem report_never_unauthorized :
  Forall (λ c, startswith c "ls" = true) report_commands ∧
  (∀ c st, c ∈ report_commands → check_user_rights c st = (Ret true, st)) ∧
  (∀ st r st', generate_excel_report w st = (r, st') → r ≠ Exit 5).
Proof.
  pose proof report_commands_ls as Hls.
  rewrite Forall_forall in Hls. split_and!.
  - by apply Forall_forall.
  - intros c st Hc. apply check_user_rights_ls. auto.
  - apply never_exits_for_. intros c Hc.
    apply parse_command_to_excel_exits; auto.
Qed.

End ExitCodes.

(** ** The probe in front of every call *)

Section Probe.

Context (w : world).

(** A connection that is not made ends the call after the one [Connect]:
    with code 6 when [shutdown] returns, with its exception when it
    raises.  Nothing is sent and the probe is not made again. *)
Lemma check_connection_failed st :
  connect_ex w (trace st) ≠ 0 →
  check_connection w st =
    (match shutdown w (trace st ++ [Connect (IP st) (port st)]) with
     | Some e => Raise e
     | None => Exit 6
     end, record_event (Connect (IP st) (port st)) st).
Proof.
  intros H. unfold check_connection. unfold_M. simpl.
  destruct (shutdown w _); [done|]. by rewrite bool_decide_eq_true_2.
Qed.

Lemma get_token_failed st :
  connect_ex w (trace st) ≠ 0 →
  get_token w st =
    (match shutdown w (trace st ++ [Connect (IP st) (port st)]) with
     | Some e => Raise e
     | None => Exit 6
     end, record_event (Connect (IP st) (port st)) st).
Proof.
  intros H. unfold get_token. unfold mbind at 1, M_bind at 1.
  rewrite check_connection_failed by done. by destruct (shutdown w _).
Qed.

Lemma run_command_failed c st :
  connect_ex w (trace st) ≠ 0 →
  run_command w c st =
    (match shutdown w (trace st ++ [Connect (IP st) (port st)]) with
     | Some e => Raise e
     | None => Exit 6
     end, record_event (Connect (IP st) (port st)) st).
Proof.
  intros H. unfold run_command. unfold mbind at 1, M_bind at 1.
  rewrite check_connection_failed by done. by destruct (shutdown w _).
Qed.

(** Both callers start with the probe: whatever happens, the first event
    of the call is its [Connect]. *)
Lemma get_token_probes_first st r st' :
  get_token w st = (r, st') →
  ∃ later, trace st' = trace st ++ Connect (IP st) (port st) :: later.
Proof.
  unfold get_token, requests_post, json_loads. unfold mbind at 1, M_bind at 1.
  destruct (check_connection w st) as [r1 st1] eqn:E.
  apply check_connection_spec in E as (-> & [->|[->|[e ->]]]);
    [|intros [= <- <-]; by exists []..].
  unfold_M. simpl. intros H. eexists.
  repeat case_match; simplify_eq; simpl; by rewrite <- app_assoc.
Qed.

Lemma run_command_probes_first c st r st' :
  run_command w c st = (r, st') →
  ∃ later, trace st' = trace st ++ Connect (IP st) (port st) :: later.
Proof.
  unfold run_command, requests_post, json_loads. unfold mbind at 1, M_bind at 1.
  destruct (check_connection w st) as [r1 st1] eqn:E.
  apply check_connection_spec in E as (-> & [->|[->|[e ->]]]);
    [|intros [= <- <-]; by exists []..].
  unfold check_user_rights. unfold_M. simpl. intros H.
  repeat case_match; simplify_eq; simpl; eexists;
    rewrite <- ?app_assoc; done.
Qed.


End Probe.

(** C4, on a host that refuses the connection.  The probe is made before
    the token is asked for and before a command is sent, once, and nothing
    is sent after it; but the call does not end with code 6: [shutdown]
    raises on the socket that is not connected, before the error indicator
    is looked at, and the [OSError] goes up uncaught. *)
Theorem refused_connection_raises :
  connect_ex refusing (trace sample_client) = 111 ∧
  get_token refusing sample_client
    = (Raise OSError, record_event (Connect "array" "7443") sample_client) ∧
  init refusing sample_client
    = (Raise OSError, record_event (Connect "array" "7443") sample_client) ∧
  ∀ c st, ∃ st',
    run_command refusing c st = (Raise OSError, st') ∧
    trace st' = trace st ++ [Connect (IP st) (port st)].
Proof.
  split_and!; [done..|].
  intros c st. eexists. by rewrite run_command_failed.
Qed.

(** ** The session *)

Section Session.

Context (w : world).


Lemma get_user_role_exits code :
  code ≠ 6 → code ≠ 3 → never_exits code (get_user_role w).
Proof.
  intros. assert (never_exits code (run_command w "lscurrentuser")).
  { apply run_command_exits; auto. }
  unfold get_user_role. step_never_exits.
Qed.



End Session.

(** ** Strings and dictionaries *)

Lemma append_nil s : "" +:+ s = s.
Proof. reflexivity. Qed.

Lemma append_cons x a s : String x a +:+ s = String x (a +:+ s).
Proof. reflexivity. Qed.

Lemma append_length a b :
  String.length (a +:+ b) = (String.length a + String.length b)%nat.
Proof.
  induction a as [|x a IH]; [done|]. rewrite append_cons. simpl. by rewrite IH.
Qed.

Lemma append_inj_r s a b : a +:+ s = b +:+ s → a = b.
Proof.
  revert b. induction a as [|x a IH]; intros [|y b] H; [done|..].
  - apply (f_equal String.length) in H.
    rewrite !append_length in H. simpl in H. lia.
  - apply (f_equal String.length) in H.
    rewrite !append_length in H. simpl in H. lia.
  - rewrite !append_cons in H. injection H as -> H. f_equal. by apply IH.
Qed.

Lemma total_not_free a b : a +:+ "_total" ≠ b +:+ "_free".
Proof.
  revert b. induction a as [|x a IH]; intros b H.
  - pose proof (f_equal String.length H) as Hl.
    rewrite !append_length in Hl. simpl in Hl.
    destruct b as [|y [|z b]]; simpl in Hl; [lia|discriminate|lia].
  - destruct b as [|y b].
    + apply (f_equal String.length) in H.
      rewrite !append_length in H. simpl in H. lia.
    + rewrite !append_cons in H. injection H as _ H. by apply IH in H.
Qed.

Lemma endswith_unfold s suffix :
  endswith s suffix =
  String.eqb s suffix
  || match s with
     | EmptyString => false
     | String _ s' => endswith s' suffix
     end.
Proof. by destruct s. Qed.

Lemma endswith_append a s : endswith (a +:+ s) s = true.
Proof.
  induction a as [|x a IH]; rewrite endswith_unfold.
  - by rewrite append_nil, String.eqb_refl.
  - rewrite append_cons, IH. apply orb_true_r.
Qed.

Lemma dict_get_update k k' v d :
  dict_get k' (dict_update k v d) =
  if String.eqb k' k then Some v else dict_get k' d.
Proof.
  induction d as [|[k0 v0] d IH]; simpl; [done|].
  destruct (String.eqb_spec k k0) as [->|Hk]; simpl.
  - by destruct (String.eqb k' k0).
  - rewrite IH. destruct (String.eqb_spec k' k0) as [->|]; [|done].
    by rewrite (proj2 (String.eqb_neq _ _)).
Qed.

Lemma dict_update_app k v d1 d2 :
  k ∉ dict_keys d1 → dict_update k v (d1 ++ d2) = d1 ++ dict_update k v d2.
Proof.
  induction d1 as [|[k0 v0] d1 IH]; simpl; [done|].
  intros [Hk Hd]%not_elem_of_cons.
  rewrite (proj2 (String.eqb_neq _ _)) by done. f_equal. by apply IH.
Qed.

Lemma dict_update_fresh k v d :
  k ∉ dict_keys d → dict_update k v d = d ++ [(k, v)].
Proof.
  intros H. rewrite <- (app_nil_r d) at 1. by rewrite dict_update_app.
Qed.

Lemma dict_of_snoc bs kv : dict_of (bs ++ [kv]) = dict_update kv.1 kv.2 (dict_of bs).
Proof. unfold dict_of. by rewrite foldl_app. Qed.

(** In [dict(bindings)] the last binding of a key wins. *)
Lemma dict_get_dict_of k bs : dict_get k (dict_of bs) = dict_get k (reverse bs).
Proof.
  induction bs as [|[k0 v0] bs IH] using rev_ind; [done|].
  rewrite dict_of_snoc, dict_get_update, reverse_snoc. simpl.
  by rewrite IH.
Qed.

(** Bindings with distinct keys make the dict with these bindings, in
    their order. *)
Lemma dict_of_NoDup bs : NoDup bs.*1 → dict_of bs = bs.
Proof.
  induction bs as [|[k0 v0] bs IH] using rev_ind; [done|].
  rewrite fmap_app, dict_of_snoc. simpl.
  intros (Hbs & Hk & _)%NoDup_app. rewrite IH by done.
  apply dict_update_fresh. intros Hin. apply (Hk k0 Hin). by left.
Qed.

(** Updates with keys that [d1] does not have go past it. *)
Lemma foldl_dict_update_app d1 d2 bs :
  Forall (λ kv, kv.1 ∉ dict_keys d1) bs →
  foldl (λ d kv, dict_update kv.1 kv.2 d) (d1 ++ d2) bs =
  d1 ++ foldl (λ d kv, dict_update kv.1 kv.2 d) d2 bs.
Proof.
  intros H. revert d2. induction H as [|kv bs Hkv _ IH]; intros d2; simpl.
  - done.
  - by rewrite dict_update_app, IH.
Qed.

Lemma for_each_err {A S} (body : S → A → except S) l s x :
  x ∈ l → (∀ s', ∃ e, body s' x = Err e) → ∃ e, for_each body l s = Err e.
Proof.
  intros Hx Hbody. revert s.
  induction Hx as [x l|x y l Hx IH]; intros s; simpl;
    unfold mbind, except_bind.
  - destruct (Hbody s) as [e ->]. by exists e.
  - destruct (body s y) as [s'|e]; [by apply IH|by exists e].
Qed.

(** ** The system summary *)

Lemma summary_columns_NoDup : NoDup summary_columns.*1.
Proof. apply (bool_decide_unpack _). by vm_compute. Qed.

Lemma summary_columns_endings :
  Forall (λ k, endswith k "_total" = false ∧ endswith k "_free" = false)
    summary_columns.*1.
Proof. repeat constructor. Qed.

(** No tier column has the name of a fixed column. *)
Lemma tier_column_not_fixed (t : tier) kv :
  kv ∈ tier_columns t → kv.1 ∉ summary_columns.*1.
Proof.
  pose proof summary_columns_endings as H. rewrite Forall_forall in H.
  intros Hkv Hin. apply H in Hin as [H1 H2].
  unfold tier_columns in Hkv.
  apply elem_of_cons in Hkv as [->|Hkv];
    [|apply list_elem_of_singleton in Hkv as ->]; simpl in *.
  - by rewrite endswith_append in H1.
  - by rewrite endswith_append in H2.
Qed.

Lemma tier_columns_NoDup (tiers : list tier) :
  NoDup tiers.*1.*1 → NoDup (tiers ≫= tier_columns).*1.
Proof.
  induction tiers as [|[[n c] f] tiers IH]; simpl; [constructor|].
  intros [Hn Hts]%NoDup_cons.
  assert (∀ k, k ∈ (tiers ≫= tier_columns).*1 →
            ∃ n', n' ∈ tiers.*1.*1 ∧ (k = n' +:+ "_total" ∨ k = n' +:+ "_free"))
    as Hkeys.
  { intros k ([k' v] & -> & ([[n' c'] f'] & Hkv & Ht)%list_elem_of_bind)%list_elem_of_fmap.
    exists n'. split.
    - apply list_elem_of_fmap. exists (n', c'). split; [done|].
      apply list_elem_of_fmap. by exists (n', c', f').
    - unfold tier_columns in Hkv. simpl in Hkv.
      apply elem_of_cons in Hkv as [[= ->]|Hkv]; [by left|right].
      by apply list_elem_of_singleton in Hkv as [= ->]. }
  rewrite !NoDup_cons. split_and!.
  - intros [H|H]%elem_of_cons; [by apply total_not_free in H|].
    apply Hkeys in H as (n' & Hn' & [H|H]).
    + apply append_inj_r in H as ->. done.
    + by apply total_not_free in H.
  - intros (n' & Hn' & [H|H])%Hkeys.
    + symmetry in H. by apply total_not_free in H.
    + apply append_inj_r in H as ->. done.
  - by apply IH.
Qed.

Lemma add_tier_ok row entry (t : tier) :
  is_tier entry t →
  add_tier row entry =
    Ok (foldl (λ d kv, dict_update kv.1 kv.2 d) row (tier_columns t)).
Proof.
  intros (H1 & H2 & H3). unfold add_tier. by rewrite H1, H2, H3.
Qed.

Lemma tiers_loop row entries (tiers : list tier) :
  Forall2 is_tier entries tiers →
  for_each add_tier entries row =
    Ok (foldl (λ d kv, dict_update kv.1 kv.2 d) row (tiers ≫= tier_columns)).
Proof.
  intros H. revert row. induction H as [|entry t entries tiers Ht _ IH];
    intros row; simpl; [done|].
  rewrite (add_tier_ok _ _ _ Ht). simpl. unfold mbind, except_bind.
  by rewrite IH.
Qed.

Lemma add_column_ok lssystem d column field v :
  subscript lssystem field = Ok v →
  add_column lssystem d (column, field) = Ok (dict_update column v d).
Proof. intros H. unfold add_column. simpl. by rewrite H. Qed.

Lemma summary_loop lssystem columns fixed d :
  Forall2 (λ (cf : string * string) (kv : string * json),
             kv.1 = cf.1 ∧ subscript lssystem cf.2 = Ok kv.2) columns fixed →
  NoDup (dict_keys d ++ columns.*1) →
  for_each (add_column lssystem) columns d = Ok (d ++ fixed).
Proof.
  intros H. revert d.
  induction H as [|[col field] [k v] columns fixed [Hk Hv] _ IH];
    intros d Hnd; simpl in *.
  - by rewrite app_nil_r.
  - subst k. rewrite (add_column_ok _ _ _ _ _ Hv).
    unfold mbind, except_bind. rewrite dict_update_fresh.
    + rewrite IH; [by rewrite <- app_assoc|].
      unfold dict_keys in *. by rewrite fmap_app, <- app_assoc.
    + apply NoDup_app in Hnd as (_ & Hnd & _). intros Hin.
      apply (Hnd col Hin). by left.
Qed.

Lemma is_summary_keys lssystem fixed :
  is_summary lssystem fixed → dict_keys fixed = summary_columns.*1.
Proof.
  unfold is_summary, dict_keys. generalize summary_columns.
  intros l H. induction H as [|?? ?? [? _] _ IH]; simpl; [done|].
  by f_equal.
Qed.

Section Summary.

Context (w : world).

(** C5, as the code has it.  For an answer that has the fields the
    transform reads, the transform returns one row, which makes a sheet
    of a header and one data row.  The row has the fixed columns first, in
    the order of the source, each with the value of its field; then the
    columns that the tier entries bind, [{tier}_total] and [{tier}_free],
    as a dict takes the bindings: a name that comes again keeps its two
    columns and takes the later values.  With tier names that are pairwise
    distinct this is two columns for each entry, with its own two
    values. *)
Theorem lssystem_one_row (lssystem : json) (fixed : pydict)
    (entries : list json) (tiers : list tier) :
  is_summary lssystem fixed →
  subscript lssystem "tiers" = Ok (JArr entries) →
  Forall2 is_tier entries tiers →
  let dynamic := dict_of (tiers ≫= tier_columns) in
  lssystem_row lssystem = Ok (fixed ++ dynamic) ∧
  (∀ st st', run_command w "lssystem" st = (Ret lssystem, st') →
     format_lssystem_to_excel w st = (Ret (JArr [JObj (fixed ++ dynamic)]), st') ∧
     ∃ header data, gather w "lssystem" st = (Ret [header; data], st')) ∧
  dict_keys fixed = summary_columns.*1 ∧
  (∀ k, dict_get k dynamic = dict_get k (reverse (tiers ≫= tier_columns))) ∧
  (NoDup tiers.*1.*1 → dynamic = tiers ≫= tier_columns).
Proof.
  intros Hfixed Htiers Hentries dynamic.
  pose proof (is_summary_keys _ _ Hfixed) as Hkeys.
  assert (lssystem_row lssystem = Ok (fixed ++ dynamic)) as Hrow.
  { unfold lssystem_row.
    rewrite (summary_loop lssystem summary_columns fixed [])
      by (done || apply summary_columns_NoDup).
    simpl. rewrite Htiers. simpl.
    rewrite (tiers_loop _ _ _ Hentries).
    rewrite <- (app_nil_r fixed) at 1.
    rewrite foldl_dict_update_app; [done|].
    apply Forall_forall. intros kv (t & Hkv & _)%list_elem_of_bind.
    rewrite Hkeys. by eapply tier_column_not_fixed. }
  split_and!; [done| |done|intros k; apply dict_get_dict_of|].
  - intros st st' Hrun.
    assert (format_lssystem_to_excel w st
            = (Ret (JArr [JObj (fixed ++ dynamic)]), st')) as Hfmt.
    { unfold format_lssystem_to_excel. unfold_M. by rewrite Hrun, Hrow. }
    split; [done|]. unfold gather, DataFrame_from_dict, dataframe_to_rows.
    simpl. unfold_M. rewrite Hfmt. simpl. eauto.
  - intros Hnd. apply dict_of_NoDup. by apply tier_columns_NoDup.
Qed.

(** C10.  The transform reads the fields of [summary_fields] from the
    answer and those of [tier_fields] from each tier entry.  When one of
    these keys is absent, the transform ends with an exception, which
    nothing catches: [__format_lssystem_to_excel] ends with it and so does
    [__parse_command_to_excel], none with an exit code. *)
Theorem absent_key_raises (lssystem : json) :
  key_absent lssystem →
  (∃ e, lssystem_row lssystem = Err e) ∧
  ∀ st st', run_command w "lssystem" st = (Ret lssystem, st') →
    ∃ e, format_lssystem_to_excel w st = (Raise e, st') ∧
      ∀ st0 wb i, open_sheet w "lssystem" st0 = (Ret (wb, i), st) →
        parse_command_to_excel w "lssystem" st0 = (Raise e, st').
Proof.
  intros Habsent.
  assert (∃ e, lssystem_row lssystem = Err e) as [e He].
  { unfold lssystem_row.
    destruct Habsent as [(k & Hk & Hno)|(entry & k & Hentry & Hk & Hno)].
    - unfold summary_fields in Hk. apply elem_of_app in Hk as [Hk|Hk].
      + apply list_elem_of_fmap in Hk as ([col field] & -> & Hin).
        destruct (for_each_err (add_column lssystem)
          summary_columns [] (col, field) Hin) as [e ->]; [|by exists e].
        intros d. unfold add_column. simpl in *. unfold subscript, has_key in *.
        destruct lssystem; simpl; eauto.
        destruct (dict_get field fields); simpl; eauto.
        by rewrite bool_decide_eq_true_2 in Hno.
      + apply list_elem_of_singleton in Hk as ->.
        destruct (for_each (add_column lssystem) summary_columns []);
          simpl; eauto.
        unfold subscript, has_key in *. destruct lssystem; simpl; eauto.
        destruct (dict_get "tiers" fields); simpl; eauto.
        by rewrite bool_decide_eq_true_2 in Hno.
    - destruct (for_each (add_column lssystem) summary_columns [])
        as [row|]; simpl; eauto.
      unfold tier_entries in Hentry.
      destruct lssystem as [| | | | |d]; try by apply elem_of_nil in Hentry.
      simpl. destruct (dict_get "tiers" d) as [[| | | |l|]|];
        try by apply elem_of_nil in Hentry.
      simpl. apply (for_each_err add_tier l row entry Hentry).
      intros row'. unfold tier_fields in Hk.
      assert (∀ fields, entry = JObj fields → dict_get k fields = None) as Hnone.
      { intros fields ->. simpl in Hno. apply bool_decide_eq_false in Hno.
        by apply eq_None_not_Some. }
      unfold add_tier, subscript, concat_str. unfold mbind, except_bind.
      destruct entry as [| | | | |fields]; eauto.
      specialize (Hnone fields eq_refl).
      repeat (apply elem_of_cons in Hk as [->|Hk]);
        [..|by apply elem_of_nil in Hk];
        repeat case_match; simplify_eq; eauto. }
  split; [by exists e|].
  intros st st' Hrun. exists e.
  assert (format_lssystem_to_excel w st = (Raise e, st')) as Hfmt.
  { unfold format_lssystem_to_excel. unfold_M. by rewrite Hrun, He. }
  split; [done|]. intros st0 wb i Hopen.
  assert (gather w "lssystem" st = (Raise e, st')) as Hgather.
  { unfold gather. simpl. unfold mbind at 1, M_bind at 1. by rewrite Hfmt. }
  unfold parse_command_to_excel.
  unfold mbind at 1, M_bind at 1. rewrite Hopen.
  unfold mbind at 1, M_bind at 1. by rewrite Hgather.
Qed.

End Summary.

(** ** Worksheets *)

(** *** Ranges *)

Lemma elem_of_range_from n start step p :
  p ∈ range_from n start step ↔
  ∃ k : nat, (k < n)%nat ∧ Z.pos p = Z.pos start + Z.of_nat k * Z.pos step.
Proof.
  revert start. induction n as [|n IH]; intros start; simpl.
  - split; [by intros ?%elem_of_nil|intros (k & ? & _); lia].
  - rewrite elem_of_cons, IH. split.
    + intros [->|(k & Hk & Hp)]; [exists O; lia|exists (S k); lia].
    + intros ([|k] & Hk & Hp); [left; lia|right; exists k; lia].
Qed.

Lemma elem_of_range lo hi step p :
  p ∈ range lo (Pos.succ hi) step ↔
  (lo ≤ p ≤ hi)%positive ∧ ∃ k : nat, Z.pos p = Z.pos lo + Z.of_nat k * Z.pos step.
Proof.
  unfold range. rewrite elem_of_range_from.
  set (n := (Z.pos (Pos.succ hi) - Z.pos lo + Z.pos step - 1) / Z.pos step).
  assert (Z.pos step * n ≤ Z.pos hi - Z.pos lo + Z.pos step
          ∧ Z.pos hi - Z.pos lo + Z.pos step < Z.pos step * (n + 1)) as [Hn1 Hn2].
  { pose proof (Z.div_mod (Z.pos (Pos.succ hi) - Z.pos lo + Z.pos step - 1) (Z.pos step)).
    pose proof (Z.mod_pos_bound (Z.pos (Pos.succ hi) - Z.pos lo + Z.pos step - 1) (Z.pos step)).
    fold n in H. lia. }
  split.
  - intros (k & Hk & Hp). split; [|by exists k]. 
    assert (Z.of_nat k < n) by lia. nia.
  - intros (Hb & k & Hp). exists k. split; [|done].
    assert (Z.of_nat k < n); [nia|lia].
Qed.

Lemma elem_of_range_1 lo hi p :
  p ∈ range lo (Pos.succ hi) 1 ↔ (lo ≤ p ≤ hi)%positive.
Proof.
  rewrite elem_of_range. split; [by intros [? _]|].
  intros H. split; [done|]. exists (Z.to_nat (Z.pos p - Z.pos lo)). lia.
Qed.

Lemma range_2_3_disjoint hi p :
  p ∈ range 2 (Pos.succ hi) 2 → p ∈ range 3 (Pos.succ hi) 2 → False.
Proof. rewrite !elem_of_range. intros (_ & k & Hk) (_ & k' & Hk'). lia. Qed.

(** *** The used area *)

Lemma elem_of_range_even hi r :
  r ∈ range 2 (Pos.succ hi) 2 ↔
  (2 ≤ r ≤ hi)%positive ∧ Z.even (Z.pos r) = true.
Proof.
  rewrite elem_of_range. split.
  - intros [Hb [k Hk]]. split; [done|]. rewrite Hk.
    replace (2 + Z.of_nat k * 2) with (2 * (1 + Z.of_nat k)) by lia.
    by rewrite Z.even_mul.
  - intros [Hb He]. split; [done|].
    apply Z.even_spec in He as [m Hm].
    exists (Z.to_nat (m - 1)). lia.
Qed.

Lemma elem_of_range_odd hi r :
  r ∈ range 3 (Pos.succ hi) 2 ↔
  (3 ≤ r ≤ hi)%positive ∧ Z.even (Z.pos r) = false.
Proof.
  rewrite elem_of_range. split.
  - intros [Hb [k Hk]]. split; [done|]. rewrite Hk.
    replace (3 + Z.of_nat k * 2) with (1 + 2 * (1 + Z.of_nat k)) by lia.
    rewrite Z.even_add, Z.even_mul. done.
  - intros [Hb He]. split; [done|].
    rewrite <- Z.negb_odd in He. apply negb_false_iff, Z.odd_spec in He as [m Hm].
    exists (Z.to_nat (m - 1)). lia.
Qed.

Lemma max_or_1_ge l x : x ∈ l → (x ≤ max_or_1 l)%positive.
Proof.
  unfold max_or_1. induction 1 as [x l|x y l _ IH]; simpl; lia.
Qed.

Lemma max_or_1_in l : max_or_1 l = 1%positive ∨ max_or_1 l ∈ l.
Proof.
  unfold max_or_1. induction l as [|x l IH]; simpl; [by left|].
  destruct (Pos.max_spec x (foldr Pos.max 1%positive l)) as [[_ ->]|[_ ->]].
  - destruct IH as [IH|IH]; [by left|right; by right].
  - right. by left.
Qed.

Lemma foldr_min_le x l y :
  y = x ∨ y ∈ l → (foldr Pos.min x l ≤ y)%positive.
Proof.
  induction l as [|z l IH]; simpl.
  - intros [->|?%elem_of_nil]; [lia|done].
  - rewrite elem_of_cons. intros [->|[->|H]].
    + etrans; [apply Pos.le_min_r|]. apply IH. by left.
    + apply Pos.le_min_l.
    + etrans; [apply Pos.le_min_r|]. apply IH. by right.
Qed.

Lemma foldr_min_in x l :
  foldr Pos.min x l = x ∨ foldr Pos.min x l ∈ l.
Proof.
  induction l as [|z l IH]; simpl; [by left|].
  destruct (Pos.min_spec z (foldr Pos.min x l)) as [[_ ->]|[_ ->]].
  - right. by left.
  - destruct IH as [IH|IH]; [by left|right; by right].
Qed.

Lemma min_or_1_le l x : x ∈ l → (min_or_1 l ≤ x)%positive.
Proof.
  destruct l as [|y l]; [by intros ?%elem_of_nil|]. simpl.
  rewrite elem_of_cons. apply foldr_min_le.
Qed.

Lemma min_or_1_in l : l ≠ [] → min_or_1 l ∈ l.
Proof.
  destruct l as [|y l]; [done|]. intros _. simpl.
  destruct (foldr_min_in y l) as [->|H]; [by left|by right].
Qed.

Section Area.

Context (ws : worksheet).

Lemma elem_of_used_rows r :
  r ∈ used_rows ws ↔ ∃ c, is_Some (cells ws !! (r, c)).
Proof.
  unfold used_rows. rewrite list_elem_of_fmap. split.
  - intros ([[r' c] x] & -> & H%elem_of_map_to_list). exists c. by exists x.
  - intros (c & x & H). exists ((r, c), x). by rewrite elem_of_map_to_list.
Qed.

Lemma elem_of_used_columns c :
  c ∈ used_columns ws ↔ ∃ r, is_Some (cells ws !! (r, c)).
Proof.
  unfold used_columns. rewrite list_elem_of_fmap. split.
  - intros ([[r c'] x] & -> & H%elem_of_map_to_list). exists r. by exists x.
  - intros (r & x & H). exists ((r, c), x). by rewrite elem_of_map_to_list.
Qed.

Lemma max_row_ge r c : is_Some (cells ws !! (r, c)) → (r ≤ max_row ws)%positive.
Proof. intros H. apply max_or_1_ge, elem_of_used_rows. eauto. Qed.

Lemma max_column_ge r c :
  is_Some (cells ws !! (r, c)) → (c ≤ max_column ws)%positive.
Proof. intros H. apply max_or_1_ge, elem_of_used_columns. eauto. Qed.

Lemma min_column_le r c :
  is_Some (cells ws !! (r, c)) → (min_column ws ≤ c)%positive.
Proof. intros H. apply min_or_1_le, elem_of_used_columns. eauto. Qed.

Lemma max_row_in :
  max_row ws = 1%positive ∨ ∃ c, is_Some (cells ws !! (max_row ws, c)).
Proof.
  destruct (max_or_1_in (used_rows ws)) as [H|H]; [by left|right].
  by apply elem_of_used_rows.
Qed.

Lemma max_column_in :
  max_column ws = 1%positive ∨ ∃ r, is_Some (cells ws !! (r, max_column ws)).
Proof.
  destruct (max_or_1_in (used_columns ws)) as [H|H]; [by left|right].
  by apply elem_of_used_columns.
Qed.

Lemma min_column_in :
  (cells ws = ∅ ∧ min_column ws = 1%positive)
  ∨ ∃ r, is_Some (cells ws !! (r, min_column ws)).
Proof.
  unfold min_column, used_columns.
  destruct (map_to_list (cells ws)) as [|kv l] eqn:E.
  - left. split; [|done]. by apply map_to_list_empty_iff.
  - right. apply elem_of_used_columns. unfold used_columns.
    rewrite E. by apply min_or_1_in.
Qed.

Lemma min_column_max_column : (min_column ws ≤ max_column ws)%positive.
Proof.
  destruct min_column_in as [[_ ->]|[r H]]; [lia|].
  by eapply max_column_ge.
Qed.

(** The bounds are decided by which cells there are. *)
Lemma max_row_eq m :
  (∀ r c, is_Some (cells ws !! (r, c)) → (r ≤ m)%positive) →
  m = 1%positive ∨ (∃ c, is_Some (cells ws !! (m, c))) →
  max_row ws = m.
Proof.
  intros Hub Hin. apply Pos.le_antisym.
  - destruct max_row_in as [->|[c H]]; [lia|by eapply Hub].
  - destruct Hin as [->|[c H]]; [lia|by eapply max_row_ge].
Qed.

Lemma max_column_eq m :
  (∀ r c, is_Some (cells ws !! (r, c)) → (c ≤ m)%positive) →
  m = 1%positive ∨ (∃ r, is_Some (cells ws !! (r, m))) →
  max_column ws = m.
Proof.
  intros Hub Hin. apply Pos.le_antisym.
  - destruct max_column_in as [->|[c H]]; [lia|by eapply Hub].
  - destruct Hin as [->|[c H]]; [lia|by eapply max_column_ge].
Qed.

Lemma min_column_eq m :
  (∀ r c, is_Some (cells ws !! (r, c)) → (m ≤ c)%positive) →
  (cells ws = ∅ ∧ m = 1%positive) ∨ (∃ r, is_Some (cells ws !! (r, m))) →
  min_column ws = m.
Proof.
  intros Hlb Hin. apply Pos.le_antisym.
  - destruct Hin as [[He ->]|[r H]]; [|by eapply min_column_le].
    destruct min_column_in as [[_ ->]|[r H]]; [lia|].
    rewrite He, lookup_empty in H. by destruct H.
  - destruct min_column_in as [[He ->]|[r H]]; [|by eapply Hlb].
    destruct Hin as [[_ ->]|[r H]]; [lia|].
    rewrite He, lookup_empty in H. by destruct H.
Qed.

End Area.

(** *** Painting cells *)

Lemma put_cell_cells r c g ws :
  cells (put_cell r c g ws) =
  <[(r, c) := g (default blank (cells ws !! (r, c)))]> (cells ws).
Proof. unfold put_cell. by destruct (cells ws !! (r, c)). Qed.

Lemma put_cell_title r c g ws : title (put_cell r c g ws) = title ws.
Proof. unfold put_cell. by destruct (cells ws !! (r, c)). Qed.

Lemma put_cell_column_dimensions r c g ws :
  column_dimensions (put_cell r c g ws) = column_dimensions ws.
Proof. unfold put_cell. by destruct (cells ws !! (r, c)). Qed.

Lemma put_cell_current_row r c g ws :
  (current_row ws ≤ current_row (put_cell r c g ws))%N ∧
  (cells ws !! (r, c) = None → (N.pos r ≤ current_row (put_cell r c g ws))%N).
Proof. unfold put_cell. destruct (cells ws !! (r, c)); simpl; split; (done || lia). Qed.

Lemma put_cell_is_Some r c g ws q :
  is_Some (cells (put_cell r c g ws) !! q) ↔ q = (r, c) ∨ is_Some (cells ws !! q).
Proof.
  rewrite put_cell_cells, lookup_insert_is_Some'.
  split; intros [H|H]; eauto.
Qed.

Lemma put_cell_id r c g ws x :
  cells ws !! (r, c) = Some x → g x = x → put_cell r c g ws = ws.
Proof.
  intros H Hg. unfold put_cell. rewrite H, Hg, insert_id by done. by destruct ws.
Qed.

Lemma put_cell_twice r c g1 g2 ws :
  put_cell r c g2 (put_cell r c g1 ws) = put_cell r c (g2 ∘ g1) ws.
Proof.
  unfold put_cell at 1. rewrite put_cell_cells, lookup_insert_eq.
  unfold put_cell. destruct (cells ws !! (r, c)); simpl; by rewrite insert_insert_eq.
Qed.

Lemma put_cell_well_formed r c g ws :
  well_formed ws → well_formed (put_cell r c g ws).
Proof.
  intros Hwf r' c' H.
  pose proof (put_cell_current_row r c g ws) as [H1 H2].
  apply put_cell_is_Some in H as [[= -> ->]|H].
  - destruct (cells ws !! (r, c)) as [x|] eqn:E; [|by apply H2].
    pose proof (Hwf r c (mk_is_Some _ _ E)). lia.
  - pose proof (Hwf r' c' H). lia.
Qed.

Lemma put_cell_area r c g ws :
  inside (area ws) (r, c) → area (put_cell r c g ws) = area ws.
Proof.
  intros (Hr & Hc1 & Hc2). simpl in *. unfold area. f_equal; [f_equal|].
  - apply max_row_eq.
    + intros r' c' [[= -> ->]|H]%put_cell_is_Some; [done|by eapply max_row_ge].
    + destruct (max_row_in ws) as [?|[c' H]]; [by left|right].
      exists c'. apply put_cell_is_Some. by right.
  - apply min_column_eq.
    + intros r' c' [[= -> ->]|H]%put_cell_is_Some; [done|by eapply min_column_le].
    + right. destruct (min_column_in ws) as [[He H1]|[r' H]].
      * pose proof (max_column_in ws) as [Hm|[r' H]].
        -- exists r. apply put_cell_is_Some. left. f_equal. lia.
        -- rewrite He, lookup_empty in H. by destruct H.
      * exists r'. apply put_cell_is_Some. by right.
  - apply max_column_eq.
    + intros r' c' [[= -> ->]|H]%put_cell_is_Some; [done|by eapply max_column_ge].
    + destruct (max_column_in ws) as [?|[r' H]]; [by left|right].
      exists r'. apply put_cell_is_Some. by right.
Qed.

Section Paint.

Context (g : cell → cell).

Lemma paint_cons p ps ws : paint g (p :: ps) ws = paint g ps (put_cell p.1 p.2 g ws).
Proof. by destruct p. Qed.

Lemma paint_app ps ps' ws : paint g (ps ++ ps') ws = paint g ps' (paint g ps ws).
Proof. apply foldl_app. Qed.

Lemma paint_title ps ws : title (paint g ps ws) = title ws.
Proof.
  revert ws. induction ps as [|p ps IH]; intros ws; [done|].
  by rewrite paint_cons, IH, put_cell_title.
Qed.

Lemma paint_column_dimensions ps ws :
  column_dimensions (paint g ps ws) = column_dimensions ws.
Proof.
  revert ws. induction ps as [|p ps IH]; intros ws; [done|].
  by rewrite paint_cons, IH, put_cell_column_dimensions.
Qed.

Lemma paint_well_formed ps ws : well_formed ws → well_formed (paint g ps ws).
Proof.
  revert ws. induction ps as [|p ps IH]; intros ws H; [done|].
  rewrite paint_cons. by apply IH, put_cell_well_formed.
Qed.

Lemma paint_area ps ws :
  Forall (inside (area ws)) ps → area (paint g ps ws) = area ws.
Proof.
  revert ws. induction ps as [|[r c] ps IH]; intros ws H; [done|].
  apply Forall_cons in H as [Hp Hps]. rewrite paint_cons. simpl.
  rewrite IH; rewrite put_cell_area; done.
Qed.

Lemma paint_skip ps ws q : q ∉ ps → cells (paint g ps ws) !! q = cells ws !! q.
Proof.
  revert ws. induction ps as [|[r c] ps IH]; intros ws H; [done|].
  apply not_elem_of_cons in H as [H1 H2]. rewrite paint_cons, IH by done.
  simpl. by rewrite put_cell_cells, lookup_insert_ne.
Qed.

Lemma paint_is_Some ps ws q :
  is_Some (cells (paint g ps ws) !! q) ↔ q ∈ ps ∨ is_Some (cells ws !! q).
Proof.
  revert ws. induction ps as [|[r c] ps IH]; intros ws.
  - simpl. split; [by right|]. by intros [?%elem_of_nil|?].
  - rewrite paint_cons, IH, put_cell_is_Some, elem_of_cons. simpl. tauto.
Qed.

(** What holds of a cell and is kept by [g] holds after painting. *)
Lemma paint_keeps (Q : cell → Prop) ps ws q :
  (∀ x, Q x → Q (g x)) →
  (∃ x, cells ws !! q = Some x ∧ Q x) →
  ∃ x, cells (paint g ps ws) !! q = Some x ∧ Q x.
Proof.
  intros Hg. revert ws. induction ps as [|[r c] ps IH]; intros ws H; [done|].
  rewrite paint_cons. apply IH. simpl. rewrite put_cell_cells.
  destruct H as (x & Hx & HQ).
  destruct (decide ((r, c) = q)) as [<-|Hne].
  - rewrite lookup_insert_eq, Hx. simpl. eauto.
  - rewrite lookup_insert_ne by done. eauto.
Qed.

(** What [g] makes true holds of the cells that were painted. *)
Lemma paint_sets (Q : cell → Prop) ps ws q :
  (∀ x, Q (g x)) → q ∈ ps →
  ∃ x, cells (paint g ps ws) !! q = Some x ∧ Q x.
Proof.
  intros Hg. revert ws. induction ps as [|[r c] ps IH]; intros ws H.
  - by apply elem_of_nil in H.
  - rewrite paint_cons. simpl.
    destruct (decide (q ∈ ps)) as [Hin|Hout]; [by apply IH|].
    apply elem_of_cons in H as [->|H]; [|done].
    rewrite paint_skip by done.
    rewrite put_cell_cells, lookup_insert_eq. eauto.
Qed.

(** Painting cells that are there, with what they have, changes nothing. *)
Lemma paint_id ps ws :
  Forall (λ q, ∃ x, cells ws !! q = Some x ∧ g x = x) ps → paint g ps ws = ws.
Proof.
  induction 1 as [|[r c] ps (x & Hx & Hg) _ IH]; [done|].
  rewrite paint_cons. simpl. by rewrite (put_cell_id _ _ _ _ x).
Qed.

End Paint.

(** *** The stages of the formatter as paintings *)

Lemma area_eq ws ws' :
  area ws' = area ws →
  max_row ws' = max_row ws ∧ min_column ws' = min_column ws ∧
  max_column ws' = max_column ws.
Proof. by intros [= -> -> ->]. Qed.

Lemma elem_of_grid rows cols r c :
  (r, c) ∈ grid rows cols ↔ r ∈ rows ∧ c ∈ cols.
Proof.
  unfold grid. rewrite list_elem_of_bind. split.
  - intros (r' & H & Hr). apply list_elem_of_bind in H as (c' & H & Hc).
    apply list_elem_of_singleton in H. by injection H as -> ->.
  - intros [Hr Hc]. exists r. split; [|done].
    apply list_elem_of_bind. exists c. split; [|done]. by left.
Qed.

Lemma grid_cons r rows cols :
  grid (r :: rows) cols = ((λ c, (r, c)) <$> cols) ++ grid rows cols.
Proof.
  unfold grid. simpl. by f_equal.
Qed.

Lemma row_paint g r cols ws :
  foldl (λ w c, put_cell r c g w) ws cols = paint g ((λ c, (r, c)) <$> cols) ws.
Proof.
  revert ws. induction cols as [|c cols IH]; intros ws; [done|].
  simpl. by rewrite IH.
Qed.

Lemma header_cells_paint ws :
  header_cells ws =
  paint (with_fill HEADER_FILL ∘ with_font HEADER_FONT)
    ((λ c, (1%positive, c)) <$> range (min_column ws) (Pos.succ (max_column ws)) 1)
    ws.
Proof.
  unfold header_cells. generalize (range (min_column ws) (Pos.succ (max_column ws)) 1).
  intros cols. revert ws. induction cols as [|c cols IH]; intros ws; [done|].
  simpl. by rewrite put_cell_twice, IH.
Qed.

Lemma banded_cells_paint first p ws :
  min_column ws = 1%positive →
  banded_cells first p ws =
  paint (with_fill p)
    (grid (range first (Pos.succ (max_row ws)) 2)
          (range 1 (Pos.succ (max_column ws)) 1)) ws.
Proof.
  intros Hmin. unfold banded_cells.
  assert (∀ r, r ∈ range first (Pos.succ (max_row ws)) 2 → (r ≤ max_row ws)%positive)
    as Hrows.
  { intros r [[_ ?] _]%elem_of_range. done. }
  revert Hrows. generalize (range first (Pos.succ (max_row ws)) 2). intros rows.
  revert ws Hmin. induction rows as [|r rows IH]; intros ws Hmin Hrows; [done|].
  rewrite grid_cons, paint_app. simpl. rewrite row_paint.
  set (cols := range 1 (Pos.succ (max_column ws)) 1).
  assert (area (paint (with_fill p) ((λ c, (r, c)) <$> cols) ws) = area ws)
    as (Ha1 & Ha2 & Ha3)%area_eq.
  { apply paint_area, Forall_forall.
    intros q (c & -> & Hc%elem_of_range_1)%list_elem_of_fmap.
    split; simpl; [apply Hrows; by left|]. rewrite Hmin. lia. }
  rewrite IH.
  - by rewrite Ha3.
  - by rewrite Ha2.
  - intros r' Hr'. rewrite Ha1. apply Hrows. by right.
Qed.

(** *** Formatting twice *)

Section Styled.

Context (ws : worksheet).
Hypothesis Hwf : well_formed ws.
Hypothesis Hmin : min_column ws = 1%positive.

Let R := max_row ws.
Let C := max_column ws.
Let cols := range 1 (Pos.succ C) 1.
Let head := (λ c, (1%positive, c)) <$> cols.
Let rect := grid (range 1 (Pos.succ R) 1) cols.
Let evens := grid (range 2 (Pos.succ R) 2) cols.
Let odds := grid (range 3 (Pos.succ R) 2) cols.

Let ws2 := paint (with_fill HEADER_FILL ∘ with_font HEADER_FONT) head ws.
Let ws3 := paint (with_alignment CENTER) rect ws2.
Let ws4 := paint (with_fill EVEN_FILL) evens ws3.
Let ws5 := paint (with_fill ODD_FILL) odds ws4.

Lemma inside_head : Forall (inside (area ws)) head.
Proof.
  apply Forall_forall. intros q (c & -> & Hc%elem_of_range_1)%list_elem_of_fmap.
  split; simpl; [lia|]. rewrite Hmin. done.
Qed.

Lemma inside_grid rows :
  (∀ r, r ∈ rows → (r ≤ R)%positive) → Forall (inside (area ws)) (grid rows cols).
Proof.
  intros H. apply Forall_forall. intros [r c] [Hr Hc%elem_of_range_1]%elem_of_grid.
  split; simpl; [by apply H|]. rewrite Hmin. done.
Qed.

Lemma range_le first r : r ∈ range first (Pos.succ R) 2 → (r ≤ R)%positive.
Proof. by intros [[_ ?] _]%elem_of_range. Qed.

Lemma area_ws2 : area ws2 = area ws.
Proof. apply paint_area, inside_head. Qed.

Lemma area_ws3 : area ws3 = area ws.
Proof.
  unfold ws3. rewrite paint_area; rewrite area_ws2; [done|].
  apply inside_grid. by intros r [_ ?]%elem_of_range_1.
Qed.

Lemma area_ws4 : area ws4 = area ws.
Proof.
  unfold ws4. rewrite paint_area; rewrite area_ws3; [done|].
  apply inside_grid, range_le.
Qed.

Lemma area_ws5 : area ws5 = area ws.
Proof.
  unfold ws5. rewrite paint_area; rewrite area_ws4; [done|].
  apply inside_grid, range_le.
Qed.

Lemma one_in_cols : 1%positive ∈ cols.
Proof. apply elem_of_range_1. lia. Qed.

Lemma iter_rows_ws2 : iter_rows ws2 = rect.
Proof.
  unfold iter_rows. pose proof area_ws2 as (-> & _ & ->)%area_eq.
  assert (current_row ws2 ≠ 0%N) as ->%N.eqb_neq; [|done].
  assert (is_Some (cells ws2 !! (1%positive, 1%positive))) as H.
  { apply paint_is_Some. left. apply list_elem_of_fmap. exists 1%positive.
    split; [done|apply one_in_cols]. }
  apply (paint_well_formed _ head ws Hwf) in H. fold ws2 in H. lia.
Qed.

Lemma styled_eq : styled ws = ws5.
Proof.
  unfold styled. rewrite header_cells_paint, Hmin. fold C cols head ws2.
  unfold centered_cells. rewrite iter_rows_ws2.
  change (foldl _ ws2 rect) with ws3.
  pose proof area_ws3 as (H1 & H2 & H3)%area_eq.
  rewrite Hmin in H2.
  rewrite (banded_cells_paint _ _ ws3 H2), H1, H3.
  fold R C cols evens ws4.
  pose proof area_ws4 as (H1' & H2' & H3')%area_eq.
  rewrite Hmin in H2'.
  by rewrite (banded_cells_paint _ _ ws4 H2'), H1', H3'.
Qed.

Lemma head_styled c :
  c ∈ cols → ∃ x, cells ws5 !! (1%positive, c) = Some x ∧ header_style x.
Proof.
  intros Hc. unfold ws5, ws4.
  rewrite !paint_skip.
  - apply paint_keeps; [by intros x [??]|].
    apply paint_sets; [done|]. apply list_elem_of_fmap. eauto.
  - intros [[_ [k Hk]]%elem_of_range _]%elem_of_grid. lia.
  - intros [[_ [k Hk]]%elem_of_range _]%elem_of_grid. lia.
Qed.

Lemma rect_centered q :
  q ∈ rect → ∃ x, cells ws5 !! q = Some x ∧ cell_alignment x = CENTER.
Proof.
  intros Hq. do 2 (apply paint_keeps; [by intros x ?|]). by apply paint_sets.
Qed.

Lemma evens_filled q :
  q ∈ evens → ∃ x, cells ws5 !! q = Some x ∧ cell_fill x = EVEN_FILL.
Proof.
  intros Hq. unfold ws5. rewrite paint_skip; [by apply paint_sets|].
  destruct q as [r c]. apply elem_of_grid in Hq as [Hr _].
  intros [Hr' _]%elem_of_grid. by eapply range_2_3_disjoint.
Qed.

Lemma odds_filled q :
  q ∈ odds → ∃ x, cells ws5 !! q = Some x ∧ cell_fill x = ODD_FILL.
Proof. intros Hq. by apply paint_sets. Qed.

Lemma well_formed_ws5 : well_formed ws5.
Proof. by repeat apply paint_well_formed. Qed.

Lemma styled_styled : styled (styled ws) = styled ws.
Proof.
  rewrite styled_eq. unfold styled.
  pose proof area_ws5 as (H1 & H2 & H3)%area_eq.
  pose proof H2 as H2'. rewrite Hmin in H2'.
  assert (header_cells ws5 = ws5) as ->.
  { rewrite header_cells_paint, H2, H3, Hmin. fold C cols head.
    apply paint_id, Forall_forall.
    intros q (c & -> & Hc)%list_elem_of_fmap.
    destruct (head_styled c Hc) as (x & Hx & Hf & Hp).
    exists x. split; [done|]. destruct x. simpl in *. by subst. }
  assert (centered_cells ws5 = ws5) as ->.
  { unfold centered_cells. apply paint_id, Forall_forall. intros q Hq.
    unfold iter_rows in Hq. destruct (current_row ws5 =? 0)%N.
    { by apply elem_of_nil in Hq. }
    rewrite H1, H3 in Hq. destruct (rect_centered q Hq) as (x & Hx & Ha).
    exists x. split; [done|]. destruct x. simpl in *. by subst. }
  assert (banded_cells 2 EVEN_FILL ws5 = ws5) as ->.
  { rewrite (banded_cells_paint _ _ ws5 H2'), H1, H3.
    apply paint_id, Forall_forall. intros q Hq.
    destruct (evens_filled q Hq) as (x & Hx & Ha).
    exists x. split; [done|]. destruct x. simpl in *. by subst. }
  rewrite (banded_cells_paint _ _ ws5 H2'), H1, H3.
  apply paint_id, Forall_forall. intros q Hq.
  destruct (odds_filled q Hq) as (x & Hx & Ha).
  exists x. split; [done|]. destruct x. simpl in *. by subst.
Qed.

End Styled.

(** *** The column dimensions *)

Lemma fix_width_loop cols dh w :
  for_each
    (λ '(dim_holder, w) the_col,
       l ← get_column_letter the_col;
       let dim_holder' :=
         <[l := ColumnDimension the_col the_col 25]> dim_holder in
       Ok (dim_holder', with_column_dimensions dim_holder' w))
    cols (dh, w)
  = dh' ← dimensions cols dh;
    Ok (dh', match cols with [] => w | _ => with_column_dimensions dh' w end).
Proof.
  revert dh w. induction cols as [|c cols IH]; intros dh w; [done|].
  unfold dimensions. simpl.
  destruct (get_column_letter c) as [l|e]; [|done].
  rewrite !bind_Ok, IH. unfold dimensions.
  destruct (for_each _ cols _) as [dh'|e] eqn:E; [|done].
  rewrite !bind_Ok. destruct cols; [|done]. simpl in E. congruence.
Qed.

Lemma range_nonempty lo hi :
  (lo ≤ hi)%positive → range lo (Pos.succ hi) 1 ≠ [].
Proof.
  intros H Hnil. assert (lo ∈ range lo (Pos.succ hi) 1) as Hin.
  { apply elem_of_range_1. lia. }
  rewrite Hnil in Hin. by apply elem_of_nil in Hin.
Qed.

Lemma fix_width_eq ws :
  fix_width ws =
  dh ← dimensions (range (min_column ws) (Pos.succ (max_column ws)) 1) ∅;
  Ok (with_column_dimensions dh ws).
Proof.
  unfold fix_width. rewrite fix_width_loop.
  pose proof (range_nonempty _ _ (min_column_max_column ws)) as Hne.
  destruct (range _ _ _); [done|].
  unfold mbind, except_bind. by destruct (dimensions _ _).
Qed.

(** *** The loops and the last row *)

Lemma for_each_Ok {A S} (f : S → A → S) l s :
  for_each (λ s x, Ok (f s x)) l s = Ok (foldl f s l).
Proof. revert s. induction l as [|x l IH]; intros s; [done|]. apply IH. Qed.

Lemma on_cell_eq r c g ws :
  on_cell r c g ws =
  if (r <=? MAX_ROW)%positive then Ok (put_cell r c g ws) else Err ValueError.
Proof. done. Qed.

Lemma on_cell_row_1 c g ws : on_cell 1 c g ws = Ok (put_cell 1 c g ws).
Proof. done. Qed.

(** A loop over places comes to its end when no place is beyond the last
    row, and then it is a painting. *)
Lemma for_each_on_cell g ps ws :
  for_each (λ w '(r, c), on_cell r c g w) ps ws =
  if forallb (λ q : positive * positive, (q.1 <=? MAX_ROW)%positive) ps
  then Ok (paint g ps ws) else Err ValueError.
Proof.
  revert ws. induction ps as [|[r c] ps IH]; intros ws; [done|].
  cbn [for_each forallb fst]. rewrite on_cell_eq.
  destruct (r <=? MAX_ROW)%positive; [|done].
  rewrite bind_Ok. apply IH.
Qed.

Lemma put_cell_max_row r c g ws :
  (r ≤ max_row ws)%positive → max_row (put_cell r c g ws) = max_row ws.
Proof.
  intros Hr. apply max_row_eq.
  - intros r' c' [[= -> ->]|H]%put_cell_is_Some; [done|by eapply max_row_ge].
  - destruct (max_row_in ws) as [?|[c' H]]; [by left|right].
    exists c'. apply put_cell_is_Some. by right.
Qed.

Lemma paint_max_row g ps ws :
  Forall (λ q, (q.1 ≤ max_row ws)%positive) ps →
  max_row (paint g ps ws) = max_row ws.
Proof.
  revert ws. induction ps as [|[r c] ps IH]; intros ws H; [done|].
  apply Forall_cons in H as [Hp Hps]. rewrite paint_cons. simpl in *.
  rewrite IH; rewrite put_cell_max_row by done; done.
Qed.

Lemma set_header_eq ws : set_header ws = Ok (header_cells ws).
Proof.
  unfold set_header, header_cells.
  generalize (range (min_column ws) (Pos.succ (max_column ws)) 1).
  intros cols. revert ws. induction cols as [|c cols IH]; intros ws; [done|].
  cbn [for_each foldl].
  rewrite on_cell_row_1, bind_Ok, on_cell_row_1, bind_Ok. apply IH.
Qed.

Lemma header_cells_max_row ws : max_row (header_cells ws) = max_row ws.
Proof.
  rewrite header_cells_paint. apply paint_max_row, Forall_forall.
  intros q (c & -> & _)%list_elem_of_fmap. simpl. lia.
Qed.

Lemma iter_rows_le ws q : q ∈ iter_rows ws → (q.1 ≤ max_row ws)%positive.
Proof.
  unfold iter_rows. destruct (current_row ws =? 0)%N.
  { by intros ?%elem_of_nil. }
  destruct q as [r c]. fold (grid (range 1 (Pos.succ (max_row ws)) 1)
                               (range 1 (Pos.succ (max_column ws)) 1)).
  by intros [[_ ?]%elem_of_range_1 _]%elem_of_grid.
Qed.

Lemma center_all_eq ws :
  center_all ws =
  if forallb (λ q : positive * positive, (q.1 <=? MAX_ROW)%positive) (iter_rows ws)
  then Ok (centered_cells ws) else Err ValueError.
Proof. apply for_each_on_cell. Qed.

Lemma centered_cells_max_row ws : max_row (centered_cells ws) = max_row ws.
Proof.
  apply (paint_max_row (with_alignment CENTER)), Forall_forall.
  intros q. apply iter_rows_le.
Qed.

Lemma color_rows_eq first p ws :
  color_rows first p ws =
  if forallb (λ r, (r <=? MAX_ROW)%positive)
       (range first (Pos.succ (max_row ws)) 2)
  then Ok (banded_cells first p ws) else Err ValueError.
Proof.
  unfold color_rows, banded_cells.
  generalize (range first (Pos.succ (max_row ws)) 2). intros rows. revert ws.
  induction rows as [|r rows IH]; intros ws; [done|].
  cbn [for_each foldl forallb].
  assert (for_each (λ w' the_col, on_cell r the_col (with_fill p) w')
            (range 1 (Pos.succ (max_column ws)) 1) ws
          = if (r <=? MAX_ROW)%positive
            then Ok (foldl (λ w' the_col, put_cell r the_col (with_fill p) w')
                       ws (range 1 (Pos.succ (max_column ws)) 1))
            else Err ValueError) as ->.
  { pose proof (range_nonempty 1 (max_column ws) (Pos.le_1_l _)) as Hne.
    unfold on_cell. destruct (r <=? MAX_ROW)%positive.
    - apply (for_each_Ok (λ w' the_col, put_cell r the_col (with_fill p) w')).
    - by destruct (range 1 (Pos.succ (max_column ws)) 1). }
  destruct (r <=? MAX_ROW)%positive; [|done]. rewrite bind_Ok. apply IH.
Qed.

Lemma banded_cells_max_row first p ws :
  max_row (banded_cells first p ws) = max_row ws.
Proof.
  unfold banded_cells.
  assert (∀ rows w M, max_row w = M → Forall (λ r, (r ≤ M)%positive) rows →
    max_row
      (foldl (λ w the_row,
                foldl (λ w' the_col, put_cell the_row the_col (with_fill p) w')
                  w (range 1 (Pos.succ (max_column w)) 1)) w rows) = M) as H.
  { induction rows as [|r rows IH]; intros w M HM Hr; [done|].
    apply Forall_cons in Hr as [Hr Hrows]. cbn [foldl]. apply IH; [|done].
    rewrite row_paint, paint_max_row; [done|].
    apply Forall_forall. intros q (c & -> & _)%list_elem_of_fmap.
    simpl. by rewrite HM. }
  apply H; [done|]. apply Forall_forall. by intros r [[_ ?] _]%elem_of_range.
Qed.

Lemma forallb_last_row {A} (f : A → positive) l R :
  (R ≤ MAX_ROW)%positive → (∀ x, x ∈ l → (f x ≤ R)%positive) →
  forallb (λ x, (f x <=? MAX_ROW)%positive) l = true.
Proof.
  intros HR Hl. apply forallb_forall. intros x Hx%list_elem_of_In.
  apply Pos.leb_le. etrans; [by apply Hl|done].
Qed.

(** A sheet with a row beyond the last: one of the two banding loops
    comes to that row. *)
Lemma beyond_last_row R :
  (MAX_ROW < R)%positive →
  forallb (λ r, (r <=? MAX_ROW)%positive) (range 2 (Pos.succ R) 2) = true →
  forallb (λ r, (r <=? MAX_ROW)%positive) (range 3 (Pos.succ R) 2) = false.
Proof.
  intros HR E2. apply not_true_is_false. intros E3.
  rewrite forallb_forall in E2, E3.
  assert ((3 ≤ R)%positive) as H3.
  { apply Pos.lt_le_incl. etrans; [|done]. done. }
  assert (¬ (R ≤ MAX_ROW)%positive) as Hno by (by apply Pos.lt_nle).
  destruct Hno. apply Pos.leb_le.
  destruct (Z.even (Z.pos R)) eqn:Hev.
  - apply E2, list_elem_of_In, elem_of_range_even.
    split; [split; [|done]|done]. etrans; [|done]. done.
  - apply E3, list_elem_of_In, elem_of_range_odd. done.
Qed.

(** The formatter, stage by stage: the widths, and then the three loops,
    which come to their end unless the sheet has a row beyond the
    last. *)
Lemma format_sheet_eq ws :
  format_sheet ws =
  dh ← dimensions (range (min_column ws) (Pos.succ (max_column ws)) 1) ∅;
  if (max_row ws <=? MAX_ROW)%positive
  then Ok (styled (with_column_dimensions dh ws)) else Err ValueError.
Proof.
  unfold format_sheet. rewrite fix_width_eq.
  destruct (dimensions _ _) as [dh|e]; [|done]. rewrite !bind_Ok.
  change (max_row ws) with (max_row (with_column_dimensions dh ws)).
  generalize (with_column_dimensions dh ws). clear ws dh. intros w1.
  rewrite set_header_eq, bind_Ok.
  pose proof (header_cells_max_row w1) as H2.
  unfold styled. generalize dependent (header_cells w1). intros w2 H2.
  rewrite center_all_eq.
  pose proof (centered_cells_max_row w2) as H3.
  pose proof (banded_cells_max_row 2 EVEN_FILL (centered_cells w2)) as H4.
  rewrite H2 in H3. rewrite H3 in H4.
  destruct (Pos.leb_spec (max_row w1) MAX_ROW) as [Hle|Hgt].
  - rewrite (forallb_last_row _ _ _ Hle).
    2:{ intros q Hq%iter_rows_le. by rewrite <- H2. }
    rewrite bind_Ok, color_rows_eq, (forallb_last_row _ _ _ Hle).
    2:{ intros r [[_ ?] _]%elem_of_range. by rewrite <- H3. }
    rewrite bind_Ok, color_rows_eq, (forallb_last_row _ _ _ Hle); [done|].
    intros r [[_ ?] _]%elem_of_range. by rewrite <- H4.
  - destruct (forallb _ (iter_rows w2)); [|done].
    rewrite bind_Ok, color_rows_eq.
    destruct (forallb _ (range 2 _ 2)) eqn:E2; [|done].
    rewrite bind_Ok, color_rows_eq, H4.
    rewrite H3 in E2. by rewrite (beyond_last_row _ Hgt E2).
Qed.

Lemma styled_area ws :
  well_formed ws → min_column ws = 1%positive → area (styled ws) = area ws.
Proof. intros. rewrite styled_eq by done. by apply area_ws5. Qed.

Lemma styled_column_dimensions ws :
  well_formed ws → min_column ws = 1%positive →
  column_dimensions (styled ws) = column_dimensions ws.
Proof. intros. rewrite styled_eq by done. by rewrite !paint_column_dimensions. Qed.

(** Formatting a sheet again changes nothing, whenever the cells of the
    sheet start in column A. *)
Lemma format_sheet_twice ws :
  well_formed ws → min_column ws = 1%positive →
  format_sheet ws ≫= format_sheet = format_sheet ws.
Proof.
  intros Hwf Hmin. rewrite format_sheet_eq.
  destruct (dimensions _ _) as [dh|e] eqn:Hdh; [|done]. rewrite bind_Ok.
  destruct (max_row ws <=? MAX_ROW)%positive eqn:Hrow; [|done].
  set (w1 := with_column_dimensions dh ws).
  assert (well_formed w1) as Hwf1 by done.
  assert (min_column w1 = 1%positive) as Hmin1 by done.
  rewrite !bind_Ok. rewrite format_sheet_eq.
  pose proof (styled_area w1 Hwf1 Hmin1) as (-> & -> & ->)%area_eq.
  change (min_column w1) with (min_column ws).
  change (max_column w1) with (max_column ws).
  change (max_row w1) with (max_row ws).
  rewrite Hdh, bind_Ok, Hrow. f_equal.
  assert (with_column_dimensions dh (styled w1) = styled w1) as ->.
  { pose proof (styled_column_dimensions w1 Hwf1 Hmin1) as H.
    unfold with_column_dimensions. destruct (styled w1). simpl in *. by subst. }
  by apply styled_styled.
Qed.

Lemma dimensions_returns cols dh :
  Forall (λ c, (c ≤ 18278)%positive) cols → ∃ dh', dimensions cols dh = Ok dh'.
Proof.
  revert dh. induction cols as [|c cols IH]; intros dh Hc; [by exists dh|].
  apply Forall_cons in Hc as [Hc Hcols]. unfold dimensions. simpl.
  unfold get_column_letter. rewrite (proj2 (Z.leb_le _ _)) by lia.
  unfold mbind, except_bind. by apply IH.
Qed.

Lemma format_sheet_returns ws :
  (max_column ws ≤ 18278)%positive → (max_row ws ≤ MAX_ROW)%positive →
  ∃ ws', format_sheet ws = Ok ws'.
Proof.
  intros H Hrow. rewrite format_sheet_eq.
  destruct (dimensions_returns
              (range (min_column ws) (Pos.succ (max_column ws)) 1) ∅)
    as [dh ->].
  { apply Forall_forall. intros c Hc%elem_of_range_1. lia. }
  rewrite bind_Ok, (proj2 (Pos.leb_le _ _)) by done. by eexists.
Qed.

(** *** Appended rows *)

Lemma put_row_other r c row m q :
  q.1 ≠ r ∨ (q.2 < c)%positive → put_row r c row m !! q = m !! q.
Proof.
  revert c m. induction row as [|v row IH]; intros c m H; [done|].
  simpl. rewrite IH by lia. apply lookup_insert_ne.
  intros <-. simpl in H. lia.
Qed.


Lemma put_row_is_Some r c row m q :
  is_Some (put_row r c row m !! q) ↔
  (q.1 = r ∧ (c ≤ q.2)%positive ∧ Z.pos q.2 < Z.pos c + Z.of_nat (List.length row))
  ∨ is_Some (m !! q).
Proof.
  revert c m. induction row as [|v row IH]; intros c m; simpl.
  - split; [by right|]. intros [(_ & ? & ?)|?]; [lia|done].
  - rewrite IH, lookup_insert_is_Some'. destruct q as [r' c']. simpl. split.
    + intros [(-> & ? & ?)|[[= -> ->]|?]]; [left; lia|left; lia|by right].
    + intros [(-> & ? & ?)|?]; [|by right; right].
      destruct (decide (c' = c)) as [->|]; [right; by left|left; lia].
Qed.


Lemma mapM_Ok_length {A B} (f : A → except B) l ys :
  mapM f l = Ok ys → List.length ys = List.length l.
Proof.
  revert ys. induction l as [|x l IH]; intros ys; simpl.
  - by intros [= <-].
  - destruct (f x) as [y|]; [|done]. rewrite bind_Ok.
    destruct (mapM f l) as [ys'|]; [|done]. rewrite bind_Ok.
    intros [= <-]. simpl. by rewrite (IH ys').
Qed.

Lemma mapM_Err {A B} (f : A → except B) l x e :
  x ∈ l → f x = Err e → ∃ e', mapM f l = Err e' ∧ ∃ y, y ∈ l ∧ f y = Err e'.
Proof.
  intros Hx He. induction Hx as [x l|x x' l Hx IH]; simpl.
  - rewrite He. exists e. split; [done|]. exists x. split; [by left|done].
  - destruct (f x') as [y'|e'] eqn:E.
    + rewrite bind_Ok. destruct (IH He) as (e1 & -> & y & Hy & Hfy).
      exists e1. split; [done|]. exists y. split; [by right|done].
    + exists e'. split; [done|]. exists x'. split; [by left|done].
Qed.

Lemma bind_value_Err v e :
  bind_value v = Err e → e = ValueError ∨ e = IllegalCharacterError.
Proof.
  destruct v as [[| | |s| |]|]; simpl; try done; try (intros [= <-]; by left).
  unfold check_string. destruct (legal_string _); [done|].
  intros [= <-]. by right.
Qed.


Lemma truncate_length n s : (N.of_nat (String.length (truncate n s)) ≤ n)%N.
Proof.
  revert n. induction s as [|c s IH]; intros n; cbn [truncate String.length].
  - lia.
  - destruct (N.eqb_spec n 0) as [->|Hne]; cbn [String.length]; [lia|].
    specialize (IH (N.pred n)). lia.
Qed.

Lemma append_spec row ws ws' :
  append row ws = Ok ws' →
  let r := N.succ_pos (current_row ws) in
  ∃ values, mapM bind_value row = Ok values ∧
    title ws' = title ws ∧
    current_row ws' = N.pos r ∧
    cells ws' = put_row r 1 values (cells ws).
Proof.
  unfold append. destruct (mapM bind_value row) as [values|]; [|done].
  rewrite bind_Ok. intros [= <-]. by exists values.
Qed.

Lemma append_tidy row ws ws' :
  append row ws = Ok ws' →
  well_formed ws ∧ starts_left ws → well_formed ws' ∧ starts_left ws'.
Proof.
  intros (values & _ & _ & Hcr & Hcells)%append_spec [Hwf Hleft]. split.
  - intros r c. rewrite Hcells, Hcr, put_row_is_Some. simpl.
    intros [(-> & _)|H%Hwf]; lia.
  - intros r c. rewrite Hcells, !put_row_is_Some. simpl.
    intros [(-> & ? & ?)|H%Hleft]; [left; lia|by right].
Qed.

Lemma append_rows_tidy rows ws ws' :
  append_rows rows ws = Ok ws' →
  well_formed ws ∧ starts_left ws → well_formed ws' ∧ starts_left ws'.
Proof.
  revert ws. induction rows as [|row rows IH]; intros ws; simpl.
  - by intros [= <-].
  - destruct (append row ws) as [ws1|e] eqn:E; [|done]. rewrite bind_Ok.
    intros H Hws. eapply IH; [done|]. by eapply append_tidy.
Qed.

Lemma new_sheet_tidy t : well_formed (new_sheet t) ∧ starts_left (new_sheet t).
Proof.
  split; intros r c; simpl; rewrite lookup_empty; by intros [? ?].
Qed.

Lemma starts_left_min_column ws : starts_left ws → min_column ws = 1%positive.
Proof.
  intros Hleft. destruct (min_column_in ws) as [[_ ->]|[r H]]; [done|].
  apply Hleft, min_column_le in H. lia.
Qed.

Lemma append_rows_title rows ws ws' :
  append_rows rows ws = Ok ws' → title ws' = title ws.
Proof.
  revert ws. induction rows as [|row rows IH]; intros ws; simpl.
  - by intros [= <-].
  - destruct (append row ws) as [ws1|e] eqn:E; [|done]. rewrite bind_Ok.
    intros ->%IH. by apply append_spec in E as (? & _ & -> & _).
Qed.


(** *** What the formatter keeps *)

Lemma header_cells_title ws : title (header_cells ws) = title ws.
Proof. by rewrite header_cells_paint, paint_title. Qed.

Lemma centered_cells_title ws : title (centered_cells ws) = title ws.
Proof. apply paint_title. Qed.

Lemma banded_cells_title first p ws : title (banded_cells first p ws) = title ws.
Proof.
  unfold banded_cells. generalize (range first (Pos.succ (max_row ws)) 2).
  intros rows. revert ws. induction rows as [|r rows IH]; intros ws; [done|].
  simpl. by rewrite IH, row_paint, paint_title.
Qed.

Lemma format_sheet_title ws ws' : format_sheet ws = Ok ws' → title ws' = title ws.
Proof.
  rewrite format_sheet_eq. destruct (dimensions _ _) as [dh|]; [|done].
  destruct (max_row ws <=? MAX_ROW)%positive; [|done].
  intros [= <-]. unfold styled.
  by rewrite !banded_cells_title, centered_cells_title, header_cells_title.
Qed.


(** *** The sheets that are formatted *)

(** The two properties that the formatter relies on are kept by all that
    the program does to a sheet. *)
Lemma append_rows_well_formed rows ws ws' :
  append_rows rows ws = Ok ws' → well_formed ws → well_formed ws'.
Proof.
  revert ws. induction rows as [|row rows IH]; intros ws; simpl.
  - by intros [= <-].
  - destruct (append row ws) as [ws1|e] eqn:E; [|done]. rewrite bind_Ok.
    intros H Hwf. apply (IH _ H).
    apply append_spec in E as (values & _ & _ & Hcr & Hcells).
    intros r c. rewrite Hcells, Hcr, put_row_is_Some. simpl.
    intros [(-> & _)|?%Hwf]; lia.
Qed.

Lemma append_rows_min_column rows ws ws' :
  append_rows rows ws = Ok ws' → min_column ws = 1%positive →
  min_column ws' = 1%positive.
Proof.
  revert ws. induction rows as [|row rows IH]; intros ws; simpl.
  - by intros [= <-].
  - destruct (append row ws) as [ws1|e] eqn:E; [|done]. rewrite bind_Ok.
    intros H Hmin. apply (IH _ H).
    apply append_spec in E as (values & _ & _ & Hcr & Hcells).
    apply min_column_eq; [intros; lia|].
    destruct (min_column_in ws) as [[Hempty _]|[r Hr]].
    + destruct values as [|v values].
      * left. by rewrite Hcells, Hempty.
      * right. exists (N.succ_pos (current_row ws)).
        rewrite Hcells, put_row_is_Some. left. simpl. lia.
    + right. exists r. rewrite Hcells, put_row_is_Some. right.
      by rewrite <- Hmin.
Qed.

Lemma styled_well_formed ws :
  well_formed ws → min_column ws = 1%positive → well_formed (styled ws).
Proof. intros. rewrite styled_eq by done. by repeat apply paint_well_formed. Qed.

Lemma format_sheet_tidy ws ws' :
  well_formed ws → min_column ws = 1%positive → format_sheet ws = Ok ws' →
  well_formed ws' ∧ area ws' = area ws.
Proof.
  intros Hwf Hmin. rewrite format_sheet_eq.
  destruct (dimensions _ _) as [dh|]; [|done].
  destruct (max_row ws <=? MAX_ROW)%positive; [|done].
  intros [= <-]. split.
  - by apply styled_well_formed.
  - by apply (styled_area (with_column_dimensions dh ws)).
Qed.

(** C8.  The sheets that the program formats have their first cells in
    column A and a row counter that is not behind their cells: a new
    sheet is such a sheet, and so is what [ws.append] and the formatter
    make of one.  For every such sheet, whatever its history, formatting
    it a second time changes nothing: the widths, the fonts, the fills and
    the alignments of all cells are those of the first time.  The
    formatter returns unless a column is beyond [ZZZ] or a row beyond the
    last, which stops it both times alike. *)
Theorem format_sheet_idempotent (ws : worksheet) :
  well_formed ws → min_column ws = 1%positive →
  format_sheet ws ≫= format_sheet = format_sheet ws ∧
  ((max_column ws ≤ 18278)%positive → (max_row ws ≤ MAX_ROW)%positive →
     ∃ ws', format_sheet ws = Ok ws' ∧ format_sheet ws' = Ok ws') ∧
  (∀ t, well_formed (new_sheet t) ∧ min_column (new_sheet t) = 1%positive) ∧
  (∀ rows ws', append_rows rows ws = Ok ws' →
     well_formed ws' ∧ min_column ws' = 1%positive) ∧
  (∀ ws', format_sheet ws = Ok ws' →
     well_formed ws' ∧ min_column ws' = 1%positive).
Proof.
  intros Hwf Hmin.
  pose proof (format_sheet_twice ws Hwf Hmin) as H.
  split_and!; [done| | | |].
  - intros Hc Hr. destruct (format_sheet_returns ws Hc Hr) as [ws' Hfmt].
    exists ws'. split; [done|]. by rewrite Hfmt, bind_Ok in H.
  - intros t. split; [apply new_sheet_tidy|done].
  - intros rows ws' Hws'. split.
    + by eapply append_rows_well_formed.
    + by eapply append_rows_min_column.
  - intros ws' Hfmt.
    destruct (format_sheet_tidy ws ws' Hwf Hmin Hfmt) as [? (_ & -> & _)%area_eq].
    done.
Qed.

(** ** Data frames *)

Lemma as_records_records records : as_records (JArr (JObj <$> records)) = Some records.
Proof.
  unfold as_records. apply mapM_Some.
  induction records as [|r records IH]; by constructor.
Qed.

Lemma add_label_spec labels k :
  ∃ more, add_label labels k = labels ++ more ∧
    (k ∈ labels → more = []) ∧
    (∀ k', k' ∈ add_label labels k ↔ k' ∈ labels ∨ k' = k) ∧
    (NoDup labels → NoDup (add_label labels k)).
Proof.
  unfold add_label. case_bool_decide as Hk.
  - exists []. rewrite app_nil_r. split_and!; try done.
    intros k'. split; [by left|]. by intros [?| ->].
  - exists [k]. split_and!; try done.
    + intros k'. rewrite elem_of_app, list_elem_of_singleton. done.
    + intros Hnd. apply NoDup_app. split_and!; [done| |apply NoDup_singleton].
      intros k' Hk' ->%list_elem_of_singleton. done.
Qed.

Lemma add_labels_spec labels ks :
  ∃ more, foldl add_label labels ks = labels ++ more ∧
    ((∀ k, k ∈ ks → k ∈ labels) → more = []) ∧
    (∀ k', k' ∈ foldl add_label labels ks ↔ k' ∈ labels ∨ k' ∈ ks) ∧
    (NoDup labels → NoDup (foldl add_label labels ks)).
Proof.
  revert labels. induction ks as [|k ks IH]; intros labels; simpl.
  - exists []. rewrite app_nil_r. split_and!; try done.
    intros k'. split; [by left|]. by intros [?|?%elem_of_nil].
  - destruct (add_label_spec labels k) as (m1 & E1 & Hm1 & Hin1 & Hnd1).
    destruct (IH (add_label labels k)) as (m2 & E2 & Hm2 & Hin2 & Hnd2).
    exists (m1 ++ m2). split_and!.
    + by rewrite E2, E1, <- app_assoc.
    + intros Hks. rewrite Hm1, Hm2; [done| |apply Hks; by left].
      intros k' Hk'. apply Hin1. left. apply Hks. by right.
    + intros k'. rewrite Hin2, Hin1, elem_of_cons. tauto.
    + auto.
Qed.


Lemma record_columns_spec labels records :
  ∃ more,
    foldl (λ labels r, foldl add_label labels (dict_keys r)) labels records
      = labels ++ more ∧
    ((∀ r k, r ∈ records → k ∈ dict_keys r → k ∈ labels) → more = []) ∧
    (∀ k, k ∈ foldl (λ labels r, foldl add_label labels (dict_keys r))
                labels records
          ↔ k ∈ labels ∨ ∃ r, r ∈ records ∧ k ∈ dict_keys r) ∧
    (NoDup labels →
       NoDup (foldl (λ labels r, foldl add_label labels (dict_keys r))
                labels records)).
Proof.
  revert labels. induction records as [|r records IH]; intros labels; simpl.
  - exists []. rewrite app_nil_r. split_and!; try done.
    intros k. split; [by left|]. by intros [?|(? & ?%elem_of_nil & _)].
  - destruct (add_labels_spec labels (dict_keys r)) as (m1 & E1 & Hm1 & Hin1 & Hnd1).
    destruct (IH (foldl add_label labels (dict_keys r)))
      as (m2 & E2 & Hm2 & Hin2 & Hnd2).
    exists (m1 ++ m2). split_and!.
    + by rewrite E2, E1, <- app_assoc.
    + intros Hks. rewrite Hm1, Hm2; [done| |].
      * intros r' k Hr' Hk. apply Hin1. left. apply (Hks r'); [by right|done].
      * intros k Hk. apply (Hks r); [by left|done].
    + intros k. rewrite Hin2, Hin1. split.
      * intros [[?|?]|(r' & ? & ?)]; [by left|right..].
        -- exists r. split; [by left|done].
        -- exists r'. split; [by right|done].
      * intros [?|(r' & [->|?]%elem_of_cons & ?)]; [by left; left|by left; right|].
        right. by exists r'.
    + auto.
Qed.

Section Records.

Context (w : world).




End Records.

(** ** The report file *)

#[global] Instance same_report_refl : Reflexive same_report.
Proof. by intros st. Qed.
#[global] Instance same_report_trans : Transitive same_report.
Proof. intros a b c [??] [??]. split; congruence. Qed.

Lemma titles_ok_app_l l1 l2 : titles_ok (l1 ++ l2) → titles_ok l1.
Proof.
  unfold titles_ok. rewrite Forall_app, fmap_app, NoDup_app. tauto.
Qed.

Lemma report_commands_titles_ok : titles_ok report_commands.
Proof.
  split.
  - repeat constructor; by vm_compute.
  - apply (bool_decide_unpack _). by vm_compute.
Qed.

Lemma sheet_index_app wb ws :
  title ws ∉ sheetnames wb →
  sheet_index (title ws) (wb ++ [ws]) = Some (List.length wb).
Proof.
  induction wb as [|ws0 wb IH]; simpl.
  - intros _. by rewrite String.eqb_refl.
  - intros [Hne Hin]%not_elem_of_cons.
    rewrite (proj2 (String.eqb_neq _ _)) by done. by rewrite IH.
Qed.

Lemma avoid_duplicate_name_fresh numbered names value :
  lower value ∉ lower <$> names →
  avoid_duplicate_name numbered names value = value.
Proof.
  intros H. unfold avoid_duplicate_name.
  destruct (existsb _ names) eqn:E; [|done].
  apply existsb_exists in E as (n & Hn%list_elem_of_In & Heq%String.eqb_eq).
  destruct H. rewrite <- Heq. apply list_elem_of_fmap. eauto.
Qed.

Section Report.

Context (w : world).

Lemma check_connection_report : preserves same_report (check_connection w).
Proof. unfold check_connection. step_preserves. Qed.

Lemma check_user_rights_report c : preserves same_report (check_user_rights c).
Proof. unfold check_user_rights. step_preserves. Qed.

Lemma run_command_report c : preserves same_report (run_command w c).
Proof.
  unfold run_command, requests_post, json_loads.
  pose proof check_connection_report. pose proof (check_user_rights_report c).
  step_preserves.
Qed.

(** [__init__] raises the flag and leaves the disk alone: a client that
    is made where there is no report file starts its report without
    one. *)
Lemma init_starts_report st st' :
  init w st = (Ret tt, st') → first_run st' = Some true ∧ disk st' = disk st.
Proof.
  pose proof check_connection_report as Hprobe.
  pose proof run_command_report as Hrun.
  assert (preserves same_report (get_token w)) as Htoken.
  { unfold get_token, requests_post, json_loads. step_preserves. }
  assert (preserves same_report (get_user_role w)) as Hrole.
  { unfold get_user_role. step_preserves. }
  unfold init. rewrite M_bind_run.
  destruct (get_token w st) as [[token| |] st1] eqn:E1; [|done..].
  apply Htoken in E1 as [E1 _]. rewrite M_bind_run. unfold update at 1.
  rewrite M_bind_run.
  destruct (get_user_role w (set_token_id token st1)) as [[role| |] st2] eqn:E2;
    [|done..].
  apply Hrole in E2 as [E2 _]. unfold_M. intros [= <-]. simpl in *.
  split; [done|congruence].
Qed.

Lemma gather_report c : preserves same_report (gather w c).
Proof.
  pose proof run_command_report.
  unfold gather, format_lssystem_to_excel. step_preserves.
Qed.

(** The workbook that a command starts with: the sheets so far, as the
    reader returns them, and a new sheet with the name of the command,
    which is the one written to.  When the reader does not take the file
    the command ends there. *)
Lemma open_sheet_spec done c st :
  keeps_titles w → progress done st → titles_ok (done ++ [c]) →
  (∃ wb st1,
     open_sheet w c st = (Ret (wb ++ [new_sheet c], List.length wb), st1) ∧
     sheetnames wb = done ∧ disk st1 = disk st ∧ first_run st1 = Some false)
  ∨ (∃ e st1, open_sheet w c st = (Raise e, st1) ∧ disk st1 = disk st).
Proof.
  intros Hread [Hfirst Hdisk] [Hvalid Hnd].
  apply Forall_app in Hvalid as [_ [Hc Hlow]%Forall_singleton].
  rewrite fmap_app in Hnd. apply NoDup_app in Hnd as (_ & Hnew & _).
  assert (lower c ∉ lower <$> done) as Hfresh.
  { intros Hin. apply (Hnew _ Hin). by left. }
  assert (c ≠ "") as Hne.
  { intros ->. done. }
  unfold open_sheet. rewrite M_bind_run. unfold attribute. rewrite Hfirst.
  destruct Hdisk as [[-> Hfile]|(Hdone & wb0 & Hfile & Hnames)].
  - left. exists [], (set_first_run false st).
    assert (set_title (numbered w) (sheetnames Workbook) c (new_sheet "Sheet")
            = Ok (new_sheet c)) as Htitle.
    { unfold set_title. rewrite Hc.
      change (title (new_sheet "Sheet")) with "Sheet".
      destruct (String.eqb_spec "Sheet" c) as [<-|_]; [done|].
      rewrite avoid_duplicate_name_fresh; [done|].
      change (lower <$> sheetnames Workbook) with ["sheet"].
      by intros H%list_elem_of_singleton. }
    rewrite bool_decide_eq_true_2 by done.
    rewrite Htitle. by unfold_M.
  - rewrite bool_decide_eq_false_2 by done.
    unfold load_workbook. unfold_M. cbn [disk record_event trace]. rewrite Hfile.
    destruct (load w (trace st) wb0) as [wb|e] eqn:Hload.
    2:{ right. by exists e, (record_event (Load (master_file st)) st). }
    apply Hread in Hload. rewrite Hnames in Hload.
    left. exists wb, (record_event (Load (master_file st)) st).
    assert (create_sheet (numbered w) c wb = Ok (wb ++ [new_sheet c]))
      as Hcreate.
    { unfold create_sheet, set_title.
      rewrite (proj2 (String.eqb_neq c "")) by done. rewrite Hc.
      change (title (new_sheet "")) with "".
      rewrite (proj2 (String.eqb_neq "" c)) by done.
      by rewrite avoid_duplicate_name_fresh by (by rewrite Hload). }
    rewrite Hcreate.
    pose proof (sheet_index_app wb (new_sheet c)) as Hidx.
    change (title (new_sheet c)) with c in Hidx.
    rewrite Hidx.
    { split_and!; [done..|]. simpl. rewrite Hfirst.
      by rewrite bool_decide_eq_false_2. }
    rewrite Hload.
    intros Hin. apply Hfresh. apply list_elem_of_fmap. eauto.
Qed.

(** One command: when it is processed the file has one sheet more, with
    its name, at the end; when it fails the file is as before, unless
    the failure is that of a save that had begun to write. *)
Lemma parse_command_to_excel_progress done c st r st' :
  keeps_titles w → progress done st → titles_ok (done ++ [c]) →
  parse_command_to_excel w c st = (r, st') →
  match r with
  | Ret _ => progress (done ++ [c]) st'
  | _ => persisted (disk st') = persisted (disk st) ∨
         (r = Exit 2 ∧ disk st' = Damaged)
  end.
Proof.
  intros Hread Hprog Hok.
  destruct (open_sheet_spec done c st Hread Hprog Hok)
    as [(wb & st1 & Hopen & Hnames & Hd1 & Hf1)|(e & st1 & Hopen & Hd1)].
  2:{ unfold parse_command_to_excel. rewrite M_bind_run, Hopen.
      intros [= <- <-]. left. congruence. }
  unfold parse_command_to_excel. rewrite M_bind_run, Hopen. cbv beta iota.
  rewrite M_bind_run.
  destruct (gather w c st1) as [[rows|code|e] st2] eqn:Hg;
    apply gather_report in Hg as [Hd2 Hf2];
    [|intros [= <- <-]; left; congruence..].
  rewrite M_bind_run. rewrite lookup_app_r, Nat.sub_diag by done.
  simpl. rewrite M_bind_run. unfold lift at 1.
  destruct (append_rows rows (new_sheet c)) as [ws1|e] eqn:Hws1;
    [|intros [= <- <-]; left; congruence].
  rewrite M_bind_run. unfold lift at 1.
  destruct (format_sheet ws1) as [ws2|e] eqn:Hws2;
    [|intros [= <- <-]; left; congruence].
  apply append_rows_title in Hws1. apply format_sheet_title in Hws2.
  unfold save_excel. unfold_M. simpl.
  destruct (save w _ _); intros [= <- <-]; simpl.
  - split; simpl.
    + rewrite Hf2, Hf1. f_equal. symmetry. apply bool_decide_eq_false_2.
      by destruct done.
    + right. split; [by destruct done|]. eexists. split; [done|].
      replace (List.length wb) with (List.length wb + 0)%nat by lia.
      rewrite insert_app_r. simpl. unfold sheetnames in *.
      rewrite fmap_app, Hnames. simpl. by rewrite Hws2, Hws1.
  - left. congruence.
  - by right.
Qed.

Lemma report_app l1 l2 st :
  report w (l1 ++ l2) st = (report w l1 ≫= λ _, report w l2) st.
Proof.
  revert st. induction l1 as [|c l1 IH]; intros st; [done|].
  unfold report in *. simpl. rewrite !M_bind_run.
  destruct (parse_command_to_excel w c st) as [[[]|?|?] st1]; [|done..].
  rewrite IH. by rewrite M_bind_run.
Qed.

Lemma report_progress todo done st st' :
  keeps_titles w → titles_ok (done ++ todo) → progress done st →
  report w todo st = (Ret tt, st') → progress (done ++ todo) st'.
Proof.
  intros Hread.
  revert done st. induction todo as [|c todo IH]; intros done st Hok Hprog.
  - intros [= <-]. by rewrite app_nil_r.
  - unfold report. simpl. rewrite M_bind_run.
    destruct (parse_command_to_excel w c st) as [[[]|?|?] st1] eqn:E; [|done..].
    intros Hrest. replace (done ++ c :: todo) with ((done ++ [c]) ++ todo) in *
      by (by rewrite <- app_assoc).
    apply (IH _ st1); [done| |done].
    apply (parse_command_to_excel_progress done c st _ _ Hread Hprog) in E;
      [done|].
    by eapply titles_ok_app_l.
Qed.

(** C1, as the code has it.  In a run that starts without a report file,
    after the first [N] commands of the list have been processed the file
    is the one that the last save has written, from a workbook of exactly
    [N] sheets, with the names of these commands, in their order, all
    different.  The program gets each workbook but the first from the
    reader: the sheets are these as long as the reader returns the sheets
    of a file under the titles they were written with, which is what is
    asked of it here; whether it takes the file at all is the reader's,
    and the command ends with its exception when it does not.  When the
    next command fails, the whole run ends with that failure, and the
    file is still the one with these [N] sheets, unless the failure is
    that of the save itself after the file has been opened for writing:
    then the run ends with code 2 and the file is damaged. *)
Theorem sheets_follow_commands (st : state) (N : nat) (st1 : state) :
  keeps_titles w →
  first_run st = Some true → disk st = NoFile →
  report w (take N report_commands) st = (Ret tt, st1) →
  persisted (disk st1) = Some (take N report_commands) ∧
  NoDup (take N report_commands) ∧
  ∀ c r st2,
    report_commands !! N = Some c →
    parse_command_to_excel w c st1 = (r, st2) → r ≠ Ret tt →
    generate_excel_report w st = (r, st2) ∧
    (persisted (disk st2) = Some (take N report_commands) ∨
     (r = Exit 2 ∧ disk st2 = Damaged)).
Proof.
  intros Hread Hfirst Hfile Hrun.
  pose proof report_commands_titles_ok as Hok.
  rewrite <- (take_drop N report_commands) in Hok.
  assert (progress [] st) as Hstart by (split; [done|by left]).
  pose proof (report_progress _ [] st st1 Hread (titles_ok_app_l _ _ Hok)
                Hstart Hrun) as Hprog.
  simpl in Hprog.
  assert (persisted (disk st1) = Some (take N report_commands)) as Hfile1.
  { destruct Hprog as [_ [[-> ->]|(_ & wb & -> & <-)]]; done. }
  split_and!; [done| |].
  - destruct Hok as [_ Hnd]. rewrite fmap_app in Hnd.
    apply NoDup_app in Hnd as [Hnd _]. by apply NoDup_fmap_1 in Hnd.
  - intros c r st2 Hc Hparse Hr. split.
    + unfold generate_excel_report. fold (report w report_commands).
      rewrite <- (take_drop N report_commands) at 1.
      rewrite report_app, M_bind_run, Hrun.
      rewrite (drop_S _ _ _ Hc). unfold report at 1. simpl.
      rewrite M_bind_run, Hparse. by destruct r as [[]| |].
    + pose proof (parse_command_to_excel_progress _ c st1 r st2 Hread Hprog)
        as Hstep.
      rewrite <- (take_S_r _ _ _ Hc) in Hstep.
      pose proof report_commands_titles_ok as Hok'.
      rewrite <- (take_drop (S N) report_commands) in Hok'.
      specialize (Hstep (titles_ok_app_l _ _ Hok') Hparse).
      destruct r as [[]| |]; [done|..];
        (destruct Hstep as [Hsame|?]; [left; congruence|by right]).
Qed.

End Report.

(** ** The other lines of the role check *)

Lemma py_in_CopyOperator_roles role :
  py_in role CopyOperator_roles = true ↔
  role = "Administrator" ∨ role = "SecurityAdmin" ∨ role = "CopyOperator".
Proof.
  unfold py_in, CopyOperator_roles. simpl. rewrite !orb_true_iff, !String.eqb_eq.
  intuition congruence.
Qed.

(** The check reads the state and leaves it as it is. *)
Lemma check_user_rights_pure c st r st' :
  check_user_rights c st = (r, st') → st' = st.
Proof.
  unfold check_user_rights. unfold_M.
  repeat case_match; intros; by simplify_eq.
Qed.

Lemma check_user_rights_lifecycle c st role :
  classify c = Lifecycle → user_role st = Some role →
  check_user_rights c st =
    (if py_in role CopyOperator_roles then Ret true else Exit 5, st).
Proof.
  intros Hc Hr. unfold classify in Hc. unfold check_user_rights.
  destruct (startswith c "ls"); [done|].
  destruct (_ || _ || _ || startswith c "prestop"); [|by repeat case_match].
  unfold_M. rewrite Hr. by destruct (py_in role CopyOperator_roles).
Qed.

Lemma check_user_rights_unclassified c st :
  classify c = Unclassified → check_user_rights c st = (Ret false, st).
Proof.
  intros Hc. unfold classify in Hc. unfold check_user_rights.
  destruct (startswith c "ls"); [done|].
  destruct (_ || _ || _ || startswith c "prestop"); [done|].
  destruct (startswith c "add"), (startswith c "ch"), (startswith c "mk"),
    (startswith c "rm"), (c =? "expandvdisksize")%string,
    (c =? "movevdisk")%string; done.
Qed.

Section Calls.

Context (w : world).

(** The request of [run_command], once the probe has passed and the check
    has returned: it is sent whatever the check has returned. *)
Lemma run_command_sent c st st1 has_right token :
  check_connection w st = (Ret tt, st1) →
  check_user_rights c st1 = (Ret has_right, st1) →
  token_id st = Some token →
  let url := base_url st +:+ c in
  let headers := [("X-Auth-Token", token)] in
  run_command w c st =
    (match post w (trace st1) url headers with
     | Response status_code body =>
         if status_code =? 200 then
           match body with
           | Some j => Ret j
           | None => Raise ValueError
           end
         else Exit 3
     | NoResponse e => Raise e
     end, record_event (Post url headers) st1).
Proof.
  intros Hc Hcheck Ht url headers. unfold run_command.
  rewrite M_bind_run, Hc.
  pose proof Hc as [-> _]%check_connection_spec.
  rewrite M_bind_run, Hcheck.
  unfold requests_post, json_loads. unfold_M. simpl. rewrite Ht.
  subst url headers. unfold record_event. simpl.
  destruct (post w _ _ _) as [s [j|]|e];
    [by destruct (s =? 200), has_right..|done].
Qed.

(** The two ways of a call: it stops after the probe, without a result;
    or the probe has passed and one request has been sent. *)
Lemma run_command_cases c st r st' :
  run_command w c st = (r, st') →
  let probed := record_event (Connect (IP st) (port st)) st in
  (st' = probed ∧ ∀ a, r ≠ Ret a) ∨
  (∃ token, token_id st = Some token ∧
     check_connection w st = (Ret tt, probed) ∧
     st' = record_event (Post (base_url st +:+ c) [("X-Auth-Token", token)]) probed).
Proof.
  intros Hrun probed.
  destruct (check_connection w st) as [r1 st1] eqn:Hc.
  pose proof Hc as [-> Hr1]%check_connection_spec. fold probed in Hc.
  destruct Hr1 as [->|Hr1].
  - destruct (check_user_rights c probed) as [r2 st2] eqn:Hcheck.
    pose proof Hcheck as ->%check_user_rights_pure.
    destruct r2 as [b|code|e].
    + destruct (token_id st) as [token|] eqn:Ht.
      * right. exists token. split_and!; [done..|].
        rewrite (run_command_sent _ _ _ _ _ Hc Hcheck Ht) in Hrun.
        by injection Hrun as _ <-.
      * left. unfold run_command in Hrun.
        rewrite M_bind_run, Hc, M_bind_run, Hcheck in Hrun.
        unfold_M. change (token_id probed) with (token_id st) in Hrun.
        rewrite Ht in Hrun. by injection Hrun as <- <-.
    + left. unfold run_command in Hrun.
      rewrite M_bind_run, Hc, M_bind_run, Hcheck in Hrun.
      by injection Hrun as <- <-.
    + left. unfold run_command in Hrun.
      rewrite M_bind_run, Hc, M_bind_run, Hcheck in Hrun.
      by injection Hrun as <- <-.
  - left. unfold run_command in Hrun. rewrite M_bind_run, Hc in Hrun.
    destruct Hr1 as [->|[e ->]]; by injection Hrun as <- <-.
Qed.

Lemma run_command_returns c st a st' :
  run_command w c st = (Ret a, st') →
  ∃ token, token_id st = Some token ∧
    st' = record_event (Post (base_url st +:+ c) [("X-Auth-Token", token)])
            (record_event (Connect (IP st) (port st)) st).
Proof.
  intros [[_ H]|(token & ? & _ & ?)]%run_command_cases; [by destruct (H a)|eauto].
Qed.

(** X1.  For a command of category Lifecycle (it begins with [start],
    [stop], [prestart] or [prestop]) the check returns [True] exactly for
    the roles Administrator, SecurityAdmin and CopyOperator.  With any
    other role it leaves with code 5, and [run_command] sends no request
    for the command: it ends without a result, with the requests that were
    there before, and with code 5 once the probe has passed. *)
Theorem lifecycle_needs_copy_operator (command role : string) (st : state) :
  classify command = Lifecycle → user_role st = Some role →
  (check_user_rights command st = (Ret true, st) ↔
     role = "Administrator" ∨ role = "SecurityAdmin" ∨ role = "CopyOperator") ∧
  (role ≠ "Administrator" → role ≠ "SecurityAdmin" → role ≠ "CopyOperator" →
     check_user_rights command st = (Exit 5, st) ∧
     ∀ r st', run_command w command st = (r, st') →
       requests (trace st') = requests (trace st) ∧
       (∀ st1, check_connection w st = (Ret tt, st1) → r = Exit 5 ∧ st' = st1) ∧
       ∀ a, r ≠ Ret a).
Proof.
  intros Hc Hr.
  pose proof (check_user_rights_lifecycle _ _ _ Hc Hr) as Hcheck.
  split.
  - rewrite Hcheck, <- py_in_CopyOperator_roles.
    destruct (py_in role CopyOperator_roles); split; (done || congruence).
  - intros H1 H2 H3.
    assert (py_in role CopyOperator_roles = false) as Hno.
    { apply not_true_is_false. rewrite py_in_CopyOperator_roles. tauto. }
    split; [by rewrite Hcheck, Hno|].
    intros r st'. unfold run_command. rewrite M_bind_run.
    destruct (check_connection w st) as [r1 st1] eqn:E.
    apply check_connection_spec in E as (-> & Hr1).
    assert (requests (trace (record_event (Connect (IP st) (port st)) st))
            = requests (trace st)) as Hreq.
    { simpl. rewrite requests_app. simpl. by rewrite app_nil_r. }
    destruct Hr1 as [->|[->|[e ->]]].
    + rewrite M_bind_run.
      rewrite (check_user_rights_lifecycle _ _ role), Hno by done.
      intros [= <- <-]. split_and!; try done. by intros ? [= <-].
    + intros [= <- <-]. split_and!; done.
    + intros [= <- <-]. split_and!; done.
Qed.

(** X2.  A command that no line of the check matches gets [False] from
    it, in every state and without the role being read, and is sent all
    the same: once the probe has passed, [run_command] sends the one
    request and ends as the answer has it, as for a command that is
    allowed.  What the check returns only chooses the text of a log
    message. *)
Theorem unclassified_is_sent (command : string) (st : state) :
  classify command = Unclassified →
  check_user_rights command st = (Ret false, st) ∧
  ∀ st1 token,
    check_connection w st = (Ret tt, st1) → token_id st = Some token →
    let url := base_url st +:+ command in
    let headers := [("X-Auth-Token", token)] in
    run_command w command st =
      (match post w (trace st1) url headers with
       | Response status_code body =>
           if status_code =? 200 then
             match body with
             | Some j => Ret j
             | None => Raise ValueError
             end
           else Exit 3
       | NoResponse e => Raise e
       end, record_event (Post url headers) st1).
Proof.
  intros Hc. split; [by apply check_user_rights_unclassified|].
  intros st1 token Hprobe Ht. apply (run_command_sent _ _ _ false); [done| |done].
  by apply check_user_rights_unclassified.
Qed.

(** ** One probe, one request *)

(** X3.  Every call of [run_command] makes the probe once and sends at
    most one request.  Either it stops after the probe, without a result;
    or the probe has passed and one request has gone to the URL of the
    command, with the token as its only header.  Nothing else of the
    client changes: the token, the role, the flag and the report file are
    as before. *)
Theorem run_command_events (c : string) (st : state) (r : result json)
    (st' : state) :
  run_command w c st = (r, st') →
  let probed := record_event (Connect (IP st) (port st)) st in
  (st' = probed ∧ ∀ a, r ≠ Ret a) ∨
  (∃ token, token_id st = Some token ∧
     check_connection w st = (Ret tt, probed) ∧
     st' = record_event (Post (base_url st +:+ c) [("X-Auth-Token", token)]) probed).
Proof. apply run_command_cases. Qed.

(** X23.  What [run_command] returns once the probe and the check of the
    role have passed and the array has answered.  The call returns the
    body as [json.loads] reads it, of whatever shape, exactly when the
    status is 200; it ends the process with code 3 exactly when the status
    is anything else, 201 and 204 included; and it raises [ValueError]
    when the status is 200 and the body is not JSON.  What the check of
    the role returned makes no difference. *)
Theorem run_command_outcomes (c : string) (st st1 : state) (has_right : bool)
    (token : json) (status_code : Z) (body : option json) :
  check_connection w st = (Ret tt, st1) →
  check_user_rights c st1 = (Ret has_right, st1) →
  token_id st = Some token →
  let url := base_url st +:+ c in
  let headers := [("X-Auth-Token", token)] in
  post w (trace st1) url headers = Response status_code body →
  ∃ r, run_command w c st = (r, record_event (Post url headers) st1) ∧
    (r = Exit 3 ↔ status_code ≠ 200) ∧
    (∀ cmd_d, r = Ret cmd_d ↔ status_code = 200 ∧ body = Some cmd_d) ∧
    (r = Raise ValueError ↔ status_code = 200 ∧ body = None).
Proof.
  intros Hc Hcheck Ht url headers Hpost. eexists. split.
  { rewrite (run_command_sent _ _ _ _ _ Hc Hcheck Ht). fold url headers.
    by rewrite Hpost. }
  destruct (Z.eqb_spec status_code 200) as [->|Hne].
  - destruct body as [j|]; split_and!; try intros cmd_d;
      split; try done; try (by intros [? ?]); try (by intros [= ->]).
    by intros [_ [= ->]].
  - split_and!; try intros cmd_d; split; try done; by intros [? ?].
Qed.

(** The request of [__get_token], once the probe has passed. *)
Lemma get_token_sent st st1 :
  check_connection w st = (Ret tt, st1) →
  let url := base_url st +:+ "auth" in
  let headers :=
    [ ("X-Auth-Username", JStr (username st));
      ("X-Auth-Password", JStr (password st)); ("charset", JStr "utf-8") ] in
  get_token w st =
    (match post w (trace st1) url headers with
     | Response status_code body =>
         if status_code =? 200 then
           match body with
           | Some token_d =>
               match subscript token_d "token" with
               | Ok token => Ret token
               | Err e => Raise e
               end
           | None => Raise ValueError
           end
         else Exit 4
     | NoResponse e => Raise e
     end, record_event (Post url headers) st1).
Proof.
  intros Hc url headers. unfold get_token. rewrite M_bind_run, Hc.
  pose proof Hc as [-> _]%check_connection_spec.
  unfold requests_post, json_loads. unfold_M. simpl.
  subst url headers. unfold record_event. simpl.
  destruct (post w _ _ _) as [s [j|]|e]; [destruct (s =? 200); [|done]..|done];
    [|done].
  by destruct (subscript j "token").
Qed.

Lemma get_token_returns st token st1 :
  get_token w st = (Ret token, st1) →
  st1 = record_event
          (Post (base_url st +:+ "auth")
             [ ("X-Auth-Username", JStr (username st));
               ("X-Auth-Password", JStr (password st));
               ("charset", JStr "utf-8") ])
          (record_event (Connect (IP st) (port st)) st).
Proof.
  intros Hget.
  destruct (check_connection w st) as [r1 st0] eqn:Hc.
  pose proof Hc as [-> Hr1]%check_connection_spec.
  destruct Hr1 as [->|Hr1].
  - rewrite (get_token_sent _ _ Hc) in Hget. by injection Hget as _ <-.
  - unfold get_token in Hget. rewrite M_bind_run, Hc in Hget.
    by destruct Hr1 as [->|[e ->]].
Qed.

(** X4.  Once the probe has passed, [__get_token] sends one request to
    the URL [auth], with the user name, the password and the charset as
    its headers.  When the request is answered, the status decides: the
    call leaves with code 4 exactly when the status is not 200; it
    returns a token exactly when the status is 200 and the body is an
    object with the key [token], whose value is returned as it is; and a
    body with status 200 that is an object without that key ends the call
    with an uncaught [KeyError], not with code 4. *)
Theorem get_token_outcomes (st st1 : state) (status_code : Z)
    (body : option json) :
  check_connection w st = (Ret tt, st1) →
  let url := base_url st +:+ "auth" in
  let headers :=
    [ ("X-Auth-Username", JStr (username st));
      ("X-Auth-Password", JStr (password st)); ("charset", JStr "utf-8") ] in
  post w (trace st1) url headers = Response status_code body →
  ∃ r, get_token w st = (r, record_event (Post url headers) st1) ∧
    (r = Exit 4 ↔ status_code ≠ 200) ∧
    (∀ token, r = Ret token ↔
       status_code = 200 ∧
       ∃ token_d, body = Some (JObj token_d) ∧ dict_get "token" token_d = Some token) ∧
    (status_code = 200 → ∀ token_d,
       body = Some (JObj token_d) → dict_get "token" token_d = None →
       r = Raise (KeyError "token")).
Proof.
  intros Hc url headers Hpost. eexists. split.
  { rewrite (get_token_sent _ _ Hc). fold url headers. by rewrite Hpost. }
  destruct (Z.eqb_spec status_code 200) as [->|Hne].
  - split_and!.
    + split; [|done]. by repeat case_match.
    + intros token. split.
      * intros H. split; [done|]. destruct body as [[| | | | |d]|]; try done.
        exists d. split; [done|]. simpl in H.
        destruct (dict_get "token" d); by simplify_eq.
      * intros (_ & d & -> & Hd). simpl. by rewrite Hd.
    + intros _ d -> Hd. simpl. by rewrite Hd.
  - split_and!; [done| |done].
    intros token. split; [done|]. by intros [? _].
Qed.

(** What [__init__] leaves when it returns. *)
Lemma init_returns (st st' : state) :
  init w st = (Ret tt, st') →
  ∃ token role,
    token_id st' = Some token ∧ user_role st' = Some role ∧
    first_run st' = Some true ∧ disk st' = disk st ∧
    master_file st' = master_file st ∧
    trace st' =
      trace st ++
      [ Connect (IP st) (port st);
        Post (base_url st +:+ "auth")
          [ ("X-Auth-Username", JStr (username st));
            ("X-Auth-Password", JStr (password st)); ("charset", JStr "utf-8") ];
        Connect (IP st) (port st);
        Post (base_url st +:+ "lscurrentuser") [("X-Auth-Token", token)] ].
Proof.
  unfold init. rewrite M_bind_run.
  destruct (get_token w st) as [[token| |] st1] eqn:E1; [|done..].
  apply get_token_returns in E1 as ->.
  rewrite M_bind_run. unfold update at 1. rewrite M_bind_run.
  unfold get_user_role. rewrite M_bind_run.
  destruct (run_command w "lscurrentuser" _) as [[current_user| |] st2] eqn:E2;
    [|done..].
  apply run_command_returns in E2 as (token' & [= <-] & ->).
  unfold lift. destruct (role_of current_user) as [role|]; [|done].
  unfold_M. intros [= <-]. exists token, role. simpl.
  split_and!; [done..|]. by rewrite <- !app_assoc.
Qed.

(** X5.  When [__init__] returns, from [self.token_id = ...] on, it has
    made four events, in this order: the probe, the request for the token
    with the credentials, the probe again, and the request [lscurrentuser]
    with the token it has just got as its only header.  The token and the
    role are set, the flag is up, and the report file is as it was. *)
Theorem init_events (st st' : state) :
  init w st = (Ret tt, st') →
  ∃ token role,
    token_id st' = Some token ∧ user_role st' = Some role ∧
    first_run st' = Some true ∧ disk st' = disk st ∧
    trace st' =
      trace st ++
      [ Connect (IP st) (port st);
        Post (base_url st +:+ "auth")
          [ ("X-Auth-Username", JStr (username st));
            ("X-Auth-Password", JStr (password st)); ("charset", JStr "utf-8") ];
        Connect (IP st) (port st);
        Post (base_url st +:+ "lscurrentuser") [("X-Auth-Token", token)] ].
Proof.
  intros (token & role & ? & ? & ? & ? & _ & ?)%init_returns.
  by exists token, role.
Qed.

Lemma init_exits code :
  code ≠ 3 → code ≠ 4 → code ≠ 6 → never_exits code (init w).
Proof.
  intros. pose proof (check_connection_exits w code).
  pose proof (get_user_role_exits w code).
  unfold init, get_token, requests_post, json_loads. step_never_exits.
Qed.

(** X6.  The exit codes of the public calls.  [__get_token] leaves with
    4 or 6 only; [__init__], from the token on, with 3, 4 or 6;
    [run_command] with 3, 5 or 6; [generate_excel_report] with 2, 3 or
    6. *)
Theorem exit_codes (c : string) (st st' : state) (code : Z) :
  (get_token w st = (Exit code, st') → code = 4 ∨ code = 6) ∧
  (init w st = (Exit code, st') → code = 3 ∨ code = 4 ∨ code = 6) ∧
  (run_command w c st = (Exit code, st') → code = 3 ∨ code = 5 ∨ code = 6) ∧
  (generate_excel_report w st = (Exit code, st') →
     code = 2 ∨ code = 3 ∨ code = 6).
Proof.
  assert (code ≠ 4 → code ≠ 6 → never_exits code (get_token w)) as Htoken.
  { intros. pose proof (check_connection_exits w code).
    unfold get_token, requests_post, json_loads. step_never_exits. }
  split_and!.
  - intros H. destruct (decide (code = 4)); [by left|].
    destruct (decide (code = 6)); [by right|].
    by destruct (Htoken n n0 _ _ _ H).
  - intros H. destruct (decide (code = 3)); [by left|].
    destruct (decide (code = 4)); [by right; left|].
    destruct (decide (code = 6)); [by right; right|].
    by destruct (init_exits code n n0 n1 _ _ _ H).
  - intros H. destruct (decide (code = 3)); [by left|].
    destruct (decide (code = 5)); [by right; left|].
    destruct (decide (code = 6)); [by right; right|].
    assert (never_exits code (run_command w c)) as Hrun.
    { apply run_command_exits; auto. }
    by destruct (Hrun _ _ _ H).
  - intros H. destruct (decide (code = 2)); [by left|].
    destruct (decide (code = 3)); [by right; left|].
    destruct (decide (code = 6)); [by right; right|].
    assert (never_exits code (generate_excel_report w)) as Hgen.
    { apply never_exits_for_. intros c' Hc'.
      apply parse_command_to_excel_exits; [done..|]. right.
      pose proof report_commands_ls as Hls. rewrite Forall_forall in Hls. auto. }
    by destruct (Hgen _ _ _ H).
Qed.

(** X7.  A connection that is not made, on a socket that [shutdown]
    takes without raising (a connection that has timed out): every call
    that talks to the array leaves with code 6 after the one probe.
    [__get_token], [__init__] and [run_command] send nothing and change
    nothing else; [generate_excel_report], on a first run, has lowered
    the flag and written no file. *)
Theorem unreachable_exits_6 (st : state) :
  connect_ex w (trace st) ≠ 0 →
  shutdown w (trace st ++ [Connect (IP st) (port st)]) = None →
  let probed := record_event (Connect (IP st) (port st)) st in
  get_token w st = (Exit 6, probed) ∧
  init w st = (Exit 6, probed) ∧
  (∀ c, run_command w c st = (Exit 6, probed)) ∧
  (first_run st = Some true →
     generate_excel_report w st = (Exit 6, set_first_run false probed)).
Proof.
  intros Hconnect Hshutdown probed.
  assert (get_token w st = (Exit 6, probed)) as Htoken.
  { by rewrite get_token_failed, Hshutdown. }
  split_and!; [done| |..].
  - unfold init. by rewrite M_bind_run, Htoken.
  - intros c. by rewrite run_command_failed, Hshutdown.
  - intros Hfirst. unfold generate_excel_report, report_commands. simpl.
    rewrite M_bind_run. unfold parse_command_to_excel at 1.
    rewrite M_bind_run. unfold open_sheet. rewrite M_bind_run.
    unfold attribute at 1. rewrite Hfirst.
    assert (set_title (numbered w) (sheetnames Workbook) "lssystem"
              (new_sheet "Sheet") = Ok (new_sheet "lssystem")) as -> by done.
    unfold_M. simpl. unfold gather. simpl. unfold format_lssystem_to_excel.
    rewrite !M_bind_run. rewrite run_command_failed by done.
    simpl. by rewrite Hshutdown.
Qed.

End Calls.

(** ** The constructor *)

Lemma append_inj_l s a b : s +:+ a = s +:+ b → a = b.
Proof.
  induction s as [|x s IH]; [done|]. rewrite !append_cons.
  intros [= H]. by apply IH.
Qed.

(** Two strings that end in tails of the same length. *)
Lemma append_inj_tail a b x y :
  a +:+ x = b +:+ y → String.length x = String.length y → a = b ∧ x = y.
Proof.
  revert b. induction a as [|c a IH]; intros [|c' b] H Hlen.
  - done.
  - rewrite append_nil in H. apply (f_equal String.length) in H.
    rewrite append_length in H. simpl in H. lia.
  - rewrite append_nil in H. apply (f_equal String.length) in H.
    rewrite append_length in H. simpl in H. lia.
  - rewrite !append_cons in H. injection H as -> H.
    destruct (IH _ H Hlen) as [-> ->]. done.
Qed.

Lemma digit_inj a b : digit a = digit b → a mod 10 = b mod 10.
Proof.
  unfold digit. intros H.
  pose proof (Z.mod_pos_bound a 10). pose proof (Z.mod_pos_bound b 10).
  apply (f_equal nat_of_ascii) in H.
  rewrite !nat_ascii_embedding in H by lia. lia.
Qed.

Lemma strftime_length d : String.length (strftime d) = 19%nat.
Proof. reflexivity. Qed.

(** The time can be read back from the stamp. *)
Lemma strftime_inj d d' :
  valid_datetime d → valid_datetime d' → strftime d = strftime d' → d = d'.
Proof.
  destruct d as [Y m D H M S], d' as [Y' m' D' H' M' S'].
  unfold valid_datetime, strftime. simpl.
  intros Hv Hv' Heq. injection Heq as ?%digit_inj ?%digit_inj ?%digit_inj
    ?%digit_inj ?%digit_inj ?%digit_inj ?%digit_inj ?%digit_inj ?%digit_inj
    ?%digit_inj ?%digit_inj ?%digit_inj ?%digit_inj ?%digit_inj.
  f_equal; Z.to_euclidean_division_equations; lia.
Qed.

Section Constructor.

Context (w : world) (h : host).


(** X24.  What the constructor leaves when it returns.  The logger has
    the name of the address, and the console handler that was added shows
    the debug messages exactly when [verbose] is set; the output directory
    was there or has been made, and [logging.basicConfig] has returned,
    called with the name of the report with [.log] for [.xlsx].  The
    client has a token and a role, its flag is up, and it has made four
    events: the probe of port 7443 and the request for the token at
    [https://IP:7443/rest/auth], with the credentials as headers, then the
    probe again and the request [lscurrentuser] with the token. *)
Theorem constructor_returns (ip user pass output_dir : string) (verbose : bool)
    (SVC_log : logger) (self : state) (message : option string) :
  SV_system w h ip user pass output_dir verbose = (Ret SVC_log, self, message) →
  SVC_log = Logger ip (if verbose then DEBUG else INFO) ∧
  (isdir h output_dir = true ∨ makedirs h output_dir = None) ∧
  basicConfig h (log_file ip output_dir (strftime (now h 0))) = None ∧
  master_file self
    = output_dir +:+ "SVCheck_" +:+ ip +:+ "_" +:+ strftime (now h 0) +:+ ".xlsx" ∧
  ∃ token role,
    token_id self = Some token ∧ user_role self = Some role ∧
    first_run self = Some true ∧
    trace self =
      [ Connect ip "7443";
        Post (("https://" +:+ ip +:+ ":" +:+ "7443" +:+ "/rest/") +:+ "auth")
          [ ("X-Auth-Username", JStr user); ("X-Auth-Password", JStr pass);
            ("charset", JStr "utf-8") ];
        Connect ip "7443";
        Post (("https://" +:+ ip +:+ ":" +:+ "7443" +:+ "/rest/") +:+ "lscurrentuser")
          [("X-Auth-Token", token)] ].
Proof.
  unfold SV_system, set_logger_up, create_output_dir.
  set (st := new_client ip user pass output_dir (strftime (now h 0))).
  intros H.
  assert (isdir h output_dir = true ∨ makedirs h output_dir = None) as Hdir.
  { destruct (isdir h output_dir); [by left|].
    destruct (makedirs h output_dir); [done|by right]. }
  assert (match basicConfig h (log_file ip output_dir (strftime (now h 0))) with
          | None =>
              match init w st with
              | (Ret _, self') =>
                  (Ret (Logger ip (if verbose then DEBUG else INFO)), self',
                   @None string)
              | (Exit code, self') => (Exit code, self', None)
              | (Raise e, self') => (Raise e, self', None)
              end
          | Some e => (Raise e, st, None)
          end = (Ret SVC_log, self, message)) as H'.
  { destruct (isdir h output_dir); simpl in H.
    - destruct (basicConfig h _); [done|]. exact H.
    - destruct (makedirs h output_dir); [done|]. simpl in H.
      destruct (basicConfig h _); [done|]. exact H. }
  clear H. destruct (basicConfig h _); [done|].
  destruct (init w st) as [[[]|code|e] self'] eqn:Hinit; [|done..].
  injection H' as <- <- <-.
  destruct (init_returns w st self' Hinit)
    as (token & role & Ht & Hr & Hf & _ & Hm & Htrace).
  split_and!; [done..|]. by exists token, role.
Qed.

End Constructor.

(** X9.  The names of the two files of a client.  In one output
    directory, two clients have the same report file exactly when they
    have the same address and were made in the same second, and the same
    holds of their log files: the files of different arrays, and of
    different seconds, never fall together, and a client made for the
    same array within the second takes the files of the first. *)
Theorem report_file_names (ip ip' user user' pass pass' output_dir : string)
    (d d' : datetime) :
  valid_datetime d → valid_datetime d' →
  (master_file (new_client ip user pass output_dir (strftime d))
   = master_file (new_client ip' user' pass' output_dir (strftime d'))
   ↔ ip = ip' ∧ d = d') ∧
  (log_file ip output_dir (strftime d) = log_file ip' output_dir (strftime d')
   ↔ ip = ip' ∧ d = d').
Proof.
  intros Hd Hd'.
  assert (∀ ext,
    output_dir +:+ "SVCheck_" +:+ ip +:+ "_" +:+ strftime d +:+ ext
    = output_dir +:+ "SVCheck_" +:+ ip' +:+ "_" +:+ strftime d' +:+ ext →
    ip = ip' ∧ d = d') as Hinj.
  { intros ext H%append_inj_l%append_inj_l.
    apply append_inj_tail in H as [-> H].
    - split; [done|]. apply append_inj_l, append_inj_r in H.
      by apply strftime_inj.
    - rewrite !append_length, !strftime_length. done. }
  split; (split; [|by intros [-> ->]]).
  - apply (Hinj ".xlsx").
  - apply (Hinj ".log").
Qed.

(** ** The fields of the summary *)

Lemma for_each_ext {A S} (body body' : S → A → except S) l s :
  (∀ s' x, x ∈ l → body s' x = body' s' x) →
  for_each body l s = for_each body' l s.
Proof.
  revert s. induction l as [|x l IH]; intros s H; simpl; [done|].
  rewrite H by (by left). destruct (body' s x); [|done].
  rewrite !bind_Ok. apply IH. intros s' y Hy. apply H. by right.
Qed.

(** X10.  The transform reads the fields of [summary_fields] from the
    answer and nothing else: two answers that agree on these fields give
    the same row, or fail alike.  So an array that sends other fields
    too, or lacks the two whose lines are commented out in the source,
    gets the same sheet. *)
Theorem lssystem_row_reads_only (lssystem lssystem' : json) :
  (∀ k, k ∈ summary_fields → subscript lssystem k = subscript lssystem' k) →
  lssystem_row lssystem = lssystem_row lssystem'.
Proof.
  intros H. unfold lssystem_row.
  rewrite (for_each_ext (add_column lssystem) (add_column lssystem')).
  - rewrite (H "tiers"); [done|]. unfold summary_fields.
    apply elem_of_app. right. by left.
  - intros d [col field] Hin. unfold add_column. simpl.
    rewrite (H field); [done|]. unfold summary_fields.
    apply elem_of_app. left. apply list_elem_of_fmap. by exists (col, field).
Qed.

Lemma summary_loop_present d columns row :
  Forall (λ cf : string * string, is_Some (dict_get cf.2 d)) columns →
  ∃ row', for_each (add_column (JObj d)) columns row = Ok row'.
Proof.
  intros H. revert row. induction H as [|[col field] columns [v Hv] _ IH];
    intros row; simpl; [by eexists|].
  rewrite (add_column_ok _ _ _ _ v), bind_Ok; [apply IH|].
  simpl in *. by rewrite Hv.
Qed.

Lemma summary_loop_absent d columns row i k :
  columns.*2 !! i = Some k → dict_get k d = None →
  (∀ j k', (j < i)%nat → columns.*2 !! j = Some k' → is_Some (dict_get k' d)) →
  for_each (add_column (JObj d)) columns row = Err (KeyError k).
Proof.
  revert row i. induction columns as [|[col field] columns IH];
    intros row i Hi Hk Hbefore; [done|].
  simpl. destruct i as [|i]; simpl in Hi.
  - injection Hi as ->. unfold add_column, subscript. simpl. by rewrite Hk.
  - destruct (Hbefore O field) as [v Hv]; [lia|done|].
    rewrite (add_column_ok _ _ _ _ v), bind_Ok by (simpl; by rewrite Hv).
    apply (IH _ i); [done..|].
    intros j k' Hj Hk'. apply (Hbefore (S j)); [lia|done].
Qed.

(** X11.  The fields are read in the order of the source, the fields of
    the dict literal and then [tiers].  When the answer is an object that
    lacks some of them, the [KeyError] that ends the transform names the
    first one that is absent. *)
Theorem first_absent_key_named (answer : pydict) (i : nat) (k : string) :
  summary_fields !! i = Some k → dict_get k answer = None →
  (∀ j k', (j < i)%nat → summary_fields !! j = Some k' →
     is_Some (dict_get k' answer)) →
  lssystem_row (JObj answer) = Err (KeyError k).
Proof.
  intros Hi Hk Hbefore. unfold lssystem_row, summary_fields in *.
  destruct (decide (i < List.length summary_columns.*2)%nat) as [Hlt|Hge].
  - rewrite lookup_app_l in Hi by done.
    rewrite (summary_loop_absent _ _ _ i k); [done..|].
    intros j k' Hj Hk'. apply (Hbefore j); [done|].
    rewrite lookup_app_l; [done|lia].
  - rewrite lookup_app_r in Hi by lia.
    apply list_lookup_singleton_Some in Hi as [Hi <-].
    destruct (summary_loop_present answer summary_columns []) as [row ->].
    + apply Forall_forall. intros [col field] Hin. simpl.
      apply list_elem_of_lookup in Hin as [j Hj].
      apply (Hbefore j).
      * apply lookup_lt_Some in Hj. rewrite length_fmap in Hge. lia.
      * rewrite lookup_app_l, list_lookup_fmap, Hj; [done|].
        rewrite length_fmap. by eapply lookup_lt_Some.
    + rewrite bind_Ok. simpl. by rewrite Hk.
Qed.

(** ** The file, command by command *)

Lemma sheet_index_Some name wb i :
  sheet_index name wb = Some i →
  ∃ ws, wb !! i = Some ws ∧ title ws = name.
Proof.
  revert i. induction wb as [|ws wb IH]; intros i; simpl; [done|].
  destruct (String.eqb_spec (title ws) name) as [Heq|Hne].
  - intros [= <-]. by exists ws.
  - destruct (sheet_index name wb) as [j|]; [|done].
    intros [= <-]. by apply IH.
Qed.

Lemma sheet_index_app_l name wb more i :
  sheet_index name wb = Some i → sheet_index name (wb ++ more) = Some i.
Proof.
  revert i. induction wb as [|ws wb IH]; intros i; simpl; [done|].
  destruct (String.eqb (title ws) name); [done|].
  destruct (sheet_index name wb) as [j|]; [|done].
  intros [= <-]. by rewrite (IH j).
Qed.

Lemma avoid_duplicate_name_taken numbered names value :
  value ∈ names → avoid_duplicate_name numbered names value = numbered names value.
Proof.
  intros H. unfold avoid_duplicate_name.
  destruct (existsb _ names) eqn:E; [done|].
  apply not_true_iff_false in E. destruct E.
  apply existsb_exists. exists value. split; [by apply list_elem_of_In|].
  apply String.eqb_refl.
Qed.

Lemma valid_title_nonempty c : valid_title c = true → c ≠ "".
Proof. by intros H ->. Qed.

Lemma mapM_Err_inv {A B} (f : A → except B) l e :
  mapM f l = Err e → ∃ x, x ∈ l ∧ f x = Err e.
Proof.
  induction l as [|x l IH]; simpl; [done|].
  destruct (f x) as [y|e'] eqn:E.
  - rewrite bind_Ok. destruct (mapM f l) as [ys|e'] eqn:El; [done|].
    intros [= <-]. destruct (IH eq_refl) as (x' & Hx' & Hfx').
    exists x'. split; [by right|done].
  - intros [= <-]. exists x. split; [by left|done].
Qed.

(** A row that a cell does not take stops the rows, with the exception of
    the first cell that takes no value: of that row or of one before
    it. *)
Lemma append_rows_fails rows row v ws :
  row ∈ rows → v ∈ row → (∀ v', bind_value v ≠ Ok v') →
  ∃ e, (e = ValueError ∨ e = IllegalCharacterError) ∧ append_rows rows ws = Err e.
Proof.
  intros Hin Hv Hno. revert ws.
  induction Hin as [row rows|row row' rows _ IH]; intros ws; simpl.
  - unfold append. destruct (bind_value v) as [v'|e] eqn:E; [by destruct (Hno v')|].
    destruct (mapM_Err _ _ _ _ Hv E) as (e' & -> & y & _ & Hy).
    exists e'. split; [by eapply bind_value_Err|done].
  - destruct (append row' ws) as [ws1|e] eqn:E.
    + rewrite bind_Ok. apply IH; done.
    + exists e. split; [|done]. unfold append in E.
      destruct (mapM bind_value row') as [values|e'] eqn:Em; [done|].
      injection E as <-. apply mapM_Err_inv in Em as (x & _ & Hx).
      by eapply bind_value_Err.
Qed.

(** The rows stop with [IllegalCharacterError] only at a string. *)
Lemma append_rows_illegal rows ws :
  append_rows rows ws = Err IllegalCharacterError →
  ∃ row s, row ∈ rows ∧ Val (JStr s) ∈ row ∧
    legal_string (truncate 32767 s) = false.
Proof.
  revert ws. induction rows as [|row rows IH]; intros ws; simpl; [done|].
  destruct (append row ws) as [ws1|e] eqn:E.
  - rewrite bind_Ok. intros (row' & s & ? & ?)%IH.
    exists row', s. split; [by right|done].
  - intros [= ->]. unfold append in E.
    destruct (mapM bind_value row) as [values|e'] eqn:Em; [done|].
    injection E as ->. apply mapM_Err_inv in Em as (x & Hx & Hfx).
    destruct x as [[| | |s| |]|]; try done.
    exists row, s. split; [by left|]. split; [done|].
    simpl in Hfx. unfold check_string in Hfx.
    by destruct (legal_string _).
Qed.

Lemma dict_get_Some_keys k d v : dict_get k d = Some v → k ∈ dict_keys d.
Proof.
  induction d as [|[k' v'] d IH]; simpl; [done|].
  destruct (String.eqb_spec k k') as [->|_]; [by left|].
  intros H. right. by apply IH.
Qed.

Lemma report_events_ext st st1 token first commands :
  IP st1 = IP st → port st1 = port st → base_url st1 = base_url st →
  master_file st1 = master_file st →
  report_events st1 token first commands = report_events st token first commands.
Proof.
  intros H1 H2 H3 H4. revert first.
  induction commands as [|c commands IH]; intros first; simpl; [done|].
  unfold command_events. by rewrite IH, H1, H2, H3, H4.
Qed.

Section File.

Context (w : world).

(** *** The sheet that a command writes to *)

Lemma open_sheet_state c st x st1 first :
  first_run st = Some first → open_sheet w c st = (Ret x, st1) →
  st1 = if first then set_first_run false st
        else record_event (Load (master_file st)) st.
Proof.
  intros Hb. unfold open_sheet, load_workbook. unfold_M. rewrite Hb.
  destruct first; simpl.
  - destruct (set_title _ _ _ _); by intros [= _ <-].
  - repeat case_match; intros; by simplify_eq.
Qed.

Lemma open_sheet_index c st wb i st1 :
  open_sheet w c st = (Ret (wb, i), st1) → is_Some (wb !! i).
Proof.
  unfold open_sheet, load_workbook. unfold_M.
  repeat case_match; intros; simplify_eq; simpl; [done|].
  match goal with H : sheet_index _ _ = Some _ |- _ =>
    apply sheet_index_Some in H as (ws & -> & _) end.
  done.
Qed.

(** The first command of a run: a new workbook, whatever the file. *)
Lemma open_sheet_first c st :
  first_run st = Some true → valid_title c = true →
  ∃ ws, open_sheet w c st = (Ret ([ws], O), set_first_run false st).
Proof.
  intros Hfirst Hc. unfold open_sheet. rewrite M_bind_run.
  unfold attribute. rewrite Hfirst. unfold set_title. rewrite Hc.
  eexists. by unfold_M.
Qed.

Lemma open_sheet_new c st :
  first_run st = Some true → valid_title c = true → lower c ≠ "sheet" →
  open_sheet w c st = (Ret ([new_sheet c], O), set_first_run false st).
Proof.
  intros Hfirst Hc Hlow. unfold open_sheet. rewrite M_bind_run.
  unfold attribute. rewrite Hfirst.
  assert (set_title (numbered w) (sheetnames Workbook) c (new_sheet "Sheet")
          = Ok (new_sheet c)) as ->; [|by unfold_M].
  unfold set_title. rewrite Hc.
  change (title (new_sheet "Sheet")) with "Sheet".
  destruct (String.eqb_spec "Sheet" c) as [<-|_]; [done|].
  rewrite avoid_duplicate_name_fresh; [done|].
  change (lower <$> sheetnames Workbook) with ["sheet"].
  by intros H%list_elem_of_singleton.
Qed.

(** A later command whose name no sheet of the file has. *)
Lemma open_sheet_fresh c file wb st :
  first_run st = Some false → disk st = XLSX file →
  load w (trace st) file = Ok wb → valid_title c = true →
  lower c ∉ lower <$> sheetnames wb →
  open_sheet w c st =
    (Ret (wb ++ [new_sheet c], List.length wb),
     record_event (Load (master_file st)) st).
Proof.
  intros Hfirst Hfile Hload Hc Hfresh.
  pose proof (valid_title_nonempty _ Hc) as Hne.
  unfold open_sheet. rewrite M_bind_run. unfold attribute. rewrite Hfirst.
  assert (create_sheet (numbered w) c wb = Ok (wb ++ [new_sheet c]))
    as Hcreate.
  { unfold create_sheet, set_title.
    rewrite (proj2 (String.eqb_neq c "")) by done. rewrite Hc.
    change (title (new_sheet "")) with "".
    rewrite (proj2 (String.eqb_neq "" c)) by done.
    by rewrite avoid_duplicate_name_fresh. }
  unfold load_workbook. unfold_M. cbn [disk record_event]. rewrite Hfile.
  unfold lift. rewrite Hload, Hcreate.
  pose proof (sheet_index_app wb (new_sheet c)) as Hidx.
  change (title (new_sheet c)) with c in Hidx.
  rewrite Hidx; [done|].
  intros Hin. apply Hfresh. apply list_elem_of_fmap. eauto.
Qed.

(** A later command whose name a sheet of the file has: the new sheet
    gets a numbered title, and [wb[command]] is the old one. *)
Lemma open_sheet_taken c file wb i st :
  first_run st = Some false → disk st = XLSX file →
  load w (trace st) file = Ok wb → valid_title c = true →
  sheet_index c wb = Some i →
  open_sheet w c st =
    (Ret (wb ++ [new_sheet (numbered w (sheetnames wb) c)], i),
     record_event (Load (master_file st)) st).
Proof.
  intros Hfirst Hfile Hload Hc Hi.
  pose proof (valid_title_nonempty _ Hc) as Hne.
  unfold open_sheet. rewrite M_bind_run. unfold attribute. rewrite Hfirst.
  assert (create_sheet (numbered w) c wb
          = Ok (wb ++ [new_sheet (numbered w (sheetnames wb) c)])) as Hcreate.
  { unfold create_sheet, set_title.
    rewrite (proj2 (String.eqb_neq c "")) by done. rewrite Hc.
    change (title (new_sheet "")) with "".
    rewrite (proj2 (String.eqb_neq "" c)) by done.
    rewrite avoid_duplicate_name_taken; [done|].
    apply sheet_index_Some in Hi as (ws & Hws & <-).
    apply list_elem_of_fmap. exists ws. split; [done|].
    by eapply list_elem_of_lookup_2. }
  unfold load_workbook. unfold_M. cbn [disk record_event]. rewrite Hfile.
  unfold lift. rewrite Hload, Hcreate. by rewrite (sheet_index_app_l _ _ _ _ Hi).
Qed.

(** *** What a command that is processed has done *)

Lemma gather_returns c st rows st' :
  gather w c st = (Ret rows, st') →
  ∃ token, token_id st = Some token ∧
    st' = record_event (Post (base_url st +:+ c) [("X-Auth-Token", token)])
            (record_event (Connect (IP st) (port st)) st).
Proof.
  unfold gather. rewrite M_bind_run.
  destruct (String.eqb_spec c "lssystem") as [->|Hne].
  - unfold format_lssystem_to_excel. rewrite M_bind_run.
    destruct (run_command w "lssystem" st) as [[a| |] st1] eqn:E; [|done..].
    apply run_command_returns in E as (token & Ht & ->).
    unfold_M. intros H. exists token. split; [done|].
    repeat case_match; by simplify_eq.
  - destruct (run_command w c st) as [[a| |] st1] eqn:E; [|done..].
    apply run_command_returns in E as (token & Ht & ->).
    unfold_M. intros H. exists token. split; [done|].
    repeat case_match; by simplify_eq.
Qed.

Lemma parse_command_to_excel_saved c st wb i sheet st1 st' :
  open_sheet w c st = (Ret (wb, i), st1) → wb !! i = Some sheet →
  parse_command_to_excel w c st = (Ret tt, st') →
  ∃ rows st2 ws ws',
    gather w c st1 = (Ret rows, st2) ∧
    append_rows rows sheet = Ok ws ∧ format_sheet ws = Ok ws' ∧
    save w (trace st2) (<[i := ws']> wb) = Saved ∧
    st' = set_disk (XLSX (<[i := ws']> wb))
            (record_event (Save (master_file st2)) st2).
Proof.
  intros Hopen Hsheet. unfold parse_command_to_excel.
  rewrite M_bind_run, Hopen. cbv beta iota. rewrite M_bind_run.
  destruct (gather w c st1) as [[rows| |] st2] eqn:Hg; [|done..].
  rewrite Hsheet. rewrite M_bind_run. unfold lift at 1.
  rewrite M_bind_run. unfold lift at 1.
  destruct (append_rows rows sheet) as [ws|] eqn:Hws; [|done].
  rewrite M_bind_run. unfold lift at 1.
  destruct (format_sheet ws) as [ws'|] eqn:Hws'; [|done].
  unfold save_excel. unfold_M. simpl.
  destruct (save w _ _) eqn:Hsave; [|done..].
  intros [= <-]. by exists rows, st2, ws, ws'.
Qed.

Lemma parse_command_to_excel_returns c st st' first token :
  first_run st = Some first → token_id st = Some token →
  parse_command_to_excel w c st = (Ret tt, st') →
  ∃ wb,
    st' = set_disk (XLSX wb)
            (record_event (Save (master_file st))
               (record_event (Post (base_url st +:+ c) [("X-Auth-Token", token)])
                  (record_event (Connect (IP st) (port st))
                     (if first then set_first_run false st
                      else record_event (Load (master_file st)) st)))).
Proof.
  intros Hfirst Ht Hparse.
  destruct (open_sheet w c st) as [[[wb i]| |] st1] eqn:Hopen;
    [|unfold parse_command_to_excel in Hparse;
      by rewrite M_bind_run, Hopen in Hparse..].
  pose proof (open_sheet_index _ _ _ _ _ Hopen) as [sheet Hsheet].
  pose proof (open_sheet_state _ _ _ _ _ Hfirst Hopen) as Hst1.
  destruct (parse_command_to_excel_saved c st wb i sheet st1 st' Hopen Hsheet Hparse)
    as (rows & st2 & ws & ws' & Hg & _ & _ & _ & ->).
  apply gather_returns in Hg as (token' & Ht' & ->).
  eexists. subst st1. destruct first; simpl in *; by simplify_eq.
Qed.

Lemma report_trace commands st st' first token :
  first_run st = Some first → token_id st = Some token →
  report w commands st = (Ret tt, st') →
  trace st' = trace st ++ report_events st token first commands.
Proof.
  revert st first. induction commands as [|c commands IH]; intros st first Hf Ht.
  - intros [= <-]. simpl. by rewrite app_nil_r.
  - unfold report. simpl. rewrite M_bind_run.
    destruct (parse_command_to_excel w c st) as [[[]| |] st1] eqn:E; [|done..].
    apply (parse_command_to_excel_returns _ _ _ first token) in E as [wb ->];
      [|done..].
    intros Hrest. apply (IH _ false) in Hrest; [|by destruct first..].
    rewrite Hrest, (report_events_ext st) by (by destruct first).
    unfold command_events.
    destruct first; simpl; rewrite <- ?app_assoc; simpl; try done.
Qed.

(** X12.  The first command of a run reads no file.  It starts a new
    workbook, and when it is processed the report file is that workbook
    with the one sheet of the command, made of the rows of the answer and
    formatted; what was in a file of that name before is gone. *)
Theorem first_command_replaces_file (c : string) (st st' : state) :
  first_run st = Some true → valid_title c = true → lower c ≠ "sheet" →
  parse_command_to_excel w c st = (Ret tt, st') →
  ∃ rows st1 ws ws',
    gather w c (set_first_run false st) = (Ret rows, st1) ∧
    append_rows rows (new_sheet c) = Ok ws ∧ format_sheet ws = Ok ws' ∧
    title ws' = c ∧ disk st' = XLSX [ws'].
Proof.
  intros Hfirst Hc Hlow Hparse.
  pose proof (open_sheet_new c st Hfirst Hc Hlow) as Hopen.
  destruct (parse_command_to_excel_saved c st _ _ (new_sheet c) _ st' Hopen)
    as (rows & st2 & ws & ws' & Hg & Hws & Hws' & _ & ->); [done..|].
  exists rows, st2, ws, ws'. split_and!; [done..| |done].
  apply format_sheet_title in Hws'. apply append_rows_title in Hws.
  by rewrite Hws', Hws.
Qed.

(** X13.  A later command, whose name no sheet of the file has, whatever
    the case of the letters.  [wb] is the workbook that [load_workbook]
    returns for the file.  When the command is processed, the file is
    written from a workbook that has the sheets of [wb], each as it was
    loaded, cell by cell, and after them the sheet of the command: the
    rows of the answer, appended to a new sheet and formatted. *)
Theorem earlier_sheets_kept (c : string) (file wb : workbook) (st st' : state) :
  first_run st = Some false → disk st = XLSX file →
  load w (trace st) file = Ok wb →
  valid_title c = true → lower c ∉ lower <$> sheetnames wb →
  parse_command_to_excel w c st = (Ret tt, st') →
  ∃ rows st1 ws ws',
    gather w c (record_event (Load (master_file st)) st) = (Ret rows, st1) ∧
    append_rows rows (new_sheet c) = Ok ws ∧ format_sheet ws = Ok ws' ∧
    title ws' = c ∧ disk st' = XLSX (wb ++ [ws']).
Proof.
  intros Hfirst Hfile Hload Hc Hfresh Hparse.
  pose proof (open_sheet_fresh c file wb st Hfirst Hfile Hload Hc Hfresh) as Hopen.
  destruct (parse_command_to_excel_saved c st _ _ (new_sheet c) _ st' Hopen)
    as (rows & st2 & ws & ws' & Hg & Hws & Hws' & _ & ->); [|done|].
  { by rewrite lookup_app_r, Nat.sub_diag. }
  exists rows, st2, ws, ws'. split_and!; [done..| |].
  - apply format_sheet_title in Hws'. apply append_rows_title in Hws.
    by rewrite Hws', Hws.
  - simpl. f_equal.
    replace (List.length wb) with (List.length wb + 0)%nat by lia.
    by rewrite insert_app_r.
Qed.

(** X14.  A later command whose name a sheet has already in the workbook
    [wb] that [load_workbook] returns for the file, as when
    [generate_excel_report] is called a second time on a client.  The
    rows of the answer are appended to that sheet as it was loaded, from
    the row after the last one that the loaded sheet counts, and the
    sheet is formatted again; the sheet that was created for the command
    gets the numbered title and stays empty, at the end of the workbook
    that is saved. *)
Theorem repeated_command_reuses_sheet (c : string) (file wb : workbook) (i : nat)
    (st st' : state) :
  first_run st = Some false → disk st = XLSX file →
  load w (trace st) file = Ok wb → valid_title c = true →
  sheet_index c wb = Some i →
  parse_command_to_excel w c st = (Ret tt, st') →
  ∃ old rows st1 ws ws',
    wb !! i = Some old ∧ title old = c ∧
    gather w c (record_event (Load (master_file st)) st) = (Ret rows, st1) ∧
    append_rows rows old = Ok ws ∧ format_sheet ws = Ok ws' ∧
    disk st' =
      XLSX (<[i := ws']> wb ++ [new_sheet (numbered w (sheetnames wb) c)]).
Proof.
  intros Hfirst Hfile Hload Hc Hi Hparse.
  pose proof (open_sheet_taken c file wb i st Hfirst Hfile Hload Hc Hi) as Hopen.
  pose proof Hi as (old & Hold & Htitle)%sheet_index_Some.
  destruct (parse_command_to_excel_saved c st _ _ old _ st' Hopen)
    as (rows & st2 & ws & ws' & Hg & Hws & Hws' & _ & ->); [|done|].
  { by apply lookup_app_l_Some. }
  exists old, rows, st2, ws, ws'. split_and!; [done..|].
  simpl. f_equal. apply insert_app_l. by eapply lookup_lt_Some.
Qed.

(** X15.  The events of a report that is made, over any list of commands
    ([generate_excel_report] runs the list [report_commands]).  For each
    command in turn: the report file is loaded, unless the command is the
    first of a first run; the array is probed; one request is sent, to
    the URL of the command with the token; and the file is saved.  There
    is no other event: [n] commands make [n] probes, [n] requests and [n]
    saves of the whole file. *)
Theorem report_events_spec (commands : list string) (st st' : state)
    (first : bool) (token : json) :
  first_run st = Some first → token_id st = Some token →
  report w commands st = (Ret tt, st') →
  trace st' = trace st ++ report_events st token first commands.
Proof. apply report_trace. Qed.

(** X16.  The flag is lowered before the answer is asked for.  When the
    first command of a run fails, in any way, the flag is down and there
    is no report file, or a damaged one if it was the save that failed
    after it had begun to write.  On that client every later command
    ends at once with [FileNotFoundError], when it loads the file that
    was never written, and sends nothing. *)
Theorem failed_first_command_blocks_report (c : string) (st : state)
    (r : result unit) (st1 : state) :
  first_run st = Some true → disk st = NoFile → valid_title c = true →
  parse_command_to_excel w c st = (r, st1) → r ≠ Ret tt →
  first_run st1 = Some false ∧
  (disk st1 = NoFile ∨ (r = Exit 2 ∧ disk st1 = Damaged)) ∧
  (disk st1 = NoFile → ∀ c',
     parse_command_to_excel w c' st1 =
       (Raise FileNotFoundError, record_event (Load (master_file st1)) st1)).
Proof.
  intros Hfirst Hfile Hc Hparse Hr.
  destruct (open_sheet_first c st Hfirst Hc) as [sheet Hopen].
  assert (first_run st1 = Some false ∧
          (disk st1 = NoFile ∨ (r = Exit 2 ∧ disk st1 = Damaged))) as [H1 H2].
  { unfold parse_command_to_excel in Hparse.
    rewrite M_bind_run, Hopen in Hparse. cbv beta iota in Hparse.
    rewrite M_bind_run in Hparse.
    destruct (gather w c (set_first_run false st)) as [[rows|code|e] st2] eqn:Hg;
      apply gather_report in Hg as [Hd2 Hf2]; simpl in Hd2, Hf2;
      [|injection Hparse as <- <-; split; [done|left; congruence]..].
    simpl in Hparse. rewrite M_bind_run in Hparse. unfold lift at 1 in Hparse.
    rewrite M_bind_run in Hparse. unfold lift at 1 in Hparse.
    destruct (append_rows rows sheet) as [ws1|e];
      [|injection Hparse as <- <-; split; [done|left; congruence]].
    rewrite M_bind_run in Hparse. unfold lift at 1 in Hparse.
    destruct (format_sheet ws1) as [ws2|e];
      [|injection Hparse as <- <-; split; [done|left; congruence]].
    unfold save_excel in Hparse. unfold_M. simpl in Hparse.
    destruct (save w _ _); injection Hparse as <- <-; simpl.
    - done.
    - split; [done|left; congruence].
    - split; [done|by right]. }
  split_and!; [done..|].
  intros Hnone c'. unfold parse_command_to_excel, open_sheet, load_workbook.
  unfold_M. simpl. by rewrite H1, Hnone.
Qed.

(** X17.  Only flat records can be written.  When a record of the answer
    has a list or a dict among its values, its column stays a column of
    objects and the value reaches the sheet, where no cell takes it.  The
    command ends with the exception of the first cell that refuses its
    value, which nothing catches: the [ValueError] of a value that cannot
    be converted, or the [IllegalCharacterError] of a string before it;
    and it is the [ValueError] when every string of the rows, cut to
    32767 characters, has only characters that a cell takes.  The answer
    has been received, and nothing is saved. *)
Theorem nested_value_stops_command (c : string) (records : list pydict)
    (r : pydict) (k : string) (v : json) (st0 : state) (wb : workbook) (i : nat)
    (st st' : state) :
  c ≠ "lssystem" →
  open_sheet w c st0 = (Ret (wb, i), st) →
  run_command w c st = (Ret (JArr (JObj <$> records)), st') →
  r ∈ records → dict_get k r = Some v → nested v = true →
  ∃ rows e,
    gather w c st = (Ret rows, st') ∧
    (e = ValueError ∨ e = IllegalCharacterError) ∧
    parse_command_to_excel w c st0 = (Raise e, st') ∧
    ((∀ row s, row ∈ rows → Val (JStr s) ∈ row →
        legal_string (truncate 32767 s) = true) → e = ValueError).
Proof.
  intros Hc Hopen Hrun Hr Hk Hv.
  pose proof (open_sheet_index _ _ _ _ _ Hopen) as [sheet Hsheet].
  set (labels := record_columns records).
  set (rows := (Val ∘ JStr <$> labels)
               :: (record_row (convert w) records labels
                     <$> seq 0 (List.length records))).
  assert (gather w c st = (Ret rows, st')) as Hg.
  { unfold gather. rewrite (proj2 (String.eqb_neq _ _)) by done.
    rewrite M_bind_run, Hrun.
    unfold DataFrame_from_dict. rewrite as_records_records.
    unfold_M. simpl. unfold dataframe_to_rows. simpl.
    by rewrite <- list_fmap_compose. }
  assert (k ∈ labels) as Hlabel.
  { destruct (record_columns_spec [] records) as (_ & _ & _ & Hin & _).
    apply Hin. right. exists r. split; [done|]. by eapply dict_get_Some_keys. }
  apply list_elem_of_lookup in Hr as [n Hn].
  assert (kept_as_objects (column records k) = true) as Hkept.
  { unfold kept_as_objects. apply orb_true_iff. right.
    apply existsb_exists. exists (Some v). split; [|done].
    apply list_elem_of_In, list_elem_of_fmap. exists r.
    split; [done|]. by eapply list_elem_of_lookup_2. }
  assert (Val v ∈ record_row (convert w) records labels n) as Hin.
  { apply list_elem_of_fmap. exists k. split; [|done].
    unfold column_cell. rewrite Hkept. unfold column.
    rewrite list_lookup_fmap, Hn. simpl. by rewrite Hk. }
  destruct (append_rows_fails rows (record_row (convert w) records labels n)
              (Val v) sheet) as (e & He & Hfail).
  { right. apply list_elem_of_fmap. exists n. split; [done|].
    apply elem_of_seq. apply lookup_lt_Some in Hn. lia. }
  { done. }
  { intros v'. by destruct v. }
  exists rows, e. split_and!; [done..| |].
  - unfold parse_command_to_excel. rewrite M_bind_run, Hopen. cbv beta iota.
    rewrite M_bind_run, Hg, Hsheet. rewrite M_bind_run. unfold lift at 1.
    rewrite M_bind_run. unfold lift at 1. by rewrite Hfail.
  - intros Hlegal. destruct He as [->| ->]; [done|].
    apply append_rows_illegal in Hfail as (row & s & Hrow & Hs & Hbad).
    by rewrite (Hlegal row s Hrow Hs) in Hbad.
Qed.

(** X18.  A command that is answered with the empty list still gets its
    sheet.  The data frame has no column, its one row is the empty
    header, and the sheet that is formatted has a single cell, [A1], with
    no value and the style of a header, and the one width of column
    [A]. *)
Theorem empty_answer_sheet (c : string) (st st' : state) :
  c ≠ "lssystem" → run_command w c st = (Ret (JArr []), st') →
  gather w c st = (Ret [[]], st') ∧
  ∀ t, ∃ ws',
    append_rows [[]] (new_sheet t) ≫= format_sheet = Ok ws' ∧
    title ws' = t ∧
    cells ws' =
      {[ (1%positive, 1%positive) :=
           Cell (Val JNull) HEADER_FONT HEADER_FILL CENTER ]} ∧
    column_dimensions ws' = {[ "A" := ColumnDimension 1 1 25 ]}.
Proof.
  intros Hc Hrun. split.
  - unfold gather. rewrite (proj2 (String.eqb_neq _ _)) by done.
    rewrite M_bind_run, Hrun. by unfold_M.
  - intros t. eexists. split_and!; [by vm_compute|done|by vm_compute..].
Qed.

End File.

(** ** The formatted sheet *)

(** What painting makes of a cell, when painting twice is painting
    once. *)
Lemma paint_lookup g ps ws q :
  (∀ x, g (g x) = g x) →
  cells (paint g ps ws) !! q =
    if decide (q ∈ ps) then Some (g (default blank (cells ws !! q)))
    else cells ws !! q.
Proof.
  intros Hg. revert ws. induction ps as [|[r c] ps IH]; intros ws.
  - rewrite decide_False; [done|]. by intros ?%elem_of_nil.
  - rewrite paint_cons, IH. simpl. rewrite put_cell_cells.
    destruct (decide (q = (r, c))) as [->|Hne].
    + rewrite lookup_insert_eq. simpl. rewrite Hg.
      rewrite (decide_True (P := (r, c) ∈ (r, c) :: ps)) by (by left).
      by case_decide.
    + rewrite lookup_insert_ne by done.
      destruct (decide (q ∈ ps)) as [Hin|Hout].
      * rewrite decide_True; [done|by right].
      * rewrite decide_False; [done|].
        by intros [?|?]%elem_of_cons.
Qed.

Lemma elem_of_row (r' : positive) (cols : list positive) r c :
  (r, c) ∈ (λ c, (r', c)) <$> cols ↔ r = r' ∧ c ∈ cols.
Proof.
  rewrite list_elem_of_fmap. split.
  - by intros (c' & [= -> ->] & ?).
  - intros [-> ?]. eauto.
Qed.

(** The cells of a sheet after the header, the centering and the
    banding. *)
Lemma styled_lookup ws r c :
  well_formed ws → min_column ws = 1%positive →
  cells (styled ws) !! (r, c) =
    if decide ((r ≤ max_row ws)%positive ∧ (c ≤ max_column ws)%positive) then
      let x := default blank (cells ws !! (r, c)) in
      Some (Cell (value x)
              (if (r =? 1)%positive then HEADER_FONT else cell_font x)
              (row_fill r) CENTER)
    else None.
Proof.
  intros Hwf Hmin. rewrite styled_eq by done. cbv zeta.
  rewrite !paint_lookup by (by intros []).
  assert (is_Some (cells ws !! (r, c)) →
          (r ≤ max_row ws)%positive ∧ (c ≤ max_column ws)%positive) as Hin.
  { intros H. split; [by eapply max_row_ge|by eapply max_column_ge]. }
  unfold row_fill.
  destruct (cells ws !! (r, c)) as [x|];
    [pose proof (Hin (mk_is_Some _ _ eq_refl)) as [??]|]; clear Hin;
    destruct r as [r|r|];
    repeat case_decide;
    rewrite ?elem_of_grid, ?elem_of_row, ?elem_of_range_1, ?elem_of_range_even,
      ?elem_of_range_odd in *;
    simpl in *; try done; exfalso; intuition (try done; lia).
Qed.

Lemma put_row_plain r c row m :
  (∀ q x, m !! q = Some x → x = new_cell (value x)) →
  ∀ q x, put_row r c row m !! q = Some x → x = new_cell (value x).
Proof.
  revert c m. induction row as [|v row IH]; intros c m Hm; simpl; [done|].
  apply IH. intros q x. destruct (decide (q = (r, c))) as [->|Hne].
  - rewrite lookup_insert_eq. by intros [= <-].
  - rewrite lookup_insert_ne by done. apply Hm.
Qed.

Lemma append_rows_plain rows ws ws' :
  append_rows rows ws = Ok ws' → plain ws → plain ws'.
Proof.
  revert ws. induction rows as [|row rows IH]; intros ws; simpl.
  - by intros [= <-].
  - destruct (append row ws) as [ws1|e] eqn:E; [|done]. rewrite bind_Ok.
    intros H Hws. eapply IH; [done|].
    apply append_spec in E as (values & _ & _ & _ & Hcells).
    unfold plain. rewrite Hcells. by apply put_row_plain.
Qed.

Lemma new_sheet_plain t : plain (new_sheet t).
Proof. intros q x. simpl. by rewrite lookup_empty. Qed.

(** X19.  The sheet that the formatter returns, for rows appended to a
    new sheet, cell by cell.  It has a cell at every place of the
    rectangle of the used rows and columns, and no other; a place that
    had no cell, at the end of a short row, has one with no value.  Each
    cell has the value it had and is centered.  The cells of row 1 have
    the font and the fill of the header; below it no font is changed,
    the even rows have the one band and the odd rows the other.  The
    title is kept. *)
Theorem format_sheet_cells (t : string) (rows : list (list cell_value))
    (ws ws' : worksheet) :
  append_rows rows (new_sheet t) = Ok ws → format_sheet ws = Ok ws' →
  title ws' = t ∧
  ∀ r c,
    cells ws' !! (r, c) =
      if decide ((r ≤ max_row ws)%positive ∧ (c ≤ max_column ws)%positive)
      then Some (Cell (value_at ws r c) (row_font r) (row_fill r) CENTER)
      else None.
Proof.
  intros Hws Hfmt.
  destruct (append_rows_tidy _ _ _ Hws (new_sheet_tidy t)) as [Hwf Hleft].
  pose proof (starts_left_min_column _ Hleft) as Hmin.
  pose proof (append_rows_plain _ _ _ Hws (new_sheet_plain t)) as Hplain.
  split.
  { apply format_sheet_title in Hfmt. apply append_rows_title in Hws.
    by rewrite Hfmt, Hws. }
  intros r c. rewrite format_sheet_eq in Hfmt.
  destruct (dimensions _ _) as [dh|]; [|done]. rewrite bind_Ok in Hfmt.
  destruct (max_row ws <=? MAX_ROW)%positive; [|done]. injection Hfmt as <-.
  rewrite (styled_lookup (with_column_dimensions dh ws)) by done.
  change (max_row (with_column_dimensions dh ws)) with (max_row ws).
  change (max_column (with_column_dimensions dh ws)) with (max_column ws).
  case_decide; [|done]. simpl. unfold value_at, row_font.
  destruct (cells ws !! (r, c)) as [x|] eqn:E; simpl.
  - apply Hplain in E. rewrite E. simpl. by destruct (r =? 1)%positive.
  - by destruct (r =? 1)%positive.
Qed.

(** *** Column letters *)

(** Every index up to 18278 is read back from its letters. *)
Lemma column_index_checked :
  forallb (λ p, column_index (column_letters 3 (Z.pos p) "") =? Z.pos p)
    (range 1 18279 1) = true.
Proof. by vm_compute. Qed.

Lemma get_column_letter_index c l :
  get_column_letter c = Ok l → column_index l = Z.pos c.
Proof.
  unfold get_column_letter.
  destruct (Z.leb_spec (Z.pos c) 18278) as [Hc|]; [|done].
  intros [= <-]. pose proof column_index_checked as H.
  rewrite forallb_forall in H. apply Z.eqb_eq, H, list_elem_of_In.
  change 18279%positive with (Pos.succ 18278). apply elem_of_range_1. lia.
Qed.

Lemma get_column_letter_inj c c' l :
  get_column_letter c = Ok l → get_column_letter c' = Ok l → c = c'.
Proof.
  intros H%get_column_letter_index H'%get_column_letter_index. congruence.
Qed.

(** X20.  [get_column_letter] gives different columns different
    letters: no two of the 18278 columns that have letters share
    them. *)
Theorem get_column_letter_injective (c c' : positive) (l : string) :
  get_column_letter c = Ok l → get_column_letter c' = Ok l → c = c'.
Proof. apply get_column_letter_inj. Qed.

(** *** The widths *)

Lemma banded_cells_column_dimensions first p ws :
  column_dimensions (banded_cells first p ws) = column_dimensions ws.
Proof.
  unfold banded_cells. generalize (range first (Pos.succ (max_row ws)) 2).
  intros rows. revert ws. induction rows as [|r rows IH]; intros ws; [done|].
  simpl. by rewrite IH, row_paint, paint_column_dimensions.
Qed.

Lemma styled_dimensions ws : column_dimensions (styled ws) = column_dimensions ws.
Proof.
  unfold styled. rewrite !banded_cells_column_dimensions.
  unfold centered_cells.
  fold (paint (with_alignment CENTER) (iter_rows (header_cells ws)) (header_cells ws)).
  by rewrite paint_column_dimensions, header_cells_paint, paint_column_dimensions.
Qed.

Lemma dimensions_lookup cols dh0 dh l d :
  dimensions cols dh0 = Ok dh →
  dh !! l = Some d ↔
    (∃ c, c ∈ cols ∧ get_column_letter c = Ok l ∧ d = ColumnDimension c c 25)
    ∨ (dh0 !! l = Some d ∧ ∀ c, c ∈ cols → get_column_letter c ≠ Ok l).
Proof.
  revert dh0. induction cols as [|c cols IH]; intros dh0.
  - intros [= <-]. split; [intros H; right; split; [done|]|].
    + by intros c ?%elem_of_nil.
    + by intros [(c & ?%elem_of_nil & _)|[? _]].
  - unfold dimensions. simpl.
    destruct (get_column_letter c) as [lc|e] eqn:Hc; [|done].
    rewrite bind_Ok. intros H%IH. rewrite H. clear H IH. split.
    + intros [(c' & Hin & Hl & ->)|[Hd Hnone]].
      * left. exists c'. split; [by right|done].
      * destruct (decide (lc = l)) as [->|Hne].
        -- rewrite lookup_insert_eq in Hd. injection Hd as <-.
           left. exists c. split; [by left|done].
        -- rewrite lookup_insert_ne in Hd by done. right. split; [done|].
           intros c' [->|Hin]%elem_of_cons; [congruence|by apply Hnone].
    + intros [(c' & [->|Hin]%elem_of_cons & Hl & ->)|[Hd Hnone]].
      * assert (∀ c', Decision (get_column_letter c' = Ok l)) as Hdec.
        { intros c'. destruct (get_column_letter c') as [l'|];
            [destruct (decide (l' = l)); [left|right]; congruence|by right]. }
        destruct (decide (Exists (λ c', get_column_letter c' = Ok l) cols))
          as [(c' & Hin & Hl')%Exists_exists|Hno].
        -- left. exists c'. split_and!; [done..|].
           by rewrite (get_column_letter_inj _ _ _ Hl Hl').
        -- right. split.
           ++ rewrite Hc in Hl. injection Hl as ->. by rewrite lookup_insert_eq.
           ++ intros c' Hin Hl'. apply Hno, Exists_exists. eauto.
      * left. eauto.
      * right. split.
        -- rewrite lookup_insert_ne; [done|]. intros ->.
           apply (Hnone c); [by left|done].
        -- intros c' Hin. apply Hnone. by right.
Qed.

(** X21.  The widths of a formatted sheet, whatever the sheet was.  The
    columns from the first used to the last used have a width, each the
    width 25 under its own letters, and no other column has one: the
    widths that the sheet had before are dropped with the holder that
    held them. *)
Theorem format_sheet_widths (ws ws' : worksheet) :
  format_sheet ws = Ok ws' →
  ∀ l d, column_dimensions ws' !! l = Some d ↔
    ∃ c, (min_column ws ≤ c ≤ max_column ws)%positive ∧
      get_column_letter c = Ok l ∧ d = ColumnDimension c c 25.
Proof.
  rewrite format_sheet_eq.
  destruct (dimensions _ _) as [dh|] eqn:Hdh; [|done]. rewrite bind_Ok.
  destruct (max_row ws <=? MAX_ROW)%positive; [|done]. intros [= <-] l d.
  rewrite styled_dimensions. simpl.
  rewrite (dimensions_lookup _ _ _ l d Hdh). split.
  - intros [(c & Hc%elem_of_range_1 & ?)|[H _]]; [eauto|].
    by rewrite lookup_empty in H.
  - intros (c & Hc%elem_of_range_1 & ?). left. eauto.
Qed.

Lemma dimensions_fails cols dh0 c :
  c ∈ cols → (18278 < c)%positive → dimensions cols dh0 = Err ValueError.
Proof.
  intros Hin Hc. revert dh0.
  induction cols as [|c' cols IH]; intros dh0; [by apply elem_of_nil in Hin|].
  unfold dimensions. simpl. unfold get_column_letter.
  destruct (Z.leb_spec (Z.pos c') 18278); [|done].
  rewrite bind_Ok. apply IH.
  apply elem_of_cons in Hin as [->|?]; [lia|done].
Qed.

(** X22.  When the formatter fails.  It returns a sheet exactly when the
    last used column is at most 18278, the last that has letters, and the
    last used row at most 1048576, the last that [ws.cell] gives a cell
    for.  On a wider sheet it ends with [ValueError] at the width loop,
    before a cell is touched; on a longer one with the [ValueError] of
    the first cell that is asked for beyond the last row, after the
    widths and the header. *)
Theorem format_sheet_returns_iff (ws : worksheet) :
  ((∃ ws', format_sheet ws = Ok ws') ↔
     (max_column ws ≤ 18278)%positive ∧ (max_row ws ≤ MAX_ROW)%positive) ∧
  (format_sheet ws = Err ValueError ↔
     (18278 < max_column ws)%positive ∨ (MAX_ROW < max_row ws)%positive).
Proof.
  assert ((18278 < max_column ws)%positive → format_sheet ws = Err ValueError)
    as Hwide.
  { intros H. rewrite format_sheet_eq.
    rewrite (dimensions_fails _ _ (max_column ws)); [done| |done].
    apply elem_of_range_1. split; [apply min_column_max_column|lia]. }
  assert ((max_column ws ≤ 18278)%positive → (MAX_ROW < max_row ws)%positive →
          format_sheet ws = Err ValueError) as Htall.
  { intros Hc Hr. rewrite format_sheet_eq.
    destruct (dimensions_returns
                (range (min_column ws) (Pos.succ (max_column ws)) 1) ∅)
      as [dh ->].
    { apply Forall_forall. intros c Hin%elem_of_range_1. lia. }
    rewrite bind_Ok.
    destruct (Pos.leb_spec (max_row ws) MAX_ROW) as [Hle|_]; [|done].
    by apply Pos.lt_nle in Hr. }
  destruct (Pos.leb_spec (max_column ws) 18278) as [Hc|Hc];
    [destruct (Pos.leb_spec (max_row ws) MAX_ROW) as [Hr|Hr]|].
  - destruct (format_sheet_returns ws Hc Hr) as [ws' Hws']. split; split.
    + done.
    + intros _. by exists ws'.
    + by rewrite Hws'.
    + intros [H|H]; by apply Pos.lt_nle in H.
  - rewrite (Htall Hc Hr). split; split.
    + by intros [ws' ?].
    + intros [_ H]. by apply Pos.lt_nle in Hr.
    + intros _. by right.
    + done.
  - rewrite (Hwide Hc). split; split.
    + by intros [ws' ?].
    + intros [H _]. by apply Pos.lt_nle in Hc.
    + intros _. by left.
    + done.
Qed.

(** *** Formatting between appends *)

Lemma worksheet_eq (a b : worksheet) :
  title a = title b → cells a = cells b →
  column_dimensions a = column_dimensions b → current_row a = current_row b →
  a = b.
Proof. destruct a, b. simpl. by intros -> -> -> ->. Qed.

Lemma paint_current_row g ps ws n :
  current_row ws = n → Forall (λ q, (N.pos q.1 ≤ n)%N) ps →
  current_row (paint g ps ws) = n.
Proof.
  revert ws. induction ps as [|[r c] ps IH]; intros ws Hn Hps; [done|].
  apply Forall_cons in Hps as [Hp Hps]. rewrite paint_cons. simpl in *.
  apply IH; [|done]. unfold put_cell.
  destruct (cells ws !! (r, c)); simpl; lia.
Qed.

Lemma max_row_le_current_row ws :
  well_formed ws → current_row ws ≠ 0%N →
  (N.pos (max_row ws) ≤ current_row ws)%N.
Proof.
  intros Hwf Hne. destruct (max_row_in ws) as [->|[c H]]; [lia|by eapply Hwf].
Qed.

Lemma styled_current_row ws :
  well_formed ws → min_column ws = 1%positive → current_row ws ≠ 0%N →
  current_row (styled ws) = current_row ws.
Proof.
  intros Hwf Hmin Hne. rewrite styled_eq by done. cbv zeta.
  pose proof (max_row_le_current_row ws Hwf Hne) as HR.
  repeat apply paint_current_row; [done|..];
    apply Forall_forall; intros [r c];
    rewrite ?elem_of_grid, ?elem_of_row, ?elem_of_range_1, ?elem_of_range_even,
      ?elem_of_range_odd; simpl; intros H; lia.
Qed.

(** Two sheets that differ in what the formatter overwrites are formatted
    to the same sheet. *)
Lemma styled_ext wa wb :
  well_formed wa → well_formed wb →
  min_column wa = 1%positive → min_column wb = 1%positive →
  title wa = title wb → column_dimensions wa = column_dimensions wb →
  current_row wa = current_row wb → current_row wb ≠ 0%N →
  max_row wa = max_row wb → max_column wa = max_column wb →
  (∀ r c,
     value (default blank (cells wa !! (r, c)))
       = value (default blank (cells wb !! (r, c))) ∧
     (r ≠ 1%positive →
      cell_font (default blank (cells wa !! (r, c)))
        = cell_font (default blank (cells wb !! (r, c))))) →
  styled wa = styled wb.
Proof.
  intros Hwa Hwb Hma Hmb Ht Hd Hc Hne HR HC Hag. apply worksheet_eq.
  - unfold styled.
    by rewrite !banded_cells_title, !centered_cells_title, !header_cells_title.
  - apply map_eq. intros [r c]. rewrite !styled_lookup by done.
    rewrite HR, HC. case_decide; [|done]. cbv zeta.
    destruct (Hag r c) as [-> Hf]. do 2 f_equal.
    destruct (Pos.eqb_spec r 1); [done|by apply Hf].
  - by rewrite !styled_dimensions.
  - rewrite !styled_current_row by (done || congruence). done.
Qed.

Lemma format_sheet_ext wa wb :
  well_formed wa → well_formed wb →
  min_column wa = 1%positive → min_column wb = 1%positive →
  title wa = title wb →
  current_row wa = current_row wb → current_row wb ≠ 0%N →
  max_row wa = max_row wb → max_column wa = max_column wb →
  (∀ r c,
     value (default blank (cells wa !! (r, c)))
       = value (default blank (cells wb !! (r, c))) ∧
     (r ≠ 1%positive →
      cell_font (default blank (cells wa !! (r, c)))
        = cell_font (default blank (cells wb !! (r, c))))) →
  format_sheet wa = format_sheet wb.
Proof.
  intros Hwa Hwb Hma Hmb Ht Hc Hne HR HC Hag.
  rewrite !format_sheet_eq, Hma, Hmb, HC, HR.
  destruct (dimensions _ _) as [dh|e]; [|done]. rewrite !bind_Ok.
  destruct (max_row wb <=? MAX_ROW)%positive; [|done]. f_equal.
  by apply styled_ext.
Qed.

Lemma area_mono a b :
  (∀ q, is_Some (cells a !! q) → is_Some (cells b !! q)) →
  (max_row a ≤ max_row b)%positive ∧ (max_column a ≤ max_column b)%positive.
Proof.
  intros H. split.
  - destruct (max_row_in a) as [->|[c Hc]]; [lia|]. eapply max_row_ge, H, Hc.
  - destruct (max_column_in a) as [->|[r Hr]]; [lia|].
    eapply max_column_ge, H, Hr.
Qed.

Lemma area_same a b :
  (∀ q, is_Some (cells b !! q) → is_Some (cells a !! q)) →
  (∀ r c, is_Some (cells a !! (r, c)) →
     (r ≤ max_row b ∧ c ≤ max_column b)%positive) →
  max_row a = max_row b ∧ max_column a = max_column b.
Proof.
  intros Hsub Hb. destruct (area_mono b a Hsub).
  split; apply Pos.le_antisym; try done.
  - destruct (max_row_in a) as [->|[c Hc]]; [lia|]. by apply Hb in Hc as [? _].
  - destruct (max_column_in a) as [->|[r Hr]]; [lia|].
    by apply Hb in Hr as [_ ?].
Qed.

Lemma put_row_agree r c row m1 m2 q :
  m1 !! q = m2 !! q → put_row r c row m1 !! q = put_row r c row m2 !! q.
Proof.
  revert c m1 m2. induction row as [|v row IH]; intros c m1 m2 H; [done|].
  simpl. apply IH. destruct (decide (q = (r, c))) as [->|Hne].
  - by rewrite !lookup_insert_eq.
  - by rewrite !lookup_insert_ne.
Qed.

Lemma append_rows_app l1 l2 ws :
  append_rows (l1 ++ l2) ws = append_rows l1 ws ≫= append_rows l2.
Proof.
  revert ws. induction l1 as [|row l1 IH]; intros ws; [done|].
  simpl. destruct (append row ws) as [ws1|e]; [|done].
  rewrite !bind_Ok. apply IH.
Qed.

Lemma append_rows_current_row rows ws ws' :
  append_rows rows ws = Ok ws' →
  current_row ws' = (current_row ws + N.of_nat (List.length rows))%N.
Proof.
  revert ws. induction rows as [|row rows IH]; intros ws; simpl.
  - intros [= <-]. lia.
  - destruct (append row ws) as [ws1|e] eqn:E; [|done]. rewrite bind_Ok.
    intros ->%IH. apply append_spec in E as (values & _ & _ & -> & _). lia.
Qed.

(** The rows that were there are not written again. *)
Lemma append_rows_below rows ws ws' q :
  append_rows rows ws = Ok ws' → (N.pos q.1 ≤ current_row ws)%N →
  cells ws' !! q = cells ws !! q.
Proof.
  revert ws. induction rows as [|row rows IH]; intros ws; simpl.
  - by intros [= <-].
  - destruct (append row ws) as [ws1|e] eqn:E; [|done]. rewrite bind_Ok.
    intros H Hq. apply append_spec in E as (values & _ & _ & Hcr & Hcells).
    rewrite (IH _ H) by lia. rewrite Hcells.
    apply put_row_other. left. lia.
Qed.

(** The same rows appended to two sheets of the same height: where the
    sheets agreed they still do. *)
Lemma append_rows_agree rows s1 s2 wa wb q :
  append_rows rows s1 = Ok wa → append_rows rows s2 = Ok wb →
  current_row s1 = current_row s2 →
  cells s1 !! q = cells s2 !! q → cells wa !! q = cells wb !! q.
Proof.
  revert s1 s2. induction rows as [|row rows IH]; intros s1 s2; simpl.
  - by intros [= <-] [= <-].
  - destruct (append row s1) as [s1'|] eqn:E1; [|done].
    destruct (append row s2) as [s2'|] eqn:E2; [|done]. rewrite !bind_Ok.
    intros H1 H2 Hc Hq.
    apply append_spec in E1 as (values & Hv1 & _ & Hc1 & Hm1).
    apply append_spec in E2 as (values' & Hv2 & _ & Hc2 & Hm2).
    assert (values' = values) as -> by congruence.
    apply (IH s1' s2'); [done|done|by rewrite Hc1, Hc2, Hc|].
    rewrite Hm1, Hm2, Hc. by apply put_row_agree.
Qed.

(** Whether rows can be appended is a matter of the rows. *)
Lemma append_rows_same_outcome rows s1 s2 :
  (∃ wa wb, append_rows rows s1 = Ok wa ∧ append_rows rows s2 = Ok wb)
  ∨ (∃ e, append_rows rows s1 = Err e ∧ append_rows rows s2 = Err e).
Proof.
  revert s1 s2. induction rows as [|row rows IH]; intros s1 s2; simpl.
  - left. eauto.
  - unfold append. destruct (mapM bind_value row) as [values|e]; [|right; eauto].
    rewrite !bind_Ok. apply IH.
Qed.

(** X25.  Formatting and appending, in either order.  A sheet of rows
    that has been formatted, has then been given more rows and is
    formatted again becomes the very sheet that all the rows give when
    they are appended first and formatted once: the first formatting
    leaves nothing behind that the second does not redo.  When a row
    cannot be appended, or a column is beyond [ZZZ] or a row beyond the
    last row, both ways end with the same error. *)
Theorem format_between_appends (t : string)
    (rows0 rows : list (list cell_value)) (ws0 ws0' : worksheet) :
  rows0 ≠ [] →
  append_rows rows0 (new_sheet t) = Ok ws0 → format_sheet ws0 = Ok ws0' →
  append_rows rows ws0' ≫= format_sheet
  = append_rows (rows0 ++ rows) (new_sheet t) ≫= format_sheet.
Proof.
  intros Hne Hws0 Hfmt. rewrite append_rows_app, Hws0, bind_Ok.
  destruct (append_rows_tidy _ _ _ Hws0 (new_sheet_tidy t)) as [Hwf0 Hleft0].
  pose proof (starts_left_min_column _ Hleft0) as Hmin0.
  assert (current_row ws0 ≠ 0%N) as Hcr0.
  { rewrite (append_rows_current_row _ _ _ Hws0).
    destruct rows0; [done|simpl; lia]. }
  pose proof (format_sheet_title _ _ Hfmt) as Htitle.
  rewrite format_sheet_eq in Hfmt.
  destruct (dimensions _ _) as [dh|]; [|done]. rewrite bind_Ok in Hfmt.
  destruct (max_row ws0 <=? MAX_ROW)%positive; [|done]. injection Hfmt as <-.
  set (w0 := with_column_dimensions dh ws0) in *.
  assert (well_formed w0) as Hwfw by done.
  assert (min_column w0 = 1%positive) as Hminw by done.
  pose proof (λ r c, styled_lookup w0 r c Hwfw Hminw) as Hcells.
  change (max_row w0) with (max_row ws0) in Hcells.
  change (max_column w0) with (max_column ws0) in Hcells.
  change (cells w0) with (cells ws0) in Hcells.
  pose proof (styled_current_row w0 Hwfw Hminw Hcr0) as Hcr.
  change (current_row w0) with (current_row ws0) in Hcr.
  pose proof (styled_well_formed w0 Hwfw Hminw) as Hwf1.
  assert (starts_left (styled w0)) as Hleft1.
  { intros r c. rewrite !Hcells.
    destruct (decide ((r ≤ max_row ws0)%positive ∧ (c ≤ max_column ws0)%positive))
      as [[Hr Hc]|]; [|by intros [? ?]].
    intros _. rewrite decide_True; [done|]. split; [done|lia]. }
  destruct (append_rows_same_outcome rows (styled w0) ws0)
    as [(wa & wb & Ea & Eb)|(e & Ea & Eb)]; rewrite Ea, Eb; [|done].
  rewrite !bind_Ok.
  destruct (append_rows_tidy _ _ _ Ea (conj Hwf1 Hleft1)) as [Hwfa Hlefta].
  destruct (append_rows_tidy _ _ _ Eb (conj Hwf0 Hleft0)) as [Hwfb Hleftb].
  pose proof (append_rows_current_row _ _ _ Ea) as Hcra.
  pose proof (append_rows_current_row _ _ _ Eb) as Hcrb.
  assert (∀ r c,
    (is_Some (cells wb !! (r, c)) → is_Some (cells wa !! (r, c))) ∧
    (is_Some (cells wa !! (r, c)) →
       is_Some (cells wb !! (r, c))
       ∨ (r ≤ max_row ws0 ∧ c ≤ max_column ws0)%positive) ∧
    (is_Some (cells ws0 !! (r, c)) → is_Some (cells wb !! (r, c))) ∧
    value (default blank (cells wa !! (r, c)))
      = value (default blank (cells wb !! (r, c))) ∧
    (r ≠ 1%positive →
     cell_font (default blank (cells wa !! (r, c)))
       = cell_font (default blank (cells wb !! (r, c))))) as Hag.
  { intros r c. destruct (decide (N.pos r ≤ current_row ws0)%N) as [Hr|Hr].
    - rewrite (append_rows_below _ _ _ (r, c) Ea) by (by rewrite Hcr).
      rewrite (append_rows_below _ _ _ (r, c) Eb) by done.
      rewrite Hcells.
      destruct (cells ws0 !! (r, c)) as [x0|] eqn:E0.
      + pose proof (max_row_ge ws0 r c (mk_is_Some _ _ E0)).
        pose proof (max_column_ge ws0 r c (mk_is_Some _ _ E0)).
        rewrite decide_True by done. simpl.
        split_and!; eauto. intros Hr1. by destruct r.
      + case_decide; simpl; split_and!; eauto; try (by intros [? ?]).
        intros Hr1. by destruct r.
    - assert (cells (styled w0) !! (r, c) = None) as E1.
      { destruct (cells (styled w0) !! (r, c)) eqn:E1; [|done].
        pose proof (Hwf1 r c (mk_is_Some _ _ E1)). lia. }
      assert (cells ws0 !! (r, c) = None) as E2.
      { destruct (cells ws0 !! (r, c)) eqn:E2; [|done].
        pose proof (Hwf0 r c (mk_is_Some _ _ E2)). lia. }
      rewrite (append_rows_agree _ _ _ _ _ (r, c) Ea Eb) by congruence.
      rewrite E2. split_and!; eauto. by intros [? ?]. }
  destruct (area_mono ws0 wb) as [HR0 HC0].
  { intros [r c]. apply Hag. }
  destruct (area_same wa wb) as [HR HC].
  { intros [r c]. apply Hag. }
  { intros r c Ha. destruct (Hag r c) as (_ & [Hb|[??]] & _); [done| |lia].
    split; [by eapply max_row_ge|by eapply max_column_ge]. }
  apply format_sheet_ext; try done.
  - by apply starts_left_min_column.
  - by apply starts_left_min_column.
  - apply append_rows_title in Ea, Eb. by rewrite Ea, Eb.
  - by rewrite Hcra, Hcrb, Hcr.
  - rewrite Hcrb. lia.
  - intros r c. destruct (Hag r c) as (_ & _ & _ & ? & ?). done.
Qed.

(** * The theorems at work *)

(** ** On the sample array *)

(** C7 on [calm], for [lssystem] on the client that has its token: the
    check is passed and the answer is returned. *)
Lemma ls_always_authorized_witness :
  startswith "lssystem" "ls" = true ∧
  check_user_rights "lssystem" ready = (Ret true, ready) ∧
  (run_command calm "lssystem" ready).1 = Ret sample_lssystem.
Proof.
  assert (startswith "lssystem" "ls" = true) as H by reflexivity.
  split; [exact H|].
  destruct (ls_always_authorized calm "lssystem" ready H)
    as (Hcheck & _ & _ & _ & Hsent).
  split; [exact Hcheck|].
  destruct (Hsent (record_event (Connect "array" "7443") ready) eq_refl)
    as (_ & _ & _ & Hpost).
  rewrite (Hpost (JStr "38823f60") eq_refl). reflexivity.
Defined.

(** C2 for [mkvdisk] and the role Monitor. *)
Lemma mutate_needs_admin_witness :
  classify "mkvdisk" = Mutate ∧ user_role monitor = Some "Monitor" ∧
  check_user_rights "mkvdisk" monitor = (Exit 5, monitor).
Proof.
  split; [reflexivity|]. split; [reflexivity|].
  apply (mutate_needs_admin calm "mkvdisk" "Monitor" monitor eq_refl eq_refl);
    discriminate.
Defined.


(** C5 on the sample answer, with its two tiers. *)
Lemma lssystem_one_row_witness :
  is_summary sample_lssystem sample_fixed ∧
  subscript sample_lssystem "tiers" = Ok (JArr sample_tier_entries) ∧
  Forall2 is_tier sample_tier_entries sample_tier_list ∧
  lssystem_row sample_lssystem
    = Ok (sample_fixed ++ dict_of (sample_tier_list ≫= tier_columns)).
Proof.
  assert (is_summary sample_lssystem sample_fixed) as H1.
  { repeat constructor. }
  assert (subscript sample_lssystem "tiers" = Ok (JArr sample_tier_entries))
    as H2.
  { reflexivity. }
  assert (Forall2 is_tier sample_tier_entries sample_tier_list) as H3.
  { repeat constructor. }
  split; [exact H1|]. split; [exact H2|]. split; [exact H3|].
  exact (proj1 (lssystem_one_row calm _ _ _ _ H1 H2 H3)).
Defined.

(** C10 on the empty answer. *)
Lemma absent_key_raises_witness :
  key_absent (JObj []) ∧ ∃ e, lssystem_row (JObj []) = Err e.
Proof.
  assert (key_absent (JObj [])) as H.
  { left. exists "product_name". split; [|reflexivity].
    apply list_elem_of_In. vm_compute. by left. }
  split; [exact H|]. exact (proj1 (absent_key_raises calm _ H)).
Defined.

(** C8 on the small sheet. *)
Lemma format_sheet_idempotent_witness :
  well_formed small_sheet ∧ min_column small_sheet = 1%positive ∧
  format_sheet small_sheet ≫= format_sheet = format_sheet small_sheet.
Proof.
  assert (append_rows small_rows (new_sheet "lsnode") = Ok small_sheet) as H.
  { vm_compute. reflexivity. }
  assert (well_formed small_sheet) as H1.
  { exact (append_rows_well_formed _ _ _ H (proj1 (new_sheet_tidy "lsnode"))). }
  assert (min_column small_sheet = 1%positive) as H2.
  { vm_compute. reflexivity. }
  split; [exact H1|]. split; [exact H2|].
  exact (proj1 (format_sheet_idempotent small_sheet H1 H2)).
Defined.


(** C1 on [calm], after two commands. *)
Lemma sheets_follow_commands_witness :
  keeps_titles calm ∧
  first_run ready = Some true ∧ disk ready = NoFile ∧
  report calm (take 2 report_commands) ready
    = (Ret tt, (report calm (take 2 report_commands) ready).2) ∧
  persisted (disk (report calm (take 2 report_commands) ready).2)
    = Some ["lssystem"; "lsnodecanister"].
Proof.
  assert (keeps_titles calm) as H0.
  { intros tr wb wb' H. injection H as <-. reflexivity. }
  assert (first_run ready = Some true) as H1 by reflexivity.
  assert (disk ready = NoFile) as H2 by reflexivity.
  assert (report calm (take 2 report_commands) ready
          = (Ret tt, (report calm (take 2 report_commands) ready).2)) as H3.
  { vm_compute. reflexivity. }
  split; [exact H0|]. split; [exact H1|]. split; [exact H2|]. split; [exact H3|].
  exact (proj1 (sheets_follow_commands calm ready 2 _ H0 H1 H2 H3)).
Defined.

(** ** The other calls, on the sample array *)

(** X1 for [stopfcmap] and the role Monitor. *)
Lemma lifecycle_needs_copy_operator_witness :
  classify "stopfcmap" = Lifecycle ∧ user_role monitor = Some "Monitor" ∧
  check_user_rights "stopfcmap" monitor = (Exit 5, monitor).
Proof.
  split; [reflexivity|]. split; [reflexivity|].
  apply (lifecycle_needs_copy_operator calm "stopfcmap" "Monitor" monitor
           eq_refl eq_refl); discriminate.
Defined.

(** X2 for [detectmdisk], which [calm] answers as any other command. *)
Lemma unclassified_is_sent_witness :
  classify "detectmdisk" = Unclassified ∧
  check_user_rights "detectmdisk" ready = (Ret false, ready) ∧
  (run_command calm "detectmdisk" ready).1 = Ret sample_records.
Proof.
  split; [reflexivity|].
  destruct (unclassified_is_sent calm "detectmdisk" ready eq_refl) as [H1 H2].
  split; [exact H1|].
  rewrite (H2 (record_event (Connect "array" "7443") ready) (JStr "38823f60")
             eq_refl eq_refl).
  reflexivity.
Defined.

(** X3 for [lsnode] on [calm]: the probe and the one request. *)
Lemma run_command_events_witness :
  run_command calm "lsnode" ready
    = (Ret sample_records, (run_command calm "lsnode" ready).2) ∧
  trace (run_command calm "lsnode" ready).2
    = trace ready ++
      [ Connect "array" "7443";
        Post "https://array:7443/rest/lsnode" [("X-Auth-Token", JStr "38823f60")] ].
Proof.
  assert (run_command calm "lsnode" ready
          = (Ret sample_records, (run_command calm "lsnode" ready).2)) as H.
  { vm_compute. reflexivity. }
  split; [exact H|].
  destruct (run_command_events calm "lsnode" ready _ _ H)
    as [[_ Hno]|(token & Ht & _ & ->)].
  - destruct (Hno sample_records eq_refl).
  - injection Ht as <-. reflexivity.
Defined.

(** X4 on [calm], which answers [auth] with status 200 and a token. *)
Lemma get_token_outcomes_witness :
  check_connection calm sample_client
    = (Ret tt, record_event (Connect "array" "7443") sample_client) ∧
  (get_token calm sample_client).1 = Ret (JStr "38823f60").
Proof.
  assert (check_connection calm sample_client
          = (Ret tt, record_event (Connect "array" "7443") sample_client)) as H.
  { reflexivity. }
  split; [exact H|].
  destruct (get_token_outcomes calm sample_client _ 200
              (Some (JObj [("token", JStr "38823f60")])) H eq_refl)
    as (r & -> & _ & Hret & _).
  apply Hret. split; [reflexivity|]. eexists. split; reflexivity.
Defined.

(** X5 on [calm]: the four events of the session set-up. *)
Lemma init_events_witness :
  init calm sample_client = (Ret tt, ready) ∧
  trace ready =
    [ Connect "array" "7443";
      Post "https://array:7443/rest/auth"
        [ ("X-Auth-Username", JStr "monitor"); ("X-Auth-Password", JStr "secret");
          ("charset", JStr "utf-8") ];
      Connect "array" "7443";
      Post "https://array:7443/rest/lscurrentuser"
        [("X-Auth-Token", JStr "38823f60")] ].
Proof.
  assert (init calm sample_client = (Ret tt, ready)) as H.
  { vm_compute. reflexivity. }
  split; [exact H|].
  destruct (init_events calm sample_client ready H)
    as (token & role & Ht & _ & _ & _ & Htrace).
  vm_compute in Ht. injection Ht as <-. exact Htrace.
Defined.

(** X7 on [unreachable]. *)
Lemma unreachable_exits_6_witness :
  connect_ex unreachable (trace sample_client) ≠ 0 ∧
  shutdown unreachable (trace sample_client ++ [Connect "array" "7443"]) = None ∧
  init unreachable sample_client
    = (Exit 6, record_event (Connect "array" "7443") sample_client).
Proof.
  assert (connect_ex unreachable (trace sample_client) ≠ 0) as H by discriminate.
  split; [exact H|]. split; [reflexivity|].
  exact (proj1 (proj2 (unreachable_exits_6 unreachable sample_client H eq_refl))).
Defined.


(** X9 for one array and two seconds. *)
Lemma report_file_names_witness :
  valid_datetime sample_now ∧ valid_datetime a_second_later ∧
  master_file (new_client "array" "monitor" "secret" "./output/" (strftime sample_now))
  ≠ master_file
      (new_client "array" "monitor" "secret" "./output/" (strftime a_second_later)).
Proof.
  assert (valid_datetime sample_now) as H1 by (unfold valid_datetime; simpl; lia).
  assert (valid_datetime a_second_later) as H2
    by (unfold valid_datetime; simpl; lia).
  split; [exact H1|]. split; [exact H2|].
  intros [_ [=]]%(proj1 (report_file_names _ _ _ _ _ _ _ _ _ H1 H2)).
Defined.

(** X10 for the sample answer with and without [quorum_lease]. *)
Lemma lssystem_row_reads_only_witness :
  (∀ k, k ∈ summary_fields →
     subscript sample_lssystem k = subscript bare_lssystem k) ∧
  lssystem_row sample_lssystem = lssystem_row bare_lssystem.
Proof.
  assert (∀ k, k ∈ summary_fields →
            subscript sample_lssystem k = subscript bare_lssystem k) as H.
  { intros k Hk. unfold summary_fields in Hk. simpl in Hk.
    repeat (apply elem_of_cons in Hk as [->|Hk]; [reflexivity|]).
    destruct (proj1 (elem_of_nil k) Hk). }
  split; [exact H|]. exact (lssystem_row_reads_only _ _ H).
Defined.

(** X11 on the empty answer: the first field of the source is named. *)
Lemma first_absent_key_named_witness :
  summary_fields !! O = Some "product_name" ∧
  lssystem_row (JObj []) = Err (KeyError "product_name").
Proof.
  split; [reflexivity|].
  apply (first_absent_key_named [] O "product_name" eq_refl eq_refl).
  intros j k' Hj. lia.
Defined.

(** X12 on [second_run]: the sheet of [lssystem] is gone. *)
Lemma first_command_replaces_file_witness :
  first_run second_run = Some true ∧ disk second_run = XLSX lssystem_book ∧
  valid_title "lsvdisk" = true ∧ lower "lsvdisk" ≠ "sheet" ∧
  parse_command_to_excel calm "lsvdisk" second_run
    = (Ret tt, (parse_command_to_excel calm "lsvdisk" second_run).2) ∧
  ∃ ws',
    disk (parse_command_to_excel calm "lsvdisk" second_run).2 = XLSX [ws'] ∧
    title ws' = "lsvdisk".
Proof.
  assert (first_run second_run = Some true) as H1 by reflexivity.
  assert (valid_title "lsvdisk" = true) as H2 by reflexivity.
  assert (lower "lsvdisk" ≠ "sheet") as H3 by discriminate.
  assert (parse_command_to_excel calm "lsvdisk" second_run
    = (Ret tt, (parse_command_to_excel calm "lsvdisk" second_run).2)) as H4.
  { vm_compute. reflexivity. }
  split_and!; [assumption|vm_compute; reflexivity|assumption..|].
  destruct (first_command_replaces_file calm _ _ _ H1 H2 H3 H4)
    as (rows & st1 & ws & ws' & _ & _ & _ & Ht & Hd).
  exists ws'. split; [exact Hd|exact Ht].
Defined.

(** X13 on [calm], for the second command of the list. *)
Lemma earlier_sheets_kept_witness :
  first_run after_lssystem = Some false ∧ disk after_lssystem = XLSX lssystem_book ∧
  load calm (trace after_lssystem) lssystem_book = Ok lssystem_book ∧
  valid_title "lsnodecanister" = true ∧
  (lower "lsnodecanister" ∉ lower <$> sheetnames lssystem_book) ∧
  parse_command_to_excel calm "lsnodecanister" after_lssystem
    = (Ret tt, (parse_command_to_excel calm "lsnodecanister" after_lssystem).2) ∧
  ∃ ws',
    disk (parse_command_to_excel calm "lsnodecanister" after_lssystem).2
      = XLSX (lssystem_book ++ [ws']) ∧ title ws' = "lsnodecanister".
Proof.
  assert (first_run after_lssystem = Some false) as H1 by reflexivity.
  assert (disk after_lssystem = XLSX lssystem_book) as H2
    by (vm_compute; reflexivity).
  assert (load calm (trace after_lssystem) lssystem_book = Ok lssystem_book)
    as Hl by reflexivity.
  assert (valid_title "lsnodecanister" = true) as H3 by reflexivity.
  assert (lower "lsnodecanister" ∉ lower <$> sheetnames lssystem_book) as H4.
  { apply (bool_decide_unpack _). vm_compute. reflexivity. }
  assert (parse_command_to_excel calm "lsnodecanister" after_lssystem
    = (Ret tt, (parse_command_to_excel calm "lsnodecanister" after_lssystem).2))
    as H5.
  { vm_compute. reflexivity. }
  split_and!; try assumption.
  destruct (earlier_sheets_kept calm _ _ _ _ _ H1 H2 Hl H3 H4 H5)
    as (rows & st1 & ws & ws' & _ & _ & _ & Ht & Hd).
  exists ws'. split; [exact Hd|exact Ht].
Defined.

(** X14 on [calm], for [lssystem] a second time. *)
Lemma repeated_command_reuses_sheet_witness :
  first_run after_lssystem = Some false ∧ disk after_lssystem = XLSX lssystem_book ∧
  load calm (trace after_lssystem) lssystem_book = Ok lssystem_book ∧
  valid_title "lssystem" = true ∧ sheet_index "lssystem" lssystem_book = Some O ∧
  parse_command_to_excel calm "lssystem" after_lssystem
    = (Ret tt, (parse_command_to_excel calm "lssystem" after_lssystem).2) ∧
  ∃ ws',
    disk (parse_command_to_excel calm "lssystem" after_lssystem).2
      = XLSX (<[O := ws']> lssystem_book ++ [new_sheet "lssystem1"]).
Proof.
  assert (first_run after_lssystem = Some false) as H1 by reflexivity.
  assert (disk after_lssystem = XLSX lssystem_book) as H2
    by (vm_compute; reflexivity).
  assert (load calm (trace after_lssystem) lssystem_book = Ok lssystem_book)
    as Hl by reflexivity.
  assert (valid_title "lssystem" = true) as H3 by reflexivity.
  assert (sheet_index "lssystem" lssystem_book = Some O) as H4 by reflexivity.
  assert (parse_command_to_excel calm "lssystem" after_lssystem
    = (Ret tt, (parse_command_to_excel calm "lssystem" after_lssystem).2)) as H5.
  { vm_compute. reflexivity. }
  split_and!; try assumption.
  destruct (repeated_command_reuses_sheet calm _ _ _ _ _ _ H1 H2 Hl H3 H4 H5)
    as (old & rows & st1 & ws & ws' & _ & _ & _ & _ & _ & Hd).
  exists ws'. exact Hd.
Defined.

(** X15 on [calm]: the seven events of the first two commands. *)
Lemma report_events_spec_witness :
  first_run ready = Some true ∧ token_id ready = Some (JStr "38823f60") ∧
  report calm (take 2 report_commands) ready
    = (Ret tt, (report calm (take 2 report_commands) ready).2) ∧
  trace (report calm (take 2 report_commands) ready).2
    = trace ready ++
      [ Connect "array" "7443";
        Post "https://array:7443/rest/lssystem" [("X-Auth-Token", JStr "38823f60")];
        Save "./output/SVCheck_array_2026-01-01_00-00-00.xlsx";
        Load "./output/SVCheck_array_2026-01-01_00-00-00.xlsx";
        Connect "array" "7443";
        Post "https://array:7443/rest/lsnodecanister"
          [("X-Auth-Token", JStr "38823f60")];
        Save "./output/SVCheck_array_2026-01-01_00-00-00.xlsx" ].
Proof.
  assert (first_run ready = Some true) as H1 by reflexivity.
  assert (token_id ready = Some (JStr "38823f60")) as H2 by reflexivity.
  assert (report calm (take 2 report_commands) ready
          = (Ret tt, (report calm (take 2 report_commands) ready).2)) as H3.
  { vm_compute. reflexivity. }
  split_and!; try assumption.
  exact (report_events_spec calm _ ready _ true _ H1 H2 H3).
Defined.

(** X16 on [refusing], where the first command ends with the exception of
    the probe. *)
Lemma failed_first_command_blocks_report_witness :
  first_run ready = Some true ∧ disk ready = NoFile ∧
  parse_command_to_excel refusing "lssystem" ready
    = (Raise OSError, (parse_command_to_excel refusing "lssystem" ready).2) ∧
  (parse_command_to_excel refusing "lsvdisk"
     (parse_command_to_excel refusing "lssystem" ready).2).1
    = Raise FileNotFoundError.
Proof.
  assert (first_run ready = Some true) as H1 by reflexivity.
  assert (disk ready = NoFile) as H2 by reflexivity.
  assert (parse_command_to_excel refusing "lssystem" ready
    = (Raise OSError, (parse_command_to_excel refusing "lssystem" ready).2)) as H3.
  { vm_compute. reflexivity. }
  split_and!; try assumption.
  destruct (failed_first_command_blocks_report refusing "lssystem" ready _ _
              H1 H2 eq_refl H3) as (_ & _ & Hnext); [discriminate|].
  rewrite (Hnext eq_refl "lsvdisk"). reflexivity.
Defined.

(** X17 for an answer to [lsportfc] with a list in its record. *)
Lemma nested_value_stops_command_witness :
  "lsportfc" ≠ "lssystem" ∧
  open_sheet (answering (JArr [JObj nested_record])) "lsportfc" ready
    = (Ret ([new_sheet "lsportfc"], O), set_first_run false ready) ∧
  nested (JArr [JStr "1"; JStr "2"]) = true ∧
  (parse_command_to_excel (answering (JArr [JObj nested_record])) "lsportfc" ready).1
    = Raise ValueError.
Proof.
  assert ("lsportfc" ≠ "lssystem") as H1 by discriminate.
  assert (open_sheet (answering (JArr [JObj nested_record])) "lsportfc" ready
    = (Ret ([new_sheet "lsportfc"], O), set_first_run false ready)) as H2.
  { reflexivity. }
  assert (run_command (answering (JArr [JObj nested_record])) "lsportfc"
            (set_first_run false ready)
    = (Ret (JArr (JObj <$> [nested_record])),
       (run_command (answering (JArr [JObj nested_record])) "lsportfc"
          (set_first_run false ready)).2)) as H3.
  { vm_compute. reflexivity. }
  split_and!; [assumption..|reflexivity|].
  destruct (nested_value_stops_command _ "lsportfc" [nested_record]
              nested_record "ports" (JArr [JStr "1"; JStr "2"]) ready _ _ _ _
              H1 H2 H3) as (rows & e & Hg & _ & -> & Hlegal);
    [by left|reflexivity..|].
  simpl. f_equal. apply Hlegal. vm_compute in Hg. injection Hg as <-.
  intros row s Hrow Hs.
  repeat (apply elem_of_cons in Hrow as [->|Hrow]);
    [..|destruct (proj1 (elem_of_nil _) Hrow)];
    repeat (apply elem_of_cons in Hs as [Hs|Hs]);
    try destruct (proj1 (elem_of_nil _) Hs);
    try discriminate Hs; injection Hs as ->; vm_compute; reflexivity.
Defined.

(** X18 for an array that has no consistency group. *)
Lemma empty_answer_sheet_witness :
  "lsfcconsistgrp" ≠ "lssystem" ∧
  run_command (answering (JArr [])) "lsfcconsistgrp" ready
    = (Ret (JArr []), (run_command (answering (JArr [])) "lsfcconsistgrp" ready).2) ∧
  (gather (answering (JArr [])) "lsfcconsistgrp" ready).1 = Ret [[]].
Proof.
  assert ("lsfcconsistgrp" ≠ "lssystem") as H1 by discriminate.
  assert (run_command (answering (JArr [])) "lsfcconsistgrp" ready
    = (Ret (JArr []), (run_command (answering (JArr [])) "lsfcconsistgrp" ready).2))
    as H2.
  { vm_compute. reflexivity. }
  split_and!; [assumption..|].
  rewrite (proj1 (empty_answer_sheet _ _ _ _ H1 H2)). reflexivity.
Defined.

(** X19 on the small sheet: a cell of the header and one below it. *)
Lemma format_sheet_cells_witness :
  append_rows small_rows (new_sheet "lsnode") = Ok small_sheet ∧
  format_sheet small_sheet = Ok formatted_small ∧
  cells formatted_small !! (1%positive, 2%positive)
    = Some (Cell (Val (JStr "name")) HEADER_FONT HEADER_FILL CENTER) ∧
  cells formatted_small !! (2%positive, 1%positive)
    = Some (Cell (Val (JStr "0")) DEFAULT_FONT EVEN_FILL CENTER).
Proof.
  assert (append_rows small_rows (new_sheet "lsnode") = Ok small_sheet) as H1.
  { vm_compute. reflexivity. }
  assert (format_sheet small_sheet = Ok formatted_small) as H2.
  { vm_compute. reflexivity. }
  split_and!; [assumption..| |].
  - rewrite (proj2 (format_sheet_cells _ _ _ _ H1 H2)). vm_compute. reflexivity.
  - rewrite (proj2 (format_sheet_cells _ _ _ _ H1 H2)). vm_compute. reflexivity.
Defined.

(** X20 for column 28, [AB]. *)
Lemma get_column_letter_injective_witness :
  get_column_letter 28 = Ok "AB" ∧ (28 = 28)%positive.
Proof.
  split; [reflexivity|].
  exact (get_column_letter_injective 28 28 "AB" eq_refl eq_refl).
Defined.

(** X21 on the small sheet: the width of its second column. *)
Lemma format_sheet_widths_witness :
  format_sheet small_sheet = Ok formatted_small ∧
  column_dimensions formatted_small !! "B" = Some (ColumnDimension 2 2 25).
Proof.
  assert (format_sheet small_sheet = Ok formatted_small) as H.
  { vm_compute. reflexivity. }
  split; [exact H|].
  apply (format_sheet_widths _ _ H). exists 2%positive.
  split; [vm_compute; split; discriminate|]. split; reflexivity.
Defined.

(** X23 for [lsnode] on [calm]: status 200, and the body is returned. *)
Lemma run_command_outcomes_witness :
  check_connection calm ready
    = (Ret tt, record_event (Connect "array" "7443") ready) ∧
  check_user_rights "lsnode" (record_event (Connect "array" "7443") ready)
    = (Ret true, record_event (Connect "array" "7443") ready) ∧
  token_id ready = Some (JStr "38823f60") ∧
  (run_command calm "lsnode" ready).1 = Ret sample_records.
Proof.
  split_and!; [reflexivity..|].
  destruct (run_command_outcomes calm "lsnode" ready
              (record_event (Connect "array" "7443") ready) true
              (JStr "38823f60") 200 (Some sample_records)
              eq_refl eq_refl eq_refl eq_refl)
    as (r & -> & _ & Hret & _).
  apply Hret. split; reflexivity.
Defined.

(** X24 on [calm] and [obliging], with [verbose] set. *)
Lemma constructor_returns_witness :
  SV_system calm obliging "array" "monitor" "secret" "./output/" true
    = (Ret (Logger "array" DEBUG), ready, None) ∧
  master_file ready = "./output/SVCheck_array_2026-01-01_00-00-00.xlsx" ∧
  first_run ready = Some true.
Proof.
  assert (SV_system calm obliging "array" "monitor" "secret" "./output/" true
          = (Ret (Logger "array" DEBUG), ready, None)) as H.
  { vm_compute. reflexivity. }
  split; [exact H|].
  destruct (constructor_returns calm obliging _ _ _ _ _ _ _ _ H)
    as (_ & _ & _ & Hfile & token & role & _ & _ & Hflag & _).
  split; [exact Hfile|exact Hflag].
Defined.

(** X25 on the small sheet, when its two rows come a second time. *)
Lemma format_between_appends_witness :
  small_rows ≠ [] ∧
  append_rows small_rows (new_sheet "lsnode") = Ok small_sheet ∧
  format_sheet small_sheet = Ok formatted_small ∧
  append_rows small_rows formatted_small ≫= format_sheet
  = append_rows (small_rows ++ small_rows) (new_sheet "lsnode") ≫= format_sheet.
Proof.
  assert (small_rows ≠ []) as H0 by discriminate.
  assert (append_rows small_rows (new_sheet "lsnode") = Ok small_sheet) as H1.
  { vm_compute. reflexivity. }
  assert (format_sheet small_sheet = Ok formatted_small) as H2.
  { vm_compute. reflexivity. }
  split_and!; [assumption..|].
  exact (format_between_appends "lsnode" small_rows small_rows small_sheet
           formatted_small H0 H1 H2).
Defined.

(** ** Where the claims of the specification stop *)

(** C1 as stated has the [N] sheets in the file after any fatal error.
    On [tearing] the first command is processed and saved; the save of
    the second fails after it has begun to write, the run ends with code
    2, and the file that had one sheet cannot be read. *)
Lemma sheets_follow_commands_counterexample :
  let st := (init tearing sample_client).2 in
  let st1 := (report tearing (take 1 report_commands) st).2 in
  let stop := parse_command_to_excel tearing "lsnodecanister" st1 in
  first_run st = Some true ∧ disk st = NoFile ∧
  report tearing (take 1 report_commands) st = (Ret tt, st1) ∧
  persisted (disk st1) = Some ["lssystem"] ∧
  report_commands !! 1%nat = Some "lsnodecanister" ∧
  stop.1 = Exit 2 ∧
  persisted (disk stop.2) ≠ Some (take 1 report_commands).
Proof. vm_compute. split_and!; (reflexivity || discriminate). Qed.


(** C5 as stated has two columns for each tier entry, with the values of
    that entry.  [twin_lssystem] has two entries of the same name: the row
    has 24 + 2 columns, not 24 + 4, and they carry the values of the
    second entry, not those of the first. *)
Lemma lssystem_one_row_counterexample :
  tier_entries twin_lssystem
    = [ JObj [("tier", JStr "tier0_flash"); ("tier_capacity", JStr "10.00TB");
              ("tier_free_capacity", JStr "4.00TB")];
        JObj [("tier", JStr "tier0_flash"); ("tier_capacity", JStr "20.00TB");
              ("tier_free_capacity", JStr "8.00TB")] ] ∧
  ∃ row, lssystem_row twin_lssystem = Ok row ∧
    List.length row = 26%nat ∧
    dict_get "tier0_flash_total" row = Some (JStr "20.00TB") ∧
    dict_get "tier0_flash_free" row = Some (JStr "8.00TB").
Proof. split; [reflexivity|]. eexists. by vm_compute. Qed.

